(** * Olympic_Data_Analysis: the CSV tokenizer and the DataFrame engine

    A shallow embedding of [src/utils.py] ([_parse_csv], [read_csv]) and of
    [src/dataframe_loader.py] ([DataFrame], [GroupedDataFrame]), with the
    properties of the specification stated and proved over it.

    Python values are embedded as follows.
    - [str] is [string]; a character is an [ascii].
    - A [dict] (and a [defaultdict(list)]) is an association list in
      insertion order with pairwise distinct keys: Python dictionaries
      iterate in insertion order and the code relies on it.
    - A [set] is a [gset]; where the code iterates over a set, the order of
      the iteration is a parameter: a list without repetition that holds
      the elements of the set.
    - A raised exception is [Err e]; a normal return is [Ok v]. *)

From Stdlib Require Import Ascii String ZArith Lia.
From Stdlib Require QArith.
From stdpp Require Import base decidable option list sets gmap strings.

Set Warnings "-clear-no-such-hyp".

Local Open Scope string_scope.
Local Open Scope list_scope.
Local Open Scope nat_scope.

(** ** Exceptions *)

Inductive error : Type :=
| KeyError (msg : string)
| ValueError (msg : string)
| TypeError (msg : string)
| IndexError (msg : string)
| OSError (msg : string)
| UnicodeDecodeError (msg : string).

Inductive result (A : Type) : Type :=
| Ok (a : A)
| Err (e : error).
Arguments Ok {A} a.
Arguments Err {A} e.

Global Instance result_ret : MRet result := fun A a => Ok a.
Global Instance result_bind : MBind result := fun A B k r =>
  match r with
  | Ok a => k a
  | Err e => Err e
  end.

(** [for x in l: acc = f(acc, x)], stopping at the first exception. *)
Fixpoint foldM {A B : Type} (f : A -> B -> result A) (l : list B) (acc : A)
  : result A :=
  match l with
  | [] => Ok acc
  | x :: l' => acc' ← f acc x; foldM f l' acc'
  end.

(** [f(x)] for every element, left to right, stopping at the first
    exception. *)
Fixpoint mapM_result {A B : Type} (f : A -> result B) (l : list A)
  : result (list B) :=
  match l with
  | [] => Ok []
  | x :: l' => y ← f x; ys ← mapM_result f l'; mret (y :: ys)
  end.

(** [l[i]] on a list: an index out of range raises [IndexError]. *)
Definition list_getitem {A : Type} (l : list A) (i : nat) : result A :=
  match l !! i with
  | Some x => Ok x
  | None => Err (IndexError "list index out of range")
  end.

(** ** Insertion-ordered dictionaries *)

Module PyDict.
Section Dict.
Context {K V : Type} `{EqDecision K}.

(** [k in d] *)
Fixpoint mem (d : list (K * V)) (k : K) : bool :=
  match d with
  | [] => false
  | (k', _) :: d' => if decide (k' = k) then true else mem d' k
  end.

(** [d.get(k)] as an option *)
Fixpoint get (d : list (K * V)) (k : K) : option V :=
  match d with
  | [] => None
  | (k', v) :: d' => if decide (k' = k) then Some v else get d' k
  end.

(** [d[k] = v]: an existing key keeps its position, a new key goes last. *)
Fixpoint set (d : list (K * V)) (k : K) (v : V) : list (K * V) :=
  match d with
  | [] => [(k, v)]
  | (k', v') :: d' =>
      if decide (k' = k) then (k', v) :: d' else (k', v') :: set d' k v
  end.

(** [list(d.keys())] *)
Definition keys (d : list (K * V)) : list K := map fst d.
End Dict.

Section DefaultDict.
Context {K A : Type} `{EqDecision K}.

(** [d[k].append(x)] on a [defaultdict(list)]: a missing key is created
    with the empty list first. *)
Fixpoint append (d : list (K * list A)) (k : K) (x : A) : list (K * list A) :=
  match d with
  | [] => [(k, [x])]
  | (k', xs) :: d' =>
      if decide (k' = k) then (k', xs ++ [x]) :: d'
      else (k', xs) :: append d' k x
  end.

(** [d.get(k, [])] *)
Definition get_list (d : list (K * list A)) (k : K) : list A :=
  default [] (get d k).
End DefaultDict.
End PyDict.

(** ** The tokenizer: [_parse_csv] of utils.py *)

Definition CR : ascii := "013"%char.
Definition LF : ascii := "010"%char.
Definition DQUOTE : ascii := "034"%char.

(** [ch == s] for a one-character string [ch] and a string [s]. *)
Definition is_char (ch : ascii) (s : string) : bool :=
  String.eqb (String ch EmptyString) s.

(** ["".join(field_chars)] *)
Definition join_chars (field_chars : list ascii) : string :=
  string_of_list_ascii field_chars.

(** [any(cell != "" for cell in row) or len(row) > 1] *)
Definition keep_row (row : list string) : bool :=
  existsb (fun cell => negb (String.eqb cell "")) row || (1 <? length row).

(** The code after the [while] loop. *)
Definition finalize (rows : list (list string)) (row : list string)
    (field_chars : list ascii) (in_quotes : bool) : result (list (list string)) :=
  if in_quotes then Err (ValueError "Unterminated quoted field at end of input")
  else if negb (bool_decide (field_chars = [])) || negb (bool_decide (row = []))
  then Ok (rows ++ [row ++ [join_chars field_chars]])
  else Ok rows.

(** The [while i < n] loop: [text] is [text[i:]], so [text[i + 1]] is the
    head of its tail, [i += 1] moves to the tail and [i += 2] to the tail of
    the tail. *)
Fixpoint scan (delimiter quote_char : string) (text : string)
    (rows : list (list string)) (row : list string)
    (field_chars : list ascii) (in_quotes : bool) {struct text}
  : result (list (list string)) :=
  match text with
  | EmptyString => finalize rows row field_chars in_quotes
  | String ch rest =>
    if in_quotes then
      if is_char ch quote_char then
        match rest with
        | String nxt rest' =>
            if is_char nxt quote_char
            then scan delimiter quote_char rest' rows row (field_chars ++ [ch]) true
            else scan delimiter quote_char rest rows row field_chars false
        | EmptyString => scan delimiter quote_char rest rows row field_chars false
        end
      else scan delimiter quote_char rest rows row (field_chars ++ [ch]) true
    else if is_char ch quote_char then
      if negb (bool_decide (field_chars = []))
      then Err (ValueError "Unexpected quote inside unquoted field")
      else scan delimiter quote_char rest rows row field_chars true
    else if is_char ch delimiter then
      scan delimiter quote_char rest rows (row ++ [join_chars field_chars]) [] false
    else if Ascii.eqb ch CR || Ascii.eqb ch LF then
      let row' := row ++ [join_chars field_chars] in
      let rows' := if keep_row row' then rows ++ [row'] else rows in
      match rest with
      | String nxt rest' =>
          if Ascii.eqb ch CR && Ascii.eqb nxt LF
          then scan delimiter quote_char rest' rows' [] [] false
          else scan delimiter quote_char rest rows' [] [] false
      | EmptyString => scan delimiter quote_char rest rows' [] [] false
      end
    else scan delimiter quote_char rest rows row (field_chars ++ [ch]) false
  end.

Definition _parse_csv (text : string) (delimiter quote_char : string)
  : result (list (list string)) :=
  scan delimiter quote_char text [] [] [] false.

(** Where the scanner stands after a line terminator [ch] followed by
    [rest]: a carriage return swallows the line feed that follows it. *)
Definition after_terminator (ch : ascii) (rest : string) : string :=
  match rest with
  | String nxt rest' => if Ascii.eqb ch CR && Ascii.eqb nxt LF then rest' else rest
  | EmptyString => rest
  end.

Definition is_terminator (ch : ascii) : bool := Ascii.eqb ch CR || Ascii.eqb ch LF.

(** A record as the scanner may emit it: not empty and not a single
    empty field. *)
Definition emitted (r : list string) : Prop := r <> [] /\ r <> [""].

(** ** Header handling: [read_csv] of utils.py

    [read_csv] takes the text that is handed to [_parse_csv]: the text
    that [source.read()] returns for a file-like [source] in text mode.
    The branch for a path, which opens the file and decodes its bytes, is
    [read_source] below. *)

Inductive csv_data : Type :=
| Rows (rows : list (list string))
| DictRows (dict_rows : list (list (string * string))).

(** The [if len(r) < len(header)] statement. *)
Definition pad_or_truncate (header r : list string) : list string :=
  if length r <? length header
  then r ++ replicate (length header - length r) ""
  else take (length header) r.

(** [{header[i]: padded[i] for i in range(len(header))}]: the key is
    evaluated before the value, and [padded[i]] raises [IndexError] when
    [padded] is shorter than the header. *)
Definition header_dict (header padded : list string)
  : result (list (string * string)) :=
  foldM (fun d i => k ← list_getitem header i;
                    v ← list_getitem padded i;
                    mret (PyDict.set d k v))
        (seq 0 (length header)) [].

Definition read_csv (text : string) (delimiter quote_char : string)
    (has_header : bool) : result csv_data :=
  rows ← _parse_csv text delimiter quote_char;
  if negb has_header then Ok (Rows rows)
  else match rows with
       | [] => Ok (DictRows [])
       | header :: rest =>
           dict_rows ← mapM_result
                         (fun r => header_dict header (pad_or_truncate header r)) rest;
           Ok (DictRows dict_rows)
       end.

Definition nl : string := String LF "".
Definition dq : string := String DQUOTE "".

(** The text of the specification's example, in which Jay stands between
    doubled quote characters; [dq] is one quote character, [nl] a line feed. *)
Definition csv_example : string :=
  String.concat ""
    ["Name,Age"; nl;
     dq; "Smith, John"; dq; ",30"; nl;
     dq; "Doe, "; dq; dq; "Jay"; dq; dq; dq; ",25"; nl].

(** ** Cell values

    A cell holds [None], a number or a string.  A number is kept as the
    rational it denotes, in lowest terms, so that Python's [1 == 1.0] is
    plain equality; the rounding of float arithmetic is not modelled. *)

Inductive value : Type :=
| VNone
| VNum (q : QArith_base.Q)
| VStr (s : string).

Definition VInt (z : Z) : value := VNum (QArith_base.inject_Z z).

Global Instance Q_eq_dec : EqDecision QArith_base.Q.
Proof. solve_decision. Defined.

Global Instance value_eq_dec : EqDecision value.
Proof. solve_decision. Defined.

Definition is_numeric (v : value) : bool :=
  match v with VNum _ => true | _ => false end.

(** [a + b] *)
Definition py_add (a b : value) : result value :=
  match a, b with
  | VNum x, VNum y => Ok (VNum (Qreduction.Qred (QArith_base.Qplus x y)))
  | VStr x, VStr y => Ok (VStr (x +:+ y))
  | _, _ => Err (TypeError "unsupported operand type(s) for +")
  end.

(** [a < b]: numbers by value, strings lexicographically. *)
Definition py_lt (a b : value) : result bool :=
  match a, b with
  | VNum x, VNum y => Ok (negb (QArith_base.Qle_bool y x))
  | VStr x, VStr y => Ok (String.ltb x y)
  | _, _ => Err (TypeError "'<' not supported between instances")
  end.

(** [s / n] for a positive integer [n] *)
Definition py_truediv (s : value) (n : nat) : result value :=
  match s with
  | VNum x =>
      Ok (VNum (Qreduction.Qred
                  (QArith_base.Qdiv x (QArith_base.inject_Z (Z.of_nat n)))))
  | _ => Err (TypeError "unsupported operand type(s) for /")
  end.

(** The builtin [sum]: starts from the integer 0. *)
Definition py_sum (x : list value) : result value :=
  foldM py_add x (VInt 0).

(** The builtin [min]: keeps the first element and replaces it by each
    later [item] with [item < best]; a single element is never compared. *)
Definition py_min (x : list value) : result value :=
  match x with
  | [] => Err (ValueError "min() arg is an empty sequence")
  | v :: rest =>
      foldM (fun best item => lt ← py_lt item best;
                              mret (if lt : bool then item else best)) rest v
  end.

(** The builtin [max]: replaces on [item > best]. *)
Definition py_max (x : list value) : result value :=
  match x with
  | [] => Err (ValueError "max() arg is an empty sequence")
  | v :: rest =>
      foldM (fun best item => gt ← py_lt best item;
                              mret (if gt : bool then item else best)) rest v
  end.

(** ** [DataFrame] of dataframe_loader.py *)

Module DataFrame.

(** The two attributes of an instance. *)
Record t : Type := mk { _data : list (string * list value); _length : nat }.

(** [__init__]: [len(set(lengths)) > 1] is the size of a set. *)
Definition new (data : list (string * list value)) : result t :=
  match data with
  | [] => Ok {| _data := []; _length := 0 |}
  | _ :: _ =>
      let lengths := map (fun c => length c.2) data in
      if 1 <? size (list_to_set lengths : gset nat)
      then Err (ValueError "All columns must have the same length")
      else Ok {| _data := data; _length := hd 0 lengths |}
  end.

(** [__len__], [columns] and [shape] *)
Definition len (self : t) : nat := _length self.
Definition columns (self : t) : list string := PyDict.keys (_data self).
Definition shape (self : t) : nat * nat := (_length self, length (_data self)).

(** [col in self._data] *)
Definition has_column (self : t) (col : string) : bool :=
  PyDict.mem (_data self) col.

(** [__getitem__] with a string key *)
Definition getitem (self : t) (key : string) : result (list value) :=
  match PyDict.get (_data self) key with
  | Some c => Ok c
  | None => Err (KeyError "Column not found")
  end.

(** [self._data[col][i]] where the code has made sure that [col] is a
    column and [i < self._length]: on an instance built by [new] neither
    default is ever returned. *)
Definition cell (self : t) (col : string) (i : nat) : value :=
  nth i (PyDict.get_list (_data self) col) VNone.

(** [{col: self._data[col][i] for col in self._data}] *)
Definition row_at (self : t) (i : nat) : list (string * value) :=
  fold_left (fun row col => PyDict.set row col (cell self col i))
            (columns self) [].

(** [for col in self._data: filtered_data[col].append(self._data[col][i])] *)
Definition append_row (self : t) (i : nat)
    (filtered_data : list (string * list value)) : list (string * list value) :=
  fold_left (fun fd col => PyDict.append fd col (cell self col i))
            (columns self) filtered_data.

Definition filter (self : t) (condition : list (string * value) -> bool)
  : result t :=
  let filtered_data :=
    fold_left (fun fd i => if condition (row_at self i)
                           then append_row self i fd else fd)
              (seq 0 (_length self)) [] in
  new filtered_data.

Definition project (self : t) (columns : list string) : result t :=
  if negb (forallb (has_column self) columns)
  then Err (KeyError "Columns not found")
  else new (fold_left (fun d col => PyDict.set d col (PyDict.get_list (_data self) col))
                      columns []).

(** *** Aggregation *)

(** An aggregator is a name or a callable with its [__name__]. *)
Inductive agg_func : Type :=
| Named (name : string)
| Callable (__name__ : string) (f : list value -> result value).

(** The value of an [aggregations] entry: one aggregator or a list. *)
Inductive agg_arg : Type :=
| Single (func : agg_func)
| Several (funcs : list agg_func).

(** [funcs] after the [isinstance]/[callable] normalisation *)
Definition funcs_of (a : agg_arg) : list agg_func :=
  match a with
  | Single func => [func]
  | Several funcs => funcs
  end.

Definition func_name (func : agg_func) : string :=
  match func with
  | Named name => name
  | Callable name _ => name
  end.

(** [f"{col}_{...}" if len(funcs) > 1 else col] *)
Definition result_key (col : string) (funcs : list agg_func) (func : agg_func)
  : string :=
  if 1 <? length funcs then col +:+ "_" +:+ func_name func else col.

Section Aggregation.
(** numpy is not part of the repository.  [np.std] and [np.var] are
    taken as what they compute on a list of numbers; on a list holding
    a string or [None] the conversion to an array of numbers is not
    possible and numpy raises a [TypeError]. *)
Variables np_std np_var : list QArith_base.Q -> QArith_base.Q.

Definition numbers_of (x : list value) : option (list QArith_base.Q) :=
  mapM (fun v => match v with VNum q => Some q | _ => None end) x.

Definition numpy_reduce (f : list QArith_base.Q -> QArith_base.Q)
    (x : list value) : result value :=
  match numbers_of x with
  | Some qs => Ok (VNum (f qs))
  | None => Err (TypeError "cannot perform reduce with flexible type")
  end.

Definition _apply_aggregation (values : list value) (func : agg_func)
  : result value :=
  match func with
  | Named name =>
      if String.eqb name "sum" then py_sum values
      else if String.eqb name "mean" then
        if 0 <? length values
        then s ← py_sum values; py_truediv s (length values)
        else Ok (VInt 0)
      else if String.eqb name "min" then py_min values
      else if String.eqb name "max" then py_max values
      else if String.eqb name "count" then Ok (VInt (Z.of_nat (length values)))
      else if String.eqb name "std" then
        if 0 <? length values then numpy_reduce np_std values else Ok (VInt 0)
      else if String.eqb name "var" then
        if 0 <? length values then numpy_reduce np_var values else Ok (VInt 0)
      else Err (ValueError "Unknown aggregation function")
  | Callable _ f => f values
  end.

(** The [for func in funcs] loop of [agg]: [store] is
    [result[result_key] = [agg_value]] for the whole table and
    [result_data[result_key].append(agg_value)] for a group. *)
Definition apply_funcs {R : Type} (store : R -> string -> value -> R)
    (col : string) (values : list value) (funcs : list agg_func) (r : R)
  : result R :=
  foldM (fun r func =>
           agg_value ← _apply_aggregation values func;
           mret (store r (result_key col funcs func) agg_value))
        funcs r.

Definition agg (self : t) (aggregations : list (string * agg_arg))
  : result t :=
  result ← foldM (fun result '(col, funcs) =>
              if negb (has_column self col)
              then Err (KeyError "Column not found")
              else apply_funcs (fun r k v => PyDict.set r k [v]) col
                     (PyDict.get_list (_data self) col) (funcs_of funcs) result)
           aggregations [];
  new result.
End Aggregation.

(** *** Join *)

(** [tuple(df._data[col][i] for col in on)] *)
Definition row_key (df : t) (on : list string) (i : nat) : list value :=
  map (fun col => cell df col i) on.

(** The index of a side: key tuple to the row indices holding it. *)
Definition build_index (df : t) (on : list string)
  : list (list value * list nat) :=
  fold_left (fun index i => PyDict.append index (row_key df on i) i)
            (seq 0 (len df)) [].

(** The validation loop at the head of [join]. *)
Definition validate_on (self other : t) (on : list string) : result unit :=
  foldM (fun _ col =>
           if negb (has_column self col)
           then Err (KeyError "Column not found in left DataFrame")
           else if negb (has_column other col)
           then Err (KeyError "Column not found in right DataFrame")
           else Ok tt) on tt.

(** [col + suffix if col in overlap else col] *)
Definition col_name (overlap : gset string) (suffix col : string) : string :=
  if decide (col ∈ overlap) then col +:+ suffix else col.

(** [set(df._data.keys()) - set(on)] *)
Definition non_key_cols (df : t) (on : list string) : gset string :=
  list_to_set (columns df) ∖ list_to_set on.

(** [left_cols & right_cols] *)
Definition overlap (self other : t) (on : list string) : gset string :=
  non_key_cols self on ∩ non_key_cols other on.

(** A Python [set] of strings is iterated in an order that the language
    does not fix: it changes with the hash seed of the process.  A set that
    is not changed is iterated in the same order every time.  [iterates l X]:
    [l] is an order in which the set [X] can be iterated. *)
Definition iterates (l : list string) (X : gset string) : Prop :=
  NoDup l /\ list_to_set l = X.

Global Instance iterates_dec l X : Decision (iterates l X).
Proof. unfold iterates. apply _. Defined.

Section Emit.
(** [left_order] and [right_order] are the orders in which the call
    iterates [left_cols] and [right_cols]. *)
Variables (on : list string) (left_order right_order : list string)
          (overlap : gset string) (suffixes : string * string).

(** One output row: the three [for col in ...] loops that every branch
    of [join] repeats, with the cell each loop appends. *)
Definition emit (key_cell left_cell right_cell : string -> value)
    (result_data : list (string * list value)) : list (string * list value) :=
  let rd1 := fold_left (fun rd col => PyDict.append rd col (key_cell col))
                       on result_data in
  let rd2 := fold_left (fun rd col =>
               PyDict.append rd (col_name overlap suffixes.1 col) (left_cell col))
               left_order rd1 in
  fold_left (fun rd col =>
               PyDict.append rd (col_name overlap suffixes.2 col) (right_cell col))
            right_order rd2.
End Emit.

Section Join.
(** [left_order] and [right_order]: the orders in which this call iterates
    its sets [left_cols = non_key_cols self on] and
    [right_cols = non_key_cols other on]. *)
Variables (self other : t) (on : list string) (how : string)
          (suffixes : string * string) (left_order right_order : list string).

Let right_index := build_index other on.
Let emit_row :=
  emit on left_order right_order (overlap self other on) suffixes.

(** [if how in ['inner', 'left']] *)
Definition join_inner_left (result_data : list (string * list value))
  : list (string * list value) :=
  fold_left (fun rd i =>
    let key := row_key self on i in
    let right_matches := PyDict.get_list right_index key in
    if negb (bool_decide (right_matches = [])) then
      fold_left (fun rd right_idx =>
                   emit_row (fun col => cell self col i)
                            (fun col => cell self col i)
                            (fun col => cell other col right_idx) rd)
                right_matches rd
    else if String.eqb how "left" then
      emit_row (fun col => cell self col i)
               (fun col => cell self col i)
               (fun _ => VNone) rd
    else rd)
    (seq 0 (_length self)) result_data.

(** [if how == 'right'] *)
Definition join_right (result_data : list (string * list value))
  : list (string * list value) :=
  let left_index := build_index self on in
  fold_left (fun rd i =>
    let key := row_key other on i in
    let left_matches := PyDict.get_list left_index key in
    if negb (bool_decide (left_matches = [])) then
      fold_left (fun rd left_idx =>
                   emit_row (fun col => cell other col i)
                            (fun col => cell self col left_idx)
                            (fun col => cell other col i) rd)
                left_matches rd
    else
      emit_row (fun col => cell other col i)
               (fun _ => VNone)
               (fun col => cell other col i) rd)
    (seq 0 (len other)) result_data.

(** The inner part of [if how == 'outer'], with the two sets of matched
    row indices it records. *)
Definition outer_inner_part (result_data : list (string * list value))
  : list (string * list value) * gset nat * gset nat :=
  fold_left (fun '(rd, matched_left, matched_right) i =>
    let key := row_key self on i in
    let right_matches := PyDict.get_list right_index key in
    if negb (bool_decide (right_matches = [])) then
      let matched_left := {[ i ]} ∪ matched_left in
      let '(rd, matched_right) :=
        fold_left (fun '(rd, matched_right) right_idx =>
                     (emit_row (fun col => cell self col i)
                               (fun col => cell self col i)
                               (fun col => cell other col right_idx) rd,
                      {[ right_idx ]} ∪ matched_right))
                  right_matches (rd, matched_right) in
      (rd, matched_left, matched_right)
    else (rd, matched_left, matched_right))
    (seq 0 (_length self)) (result_data, ∅, ∅).

(** The loop over the unmatched left rows *)
Definition outer_left_part (matched_left : gset nat)
    (result_data : list (string * list value)) : list (string * list value) :=
  fold_left (fun rd i =>
    if negb (bool_decide (i ∈ matched_left)) then
      emit_row (fun col => cell self col i)
               (fun col => cell self col i)
               (fun _ => VNone) rd
    else rd)
    (seq 0 (_length self)) result_data.

(** The loop over the unmatched right rows *)
Definition outer_right_part (matched_right : gset nat)
    (result_data : list (string * list value)) : list (string * list value) :=
  fold_left (fun rd i =>
    if negb (bool_decide (i ∈ matched_right)) then
      emit_row (fun col => cell other col i)
               (fun _ => VNone)
               (fun col => cell other col i) rd
    else rd)
    (seq 0 (len other)) result_data.

Definition join_outer (result_data : list (string * list value))
  : list (string * list value) :=
  let '(rd, matched_left, matched_right) := outer_inner_part result_data in
  outer_right_part matched_right (outer_left_part matched_left rd).

Definition join : result t :=
  _ ← validate_on self other on;
  let result_data := [] in
  let result_data :=
    if String.eqb how "inner" || String.eqb how "left"
    then join_inner_left result_data else result_data in
  let result_data :=
    if String.eqb how "right" then join_right result_data else result_data in
  let result_data :=
    if String.eqb how "outer" then join_outer result_data else result_data in
  new result_data.
End Join.

End DataFrame.

(** ** [GroupedDataFrame] of dataframe_loader.py *)

Module GroupedDataFrame.

Record t : Type := mk {
  _df : DataFrame.t;
  _group_cols : list string;
  _groups : list (list value * list nat)
}.

(** [tuple(self._df._data[col][i] for col in self._group_cols)]: a name
    that is no column raises [KeyError]. *)
Definition group_key (df : DataFrame.t) (group_cols : list string) (i : nat)
  : result (list value) :=
  mapM_result (fun col => if DataFrame.has_column df col
                          then Ok (DataFrame.cell df col i)
                          else Err (KeyError col)) group_cols.

Definition _build_groups (df : DataFrame.t) (group_cols : list string)
  : result (list (list value * list nat)) :=
  foldM (fun groups i =>
           key ← group_key df group_cols i;
           mret (PyDict.append groups key i))
        (seq 0 (DataFrame.len df)) [].

(** [__init__] *)
Definition new (df : DataFrame.t) (group_cols : list string) : result t :=
  groups ← _build_groups df group_cols;
  mret {| _df := df; _group_cols := group_cols; _groups := groups |}.

Section Aggregation.
Variables np_std np_var : list QArith_base.Q -> QArith_base.Q.

(** The body of the loop over the groups. *)
Definition agg_group (self : t) (aggregations : list (string * DataFrame.agg_arg))
    (result_data : list (string * list value))
    (group : list value * list nat) : result (list (string * list value)) :=
  let '(group_key, indices) := group in
  let result_data :=
    fold_left (fun rd '(i, col) => PyDict.append rd col (nth i group_key VNone))
              (imap (fun i col => (i, col)) (_group_cols self)) result_data in
  foldM (fun rd '(col, funcs) =>
           if negb (DataFrame.has_column (_df self) col)
           then Err (KeyError "Column not found")
           else
             let group_values :=
               map (fun idx => DataFrame.cell (_df self) col idx) indices in
             DataFrame.apply_funcs np_std np_var
               (fun r k v => PyDict.append r k v) col group_values
               (DataFrame.funcs_of funcs) rd)
        aggregations result_data.

Definition agg (self : t) (aggregations : list (string * DataFrame.agg_arg))
  : result DataFrame.t :=
  result_data ← foldM (agg_group self aggregations) (_groups self) [];
  DataFrame.new result_data.
End Aggregation.

End GroupedDataFrame.

(** [DataFrame.group_by], a single name standing for the list of it. *)
Definition group_by (self : DataFrame.t) (columns : list string)
  : result GroupedDataFrame.t :=
  GroupedDataFrame.new self columns.

(** A text with a blank line, a line of one delimiter, a line holding an
    empty quoted field, and a last line without terminator. *)
Definition blank_lines_example : string :=
  String.concat "" ["a,b"; nl; nl; ","; nl; "x"; nl; dq; dq; nl; "c,d,e"].

(** ** Tables as lists of rows

    What the theorems say about a table is said about its rows, each read
    as [filter] reads it: a dictionary from column name to cell. *)

(** The class invariant: what [DataFrame.new] establishes for a dictionary
    (whose keys are distinct). *)
Definition wf (df : DataFrame.t) : Prop :=
  NoDup (DataFrame.columns df)
  /\ Forall (fun c => length c.2 = DataFrame._length df) (DataFrame._data df)
  /\ (DataFrame._data df = [] -> DataFrame._length df = 0).

Global Instance wf_dec (df : DataFrame.t) : Decision (wf df).
Proof. unfold wf. apply _. Defined.

Definition rows_of (df : DataFrame.t) : list (list (string * value)) :=
  map (DataFrame.row_at df) (seq 0 (DataFrame.len df)).

(** [row[col]] for a column of the row *)
Definition field (row : list (string * value)) (col : string) : value :=
  default VNone (PyDict.get row col).

(** Appending one cell per column of a row, and a run of rows. *)
Definition append_cells (result_data : list (string * list value))
    (row : list (string * value)) : list (string * list value) :=
  fold_left (fun rd kv => PyDict.append rd kv.1 kv.2) row result_data.

Definition append_rows (result_data : list (string * list value))
    (rows : list (list (string * value))) : list (string * list value) :=
  fold_left append_cells rows result_data.

(** The columns that hold the given rows under the given names. *)
Definition table_of (names : list string) (rows : list (list (string * value)))
  : list (string * list value) :=
  match rows with
  | [] => []
  | _ :: _ => map (fun name => (name, map (fun row => field row name) rows)) names
  end.

(** [on] names columns of both tables: what the validation loop of [join]
    checks. *)
Definition valid_on (self other : DataFrame.t) (on : list string) : Prop :=
  Forall (fun col => DataFrame.has_column self col = true
                     /\ DataFrame.has_column other col = true) on.

Global Instance valid_on_dec self other on : Decision (valid_on self other on).
Proof. unfold valid_on. apply _. Defined.

(** The table of the specification's grouping example. *)
Definition medals : DataFrame.t :=
  DataFrame.mk [("NOC", [VStr "A"; VStr "A"; VStr "B"]);
                ("Medal", [VStr "Gold"; VStr "Silver"; VStr "Gold"])] 3.

(** [lambda row: row[col] == v] *)
Definition column_is (col : string) (v : value) (row : list (string * value)) : bool :=
  bool_decide (field row col = v).

(** ** The rows of a join

    The rows a join is to produce, written from the specification: which
    rows of the two sides are paired, and what a row holds. *)

Section JoinRows.
(** [left_order], [right_order]: the orders in which the two sets of
    non-key columns are iterated. *)
Variables (self other : DataFrame.t) (on : list string)
          (suffixes : string * string) (left_order right_order : list string).

Let overlap := DataFrame.overlap self other on.

(** The names of the output columns: the keys, the left non-key columns,
    the right non-key columns, both suffixed where they overlap. *)
Definition out_names : list string :=
  on ++ map (DataFrame.col_name overlap suffixes.1) left_order
     ++ map (DataFrame.col_name overlap suffixes.2) right_order.

(** An output row, given the cell of each of its three parts. *)
Definition out_row (key_cell left_cell right_cell : string -> value)
  : list (string * value) :=
  map (fun col => (col, key_cell col)) on
  ++ map (fun col => (DataFrame.col_name overlap suffixes.1 col, left_cell col))
         left_order
  ++ map (fun col => (DataFrame.col_name overlap suffixes.2 col, right_cell col))
         right_order.

(** Left row [i] with right row [j]; left row [i] alone; right row [j]
    alone. *)
Definition paired_row (i j : nat) : list (string * value) :=
  out_row (fun col => DataFrame.cell self col i)
          (fun col => DataFrame.cell self col i)
          (fun col => DataFrame.cell other col j).

Definition left_only_row (i : nat) : list (string * value) :=
  out_row (fun col => DataFrame.cell self col i)
          (fun col => DataFrame.cell self col i)
          (fun _ => VNone).

Definition right_only_row (j : nat) : list (string * value) :=
  out_row (fun col => DataFrame.cell other col j)
          (fun _ => VNone)
          (fun col => DataFrame.cell other col j).

(** The key of every row of a side, in row order. *)
Definition keys_of (df : DataFrame.t) : list (list value) :=
  map (DataFrame.row_key df on) (seq 0 (DataFrame.len df)).

(** The right rows that have the key of left row [i], in row order. *)
Definition matches_of (i : nat) : list nat :=
  List.filter (fun j => bool_decide (DataFrame.row_key other on j =
                                     DataFrame.row_key self on i))
              (seq 0 (DataFrame.len other)).

(** Left rows whose key is the key of no right row, and right rows whose
    key is the key of no left row. *)
Definition unmatched_left : list nat :=
  List.filter (fun i => bool_decide (DataFrame.row_key self on i ∉ keys_of other))
              (seq 0 (DataFrame.len self)).

Definition unmatched_right : list nat :=
  List.filter (fun j => bool_decide (DataFrame.row_key other on j ∉ keys_of self))
              (seq 0 (DataFrame.len other)).

(** Inner join: every left row with each of its matches. *)
Definition inner_pairs : list (nat * nat) :=
  concat (map (fun i => map (fun j => (i, j)) (matches_of i))
              (seq 0 (DataFrame.len self))).

Definition inner_rows : list (list (string * value)) :=
  map (fun p => paired_row p.1 p.2) inner_pairs.

(** Left join: a left row without match gives one row of its own. *)
Definition left_rows : list (list (string * value)) :=
  concat (map (fun i => match matches_of i with
                        | [] => [left_only_row i]
                        | ms => map (paired_row i) ms
                        end)
              (seq 0 (DataFrame.len self))).

(** Outer join: the three phases in their order. *)
Definition outer_rows : list (list (string * value)) :=
  inner_rows ++ map left_only_row unmatched_left
             ++ map right_only_row unmatched_right.
End JoinRows.

(** ** Counting keys *)

(** The distinct elements of a list, each at its first occurrence. *)
Fixpoint first_seen {K : Type} `{EqDecision K} (l : list K) : list K :=
  match l with
  | [] => []
  | k :: l' => k :: List.filter (fun k' => bool_decide (k' <> k)) (first_seen l')
  end.

(** How many elements of [l] are [k]. *)
Definition occurrences {K : Type} `{EqDecision K} (k : K) (l : list K) : nat :=
  length (List.filter (fun x => bool_decide (x = k)) l).


(** The two tables of the specification's join example. *)
Definition join_left_example : DataFrame.t :=
  DataFrame.mk [("id", [VInt 1; VInt 2; VInt 3])] 3.

Definition join_right_example : DataFrame.t :=
  DataFrame.mk [("id", [VInt 2; VInt 3; VInt 4]);
                ("v", [VStr "x"; VStr "y"; VStr "z"])] 3.

(** Two tables in which the key 1 is held by two rows on each side, next
    to a left row and a right row without match. *)
Definition many_left_example : DataFrame.t :=
  DataFrame.mk [("id", [VInt 1; VInt 1; VInt 2]);
                ("a", [VStr "p"; VStr "q"; VStr "r"])] 3.

Definition many_right_example : DataFrame.t :=
  DataFrame.mk [("id", [VInt 3; VInt 1; VInt 1]);
                ("b", [VStr "x"; VStr "y"; VStr "z"])] 3.

(** The missing sentinel of the specification's data model: the value
    ["NA"] or the empty string. *)
Definition missing_sentinel (v : value) : Prop := v = VStr "NA" \/ v = VStr "".

(** ** The rows of a grouped count *)

(** The row of a group under [agg({x: 'count'})]: the group columns with
    the values of the key, then the number of rows of the group under the
    name of the counted column. *)
Definition count_row (cols : list string) (x : string) (keys : list (list value))
    (key : list value) : list (string * value) :=
  zip cols key ++ [(x, VInt (Z.of_nat (occurrences key keys)))].

(** The aggregation that counts one column. *)
Definition count_of (x : string) : list (string * DataFrame.agg_arg) :=
  [(x, DataFrame.Single (DataFrame.Named "count"))].

(** ** Aggregators and the values they meet *)

Definition is_str (v : value) : bool :=
  match v with VStr _ => true | _ => false end.

(** The call raised a [TypeError]. *)
Definition is_type_error {A : Type} (r : result A) : Prop :=
  exists msg, r = Err (TypeError msg).

(** The aggregators that add their values up. *)
Definition summing : list string := ["sum"; "mean"; "std"; "var"].


(** Values that cannot all be compared with one another: a number next to
    a string or [None], or [None] next to any other value. *)
Definition mixed (values : list value) : Prop :=
  (Exists (fun v => is_numeric v = true) values
   /\ Exists (fun v => is_numeric v = false) values)
  \/ (VNone ∈ values /\ 1 < length values).

Global Instance mixed_dec values : Decision (mixed values).
Proof. unfold mixed. apply _. Defined.

(** The aggregation of one column by one named aggregator. *)
Definition one_agg (col name : string) : list (string * DataFrame.agg_arg) :=
  [(col, DataFrame.Single (DataFrame.Named name))].

(** [np.std] and [np.var] are parameters of the aggregators; a closed
    statement about aggregators that never reach numpy takes this one for
    both. *)
Definition np_zero (x : list QArith_base.Q) : QArith_base.Q := QArith_base.inject_Z 0.

(** * More of the code

    [load_data_as_dataframe] of [utils.py], and what is needed to state
    the behaviour of the tokenizer, of the constructor, of [project],
    [filter], [agg] and [join], and of the grouped aggregation beyond the
    properties of the specification. *)

(** ** Records written as text

    The texts on which the tokenizer is read back: every field is written
    either as it is, when it holds no quote, delimiter, carriage return or
    line feed, or between quotes with its quotes doubled. *)

(** A character that needs no quoting. *)
Definition plain_char (d q c : ascii) : bool :=
  negb (Ascii.eqb c q) && negb (Ascii.eqb c d)
  && negb (Ascii.eqb c CR) && negb (Ascii.eqb c LF).

Fixpoint plain (d q : ascii) (s : string) : bool :=
  match s with
  | EmptyString => true
  | String c s' => plain_char d q c && plain d q s'
  end.

(** The content of a field with every quote doubled. *)
Fixpoint escape (q : ascii) (s : string) : string :=
  match s with
  | EmptyString => EmptyString
  | String c s' =>
      if Ascii.eqb c q then String q (String q (escape q s'))
      else String c (escape q s')
  end.

(** A field to write: whether it goes between quotes, and its content. *)
Definition written_field : Type := bool * string.

Definition writable (d q : ascii) (f : written_field) : bool :=
  f.1 || plain d q f.2.

Definition write_field (q : ascii) (f : written_field) : string :=
  if f.1 then String q (escape q f.2 +:+ String q EmptyString) else f.2.

(** The fields of a record, separated by the delimiter. *)
Fixpoint write_fields (d q : ascii) (fields : list written_field) : string :=
  match fields with
  | [] => EmptyString
  | [f] => write_field q f
  | f :: fields' => write_field q f +:+ String d (write_fields d q fields')
  end.

(** Records, each followed by the terminator [t]. *)
Fixpoint write_rows (d q : ascii) (t : string) (rows : list (list written_field))
  : string :=
  match rows with
  | [] => EmptyString
  | row :: rows' => write_fields d q row +:+ t +:+ write_rows d q t rows'
  end.

(** The three terminators of the tokenizer. *)
Definition terminators : list string :=
  [String LF EmptyString; String CR (String LF EmptyString); String CR EmptyString].

(** What the tokenizer is to return for written records. *)
Definition contents (rows : list (list written_field)) : list (list string) :=
  map (map snd) rows.

(** A record that can be written and that the tokenizer keeps. *)
Definition written_row_ok (d q : ascii) (row : list written_field) : bool :=
  forallb (writable d q) row && keep_row (map snd row).

(** A text that does not begin with the character [c]. *)
Definition no_quote_ahead (c : ascii) (rest : string) : Prop :=
  match rest with
  | EmptyString => True
  | String c' _ => c' <> c
  end.

(** Records written for the examples: a quoted field holding the
    delimiter, a quote and a line feed; an empty field before a delimiter;
    a quoted empty field next to a plain one. *)
Definition written_example : list (list written_field) :=
  [[(false, "id"); (true, "a," +:+ dq +:+ "b" +:+ nl)];
   [(false, ""); (false, "x")];
   [(true, ""); (false, "y z")]].

(** ** Loading a file: [load_data_as_dataframe] of utils.py

    The file system and the codec are not part of the repository: the
    bytes that [open(path, "rb").read()] returns and the text that
    [bytes.decode("utf-8")] makes of them are parameters. *)

(** [read_csv(source, has_header=True)] from the decoded text on: the
    path through [read_csv] that returns dictionaries. *)
Definition read_csv_with_header (text : string) (delimiter quote_char : string)
  : result (list (list (string * string))) :=
  rows ← _parse_csv text delimiter quote_char;
  match rows with
  | [] => Ok []
  | header :: rest =>
      mapM_result (fun r => header_dict header (pad_or_truncate header r)) rest
  end.

(** [row[col]] on a dictionary of strings; the cell of a table is the
    string itself. *)
Definition row_getitem (row : list (string * string)) (col : string)
  : result value :=
  match PyDict.get row col with
  | Some cell => Ok (VStr cell)
  | None => Err (KeyError col)
  end.

Section Loading.
(** The bytes of the file at a path; [None] when [open] or [read] raises
    [OSError] (no such file, no permission, a directory). *)
Variable file_bytes : string -> option string.
(** [data.decode("utf-8")]; [None] when it raises [UnicodeDecodeError]. *)
Variable decode : string -> option string.

(** The head of [read_csv] for a path, which has no [read] attribute and
    is a [str]: the file is opened and read in binary mode, and the bytes,
    not being a [str], are decoded. *)
Definition read_source (source : string) : result string :=
  match file_bytes source with
  | None => Err (OSError source)
  | Some data =>
      match decode data with
      | None => Err (UnicodeDecodeError "utf-8")
      | Some text => Ok text
      end
  end.

(** Delimiter and quote are the defaults of [read_csv]. *)
Definition load_data_as_dataframe (csv_path : string) : result DataFrame.t :=
  text ← read_source csv_path;
  rows ← read_csv_with_header text "," dq;
  match rows with
  | [] => DataFrame.new []
  | first :: _ =>
      let columns := PyDict.keys first in
      data ← foldM (fun data col =>
                      cells ← mapM_result (fun row => row_getitem row col) rows;
                      mret (PyDict.set data col cells))
                   columns [];
      DataFrame.new data
  end.
End Loading.

(** A file of three records under a header that repeats a name. *)
Definition load_example : string :=
  String.concat "" ["a,b,a"; nl; "1,2,3"; nl; "4"; nl; "5,6,7,8"; nl].

(** A file system that holds one file, and the decoding of bytes that
    are all ASCII, which is the text itself. *)
Definition one_file (path content : string) : string -> option string :=
  fun p => if String.eqb p path then Some content else None.

Definition decode_ascii (data : string) : option string :=
  if forallb (fun c => Nat.ltb (nat_of_ascii c) 128) (list_ascii_of_string data)
  then Some data else None.

(** ** The columns of an aggregation *)

(** The names under which [agg] stores its values, in the order in which
    it computes them. *)
Definition result_keys (aggregations : list (string * DataFrame.agg_arg))
  : list string :=
  concat (map (fun '(col, funcs) =>
                 map (DataFrame.result_key col (DataFrame.funcs_of funcs))
                     (DataFrame.funcs_of funcs))
              aggregations).

(** A table of two numeric columns. *)
Definition scores : DataFrame.t :=
  DataFrame.mk [("Age", [VInt 30; VInt 25; VInt 41]);
                ("Height", [VInt 180; VInt 165; VInt 172])] 3.

(** A table with a column and no row: [DataFrame({'Age': []})]. *)
Definition no_rows : DataFrame.t := DataFrame.mk [("Age", [])] 0.

(** The names [_apply_aggregation] knows. *)
Definition aggregator_names : list string :=
  ["sum"; "mean"; "min"; "max"; "count"; "std"; "var"].

(** The aggregators that return 0 for a column without values. *)
Definition zero_on_empty : list string := ["sum"; "mean"; "count"; "std"; "var"].

(** ** The rows of a right join *)

Section RightJoinRows.
Variables (self other : DataFrame.t) (on : list string)
          (suffixes : string * string) (left_order right_order : list string).

(** The left rows that have the key of right row [j], in row order. *)
Definition left_matches_of (j : nat) : list nat :=
  List.filter (fun i => bool_decide (DataFrame.row_key self on i =
                                     DataFrame.row_key other on j))
              (seq 0 (DataFrame.len self)).

(** Right join: every right row in turn, with each left row that has its
    key, or alone when none has. *)
Definition right_rows : list (list (string * value)) :=
  concat (map (fun j => match left_matches_of j with
                        | [] => [right_only_row self other on suffixes left_order right_order j]
                        | ms => map (fun i => paired_row self other on suffixes
                            left_order right_order i j) ms
                        end)
              (seq 0 (DataFrame.len other))).
End RightJoinRows.

(** The four kinds of join. *)
Definition join_kinds : list string := ["inner"; "left"; "right"; "outer"].

(** Two tables with two non-key columns each. *)
Definition wide_left_example : DataFrame.t :=
  DataFrame.mk [("id", [VInt 1; VInt 2]);
                ("a", [VStr "p"; VStr "q"]);
                ("b", [VStr "r"; VStr "s"])] 2.

Definition wide_right_example : DataFrame.t :=
  DataFrame.mk [("id", [VInt 2; VInt 3]);
                ("c", [VStr "t"; VStr "u"]);
                ("d", [VStr "v"; VStr "w"])] 2.

(** ** The rows of a grouped aggregation *)

(** The cells of column [x] in the rows that have the key, in row order. *)
Definition group_values (df : DataFrame.t) (cols : list string) (x : string)
    (key : list value) : list value :=
  map (fun i => DataFrame.cell df x i)
      (List.filter (fun i => bool_decide (DataFrame.row_key df cols i = key))
                   (seq 0 (DataFrame.len df))).

(** The row of a group: the group columns with the values of the key, then
    the aggregated value under the name of the aggregated column. *)
Definition agg_row (cols : list string) (x : string) (key : list value)
    (v : value) : list (string * value) :=
  zip cols key ++ [(x, v)].

(** A table without rows and without columns. *)
Definition empty_table : DataFrame.t := DataFrame.mk [] 0.
(** * Properties *)

(** ** The tokenizer *)

Section Scanner.
Variables delimiter quote_char : string.

Lemma scan_terminator ch rest rows row field_chars :
  is_char ch quote_char = false ->
  is_char ch delimiter = false ->
  is_terminator ch = true ->
  scan delimiter quote_char (String ch rest) rows row field_chars false =
  scan delimiter quote_char (after_terminator ch rest)
       (if keep_row (row ++ [join_chars field_chars])
        then rows ++ [row ++ [join_chars field_chars]] else rows)
       [] [] false.
Proof.
  intros Hq Hd Ht. unfold is_terminator in Ht. cbn [scan].
  rewrite Hq, Hd, Ht. unfold after_terminator.
  destruct rest as [|nxt rest']; [reflexivity|].
  destruct (Ascii.eqb ch CR && Ascii.eqb nxt LF); reflexivity.
Qed.

Lemma keep_row_single cell : keep_row [cell] = negb (String.eqb cell "").
Proof. unfold keep_row. cbn. rewrite !orb_false_r. reflexivity. Qed.

Lemma keep_row_many (row : list string) : 1 < length row -> keep_row row = true.
Proof.
  intros H. unfold keep_row. apply orb_true_iff. right.
  apply Nat.ltb_lt. exact H.
Qed.

Lemma keep_row_spec (row : list string) :
  row <> [] -> (keep_row row = false <-> row = [""]).
Proof.
  intros Hne. destruct row as [|c [|c' row']]; [done| |].
  - rewrite keep_row_single. destruct (String.eqb_spec c ""); cbn.
    + subst. tauto.
    + split; [discriminate|]. intros [= ->]. done.
  - rewrite keep_row_many by (cbn; lia). split; discriminate.
Qed.

Lemma join_chars_nonempty fc : fc <> [] -> join_chars fc <> "".
Proof. destruct fc; [done|]. intros _. cbn. discriminate. Qed.

Lemma finalize_emitted rows row fc q out :
  Forall emitted rows ->
  finalize rows row fc q = Ok out -> Forall emitted out.
Proof.
  intros Hrows. unfold finalize. destruct q; [discriminate|].
  destruct (negb (bool_decide (fc = [])) || negb (bool_decide (row = []))) eqn:E.
  - intros [= <-]. apply Forall_app. split; [exact Hrows|].
    constructor; [|constructor]. split.
    + destruct row; discriminate.
    + apply orb_true_iff in E as [E|E]; apply negb_true_iff, bool_decide_eq_false in E.
      * destruct row as [|c row]; cbn.
        -- intros [= Hj]. by apply join_chars_nonempty in E.
        -- destruct row; discriminate.
      * destruct row as [|c row]; [done|]. destruct row; discriminate.
  - intros [= <-]. exact Hrows.
Qed.

Lemma finalize_prefix rows row fc q out :
  finalize rows row fc q = Ok out -> exists more, out = rows ++ more.
Proof.
  unfold finalize. destruct q; [discriminate|].
  destruct (_ || _).
  - intros [= <-]. eauto.
  - intros [= <-]. exists []. by rewrite app_nil_r.
Qed.

(** Every property of the scanner below is proved by induction on a
    bound of the length of the text, the scanner moving by one or by two
    characters. *)
Lemma scan_invariant (P : list (list string) -> Prop)
    (Q : list (list string) -> Prop) :
  (forall rows row fc q out, P rows -> finalize rows row fc q = Ok out -> Q out) ->
  (forall rows row, P rows -> P (rows ++ [row]) \/ keep_row row = false) ->
  forall n text rows row fc q out,
    String.length text <= n ->
    P rows ->
    scan delimiter quote_char text rows row fc q = Ok out -> Q out.
Proof.
  intros Hfin Hstep. induction n as [|n IH]; intros text rows row fc q out Hlen HP.
  - destruct text; [|cbn in Hlen; lia]. cbn. by apply Hfin.
  - destruct text as [|ch rest]; [cbn; by apply Hfin|].
    cbn in Hlen. cbn [scan].
    assert (Hrest : String.length rest <= n) by lia.
    assert (Hrest' : forall nxt rest', rest = String nxt rest' ->
                                       String.length rest' <= n).
    { intros nxt rest' ->. cbn in Hrest. lia. }
    destruct q.
    + destruct (is_char ch quote_char).
      * destruct rest as [|nxt rest'].
        -- by apply IH.
        -- destruct (is_char nxt quote_char); apply IH; eauto.
      * by apply IH.
    + destruct (is_char ch quote_char).
      { destruct (negb (bool_decide (fc = []))); [discriminate|]. by apply IH. }
      destruct (is_char ch delimiter); [by apply IH|].
      destruct (Ascii.eqb ch CR || Ascii.eqb ch LF); [|by apply IH].
      cbn zeta.
      assert (HP' : P (if keep_row (row ++ [join_chars fc])
                       then rows ++ [row ++ [join_chars fc]] else rows)).
      { destruct (keep_row (row ++ [join_chars fc])) eqn:E; [|exact HP].
        destruct (Hstep rows (row ++ [join_chars fc]) HP) as [H|H]; [exact H|].
        congruence. }
      destruct rest as [|nxt rest'].
      * by apply IH.
      * destruct (Ascii.eqb ch CR && Ascii.eqb nxt LF); apply IH; eauto.
Qed.

Lemma scan_emitted text rows row fc q out :
  Forall emitted rows ->
  scan delimiter quote_char text rows row fc q = Ok out -> Forall emitted out.
Proof.
  intros Hrows Hscan.
  apply (scan_invariant (Forall emitted) (Forall emitted)) with
    (n := String.length text) (text := text) (rows := rows) (row := row)
    (fc := fc) (q := q); [| |lia|exact Hrows|exact Hscan].
  { intros; by eapply finalize_emitted. }
  intros rs r Hrs. destruct (keep_row r) eqn:E; [left|by right].
  apply Forall_app. split; [exact Hrs|]. constructor; [|constructor].
  split.
  - intros ->. discriminate.
  - intros ->. discriminate.
Qed.

Lemma scan_prefix text rows row fc q out :
  scan delimiter quote_char text rows row fc q = Ok out ->
  exists more, out = rows ++ more.
Proof.
  intros Hscan.
  apply (scan_invariant (fun rs => exists more, rs = rows ++ more)
                        (fun rs => exists more, rs = rows ++ more)) with
    (n := String.length text) (text := text) (rows := rows) (row := row)
    (fc := fc) (q := q); [| |lia| |exact Hscan].
  - intros rs r fc' q' out' [more ->] Hfin.
    apply finalize_prefix in Hfin as [more' ->].
    exists (more ++ more'). by rewrite app_assoc.
  - intros rs r [more ->]. left. exists (more ++ [r]). by rewrite app_assoc.
  - exists []. by rewrite app_nil_r.
Qed.
End Scanner.

(** C6: the tokenizer never emits a record that is a single empty field,
    so a blank line leaves no record; at a line terminator (and at the end
    of the input) a record with more than one field is emitted whatever its
    fields hold, and stays in the output. *)
Theorem blank_line_dropped_longer_rows_kept :
  (forall text delimiter quote_char rows,
      _parse_csv text delimiter quote_char = Ok rows -> Forall emitted rows)
  /\ (forall delimiter quote_char ch rest rows,
        is_char ch quote_char = false -> is_char ch delimiter = false ->
        is_terminator ch = true ->
        scan delimiter quote_char (String ch rest) rows [] [] false =
        scan delimiter quote_char (after_terminator ch rest) rows [] [] false)
  /\ (forall delimiter quote_char ch rest rows row field_chars,
        is_char ch quote_char = false -> is_char ch delimiter = false ->
        is_terminator ch = true -> 1 < length (row ++ [join_chars field_chars]) ->
        scan delimiter quote_char (String ch rest) rows row field_chars false =
        scan delimiter quote_char (after_terminator ch rest)
             (rows ++ [row ++ [join_chars field_chars]]) [] [] false)
  /\ (forall delimiter quote_char text rows row field_chars out,
        1 < length (row ++ [join_chars field_chars]) ->
        scan delimiter quote_char text
             (rows ++ [row ++ [join_chars field_chars]]) [] [] false = Ok out ->
        exists more, out = rows ++ [row ++ [join_chars field_chars]] ++ more)
  /\ (forall rows row field_chars,
        1 < length (row ++ [join_chars field_chars]) ->
        finalize rows row field_chars false =
        Ok (rows ++ [row ++ [join_chars field_chars]]))
  /\ _parse_csv blank_lines_example "," dq =
     Ok [["a"; "b"]; [""; ""]; ["x"]; ["c"; "d"; "e"]].
Proof.
  repeat apply conj.
  - intros text d q rows H. unfold _parse_csv in H.
    eapply scan_emitted; [|exact H]. constructor.
  - intros d q ch rest rows Hq Hd Ht.
    rewrite scan_terminator by assumption. reflexivity.
  - intros d q ch rest rows row fc Hq Hd Ht Hlen.
    rewrite scan_terminator by assumption.
    by rewrite keep_row_many.
  - intros d q text rows row fc out Hlen Hscan.
    apply scan_prefix in Hscan as [more ->].
    exists more. by rewrite <- app_assoc.
  - intros rows row fc Hlen. unfold finalize.
    destruct row as [|c row]; [cbn in Hlen; lia|].
    cbn. by rewrite orb_true_r.
  - vm_compute. reflexivity.
Qed.

Lemma blank_line_dropped_longer_rows_kept_witness :
  Forall emitted [["a"; "b"]; [""; ""]; ["x"]; ["c"; "d"; "e"]]
  /\ scan "," dq (String LF ",") [["a"]] [] [] false =
     scan "," dq "," [["a"]] [] [] false
  /\ scan "," dq (String CR (String LF "x")) [["a"]] [""] [] false =
     scan "," dq "x" ([["a"]] ++ [[""] ++ [join_chars []]]) [] [] false
  /\ (exists more, [["a"]; [""; ""]; ["x"]] = [["a"]] ++ [[""] ++ [join_chars []]] ++ more)
  /\ finalize [["a"]] [""] [] false = Ok ([["a"]] ++ [[""] ++ [join_chars []]]).
Proof.
  destruct blank_line_dropped_longer_rows_kept as (H1 & H2 & H3 & H4 & H5 & H6).
  split; [|split; [|split; [|split]]].
  - apply (H1 blank_lines_example "," dq). exact H6.
  - apply (H2 "," dq LF "," [["a"]]); reflexivity.
  - apply (H3 "," dq CR (String LF "x") [["a"]] [""] []);
      [reflexivity|reflexivity|reflexivity|cbn; lia].
  - apply (H4 "," dq "x" [["a"]] [""] [] [["a"]; [""; ""]; ["x"]]);
      [cbn; lia|vm_compute; reflexivity].
  - apply (H5 [["a"]] [""] []). cbn; lia.
Defined.

(** C7: inside a quoted span a quote followed by a quote adds one literal
    quote to the field and the scanner stays in the quoted state; a quote
    followed by anything else, or by the end of the text, ends the quoted
    span; the example of the specification parses to its three records with
    the doubled quotes unescaped. *)
Theorem doubled_quote_is_literal_quote :
  (forall delimiter quote_char ch nxt rest rows row field_chars,
      is_char ch quote_char = true -> is_char nxt quote_char = true ->
      scan delimiter quote_char (String ch (String nxt rest)) rows row field_chars true =
      scan delimiter quote_char rest rows row (field_chars ++ [ch]) true)
  /\ (forall delimiter quote_char ch rest rows row field_chars,
        is_char ch quote_char = true ->
        (forall nxt rest', rest = String nxt rest' -> is_char nxt quote_char = false) ->
        scan delimiter quote_char (String ch rest) rows row field_chars true =
        scan delimiter quote_char rest rows row field_chars false)
  /\ _parse_csv csv_example "," dq =
     Ok [["Name"; "Age"]; ["Smith, John"; "30"];
         [String.concat "" ["Doe, "; dq; "Jay"; dq]; "25"]].
Proof.
  repeat apply conj.
  - intros d q ch nxt rest rows row fc Hch Hnxt. cbn [scan].
    by rewrite Hch, Hnxt.
  - intros d q ch rest rows row fc Hch Hrest. cbn [scan]. rewrite Hch.
    destruct rest as [|nxt rest']; [reflexivity|].
    by rewrite (Hrest nxt rest' eq_refl).
  - vm_compute. reflexivity.
Qed.

Lemma doubled_quote_is_literal_quote_witness :
  scan "," dq (String DQUOTE (String DQUOTE "b")) [] [] ["a"%char] true =
  scan "," dq "b" [] [] (["a"%char] ++ [DQUOTE]) true
  /\ scan "," dq (String DQUOTE ",b") [] [] ["a"%char] true =
     scan "," dq ",b" [] [] ["a"%char] false.
Proof.
  destruct doubled_quote_is_literal_quote as (H1 & H2 & _).
  split.
  - apply (H1 "," dq DQUOTE DQUOTE "b" [] [] ["a"%char]); reflexivity.
  - apply (H2 "," dq DQUOTE ",b" [] [] ["a"%char]); [reflexivity|].
    intros nxt rest' [= <- <-]. reflexivity.
Defined.

(** ** Dictionaries *)

Section DictFacts.
Context {K V : Type} `{EqDecision K}.
Implicit Types (d : list (K * V)) (k : K) (v : V).

Lemma get_set_eq d k v : PyDict.get (PyDict.set d k v) k = Some v.
Proof.
  induction d as [|[k' v'] d IH]; cbn.
  - by rewrite decide_True.
  - destruct (decide (k' = k)) as [->|Hne]; cbn.
    + by rewrite decide_True.
    + by rewrite decide_False.
Qed.

Lemma get_set_ne d k k' v :
  k <> k' -> PyDict.get (PyDict.set d k v) k' = PyDict.get d k'.
Proof.
  intros Hne. induction d as [|[k0 v0] d IH]; cbn.
  - by rewrite decide_False.
  - destruct (decide (k0 = k)) as [->|Hne0]; cbn.
    + by rewrite !decide_False.
    + destruct (decide (k0 = k')); [done|exact IH].
Qed.

Lemma set_fresh d k v : k ∉ PyDict.keys d -> PyDict.set d k v = d ++ [(k, v)].
Proof.
  induction d as [|[k' v'] d IH]; cbn; [done|].
  intros Hnotin. apply not_elem_of_cons in Hnotin as [Hne Hnotin].
  rewrite decide_False by done. by rewrite IH.
Qed.

Lemma keys_set_subseteq d k v : PyDict.keys (PyDict.set d k v) ⊆ k :: PyDict.keys d.
Proof.
  induction d as [|[k' v'] d IH]; cbn.
  - set_solver.
  - destruct (decide (k' = k)) as [->|Hne]; cbn; set_solver.
Qed.

(** A run of assignments [d[k] = v]. *)
Definition set_all (kvs : list (K * V)) d : list (K * V) :=
  fold_left (fun d kv => PyDict.set d kv.1 kv.2) kvs d.

Lemma set_all_get_other kvs d k :
  k ∉ kvs.*1 -> PyDict.get (set_all kvs d) k = PyDict.get d k.
Proof.
  revert d. induction kvs as [|[k' v'] kvs IH]; intros d Hnotin; [done|].
  cbn in *. apply not_elem_of_cons in Hnotin as [Hne Hnotin].
  unfold set_all in *. cbn. rewrite IH by done. by apply get_set_ne.
Qed.

(** The last assignment to a key is the one that is read back. *)
Lemma set_all_get_last kvs1 kvs2 d k v :
  k ∉ kvs2.*1 -> PyDict.get (set_all (kvs1 ++ (k, v) :: kvs2) d) k = Some v.
Proof.
  intros Hnotin. unfold set_all. rewrite fold_left_app. cbn.
  fold (set_all kvs2 (PyDict.set (fold_left (fun d kv => PyDict.set d kv.1 kv.2) kvs1 d) k v)).
  rewrite set_all_get_other by done. apply get_set_eq.
Qed.

Lemma set_all_fresh kvs d :
  NoDup (PyDict.keys d ++ kvs.*1) -> set_all kvs d = d ++ kvs.
Proof.
  revert d. induction kvs as [|[k v] kvs IH]; intros d Hnd; cbn.
  - by rewrite app_nil_r.
  - cbn in Hnd. unfold set_all in *. cbn.
    rewrite set_fresh.
    + rewrite IH.
      * by rewrite <- app_assoc.
      * unfold PyDict.keys in *. rewrite map_app. cbn.
        by rewrite <- app_assoc.
    + apply NoDup_app in Hnd as (_ & Hdisj & _).
      intros Hin. apply (Hdisj k Hin). constructor.
Qed.

Lemma set_all_keys_subseteq kvs d :
  PyDict.keys (set_all kvs d) ⊆ PyDict.keys d ++ kvs.*1.
Proof.
  revert d. induction kvs as [|[k v] kvs IH]; intros d; cbn.
  - set_solver.
  - unfold set_all in *. cbn. etrans; [apply IH|].
    pose proof (keys_set_subseteq d k v). set_solver.
Qed.
End DictFacts.

(** ** Loops that may raise *)

Lemma foldM_ok {A B} (f : A -> B -> result A) (g : A -> B -> A) (l : list B) (a : A) :
  (forall a x, x ∈ l -> f a x = Ok (g a x)) ->
  foldM f l a = Ok (fold_left g l a).
Proof.
  revert a. induction l as [|x l IH]; intros a Hfg; cbn; [done|].
  rewrite Hfg by left. cbn. apply IH. intros a' x' Hin. apply Hfg. by right.
Qed.

Lemma mapM_result_ok {A B} (f : A -> result B) (g : A -> B) (l : list A) :
  (forall x, x ∈ l -> f x = Ok (g x)) -> mapM_result f l = Ok (map g l).
Proof.
  induction l as [|x l IH]; intros Hfg; cbn; [done|].
  rewrite Hfg by left. cbn. rewrite IH; [done|].
  intros x' Hin. apply Hfg. by right.
Qed.

(** ** Header handling *)

Lemma pad_or_truncate_length header r :
  length (pad_or_truncate header r) = length header.
Proof.
  unfold pad_or_truncate. destruct (length r <? length header) eqn:E.
  - apply Nat.ltb_lt in E. rewrite length_app, length_replicate. lia.
  - apply Nat.ltb_ge in E. rewrite length_take. lia.
Qed.

(** The field at a position of the header: the field of the row at that
    position, or the empty string when the row is too short. *)
Lemma pad_or_truncate_lookup header r i :
  i < length header ->
  pad_or_truncate header r !! i = Some (default "" (r !! i)).
Proof.
  intros Hi. unfold pad_or_truncate. destruct (length r <? length header) eqn:E.
  - apply Nat.ltb_lt in E. destruct (decide (i < length r)) as [Hlt|Hge].
    + rewrite lookup_app_l by done.
      destruct (lookup_lt_is_Some_2 r i Hlt) as [x Hx]. by rewrite Hx.
    + rewrite lookup_app_r by lia. rewrite lookup_replicate_2 by lia.
      rewrite (lookup_ge_None_2 r i) by lia. done.
  - apply Nat.ltb_ge in E. rewrite lookup_take_lt by done.
    destruct (lookup_lt_is_Some_2 r i) as [x Hx]; [lia|]. by rewrite Hx.
Qed.

Lemma nth_lookup_default {A} (l : list A) i (x : A) :
  nth i l x = default x (l !! i).
Proof.
  revert i. induction l as [|y l IH]; intros [|i]; cbn; auto.
Qed.

Lemma fold_left_fmap {A B C} (f : A -> B -> A) (g : C -> B) (l : list C) (a : A) :
  fold_left f (map g l) a = fold_left (fun a x => f a (g x)) l a.
Proof. revert a. induction l as [|x l IH]; intros a; cbn; [done|apply IH]. Qed.

Lemma fold_left_ext {A B} (f g : A -> B -> A) (l : list B) (a : A) :
  (forall a x, x ∈ l -> f a x = g a x) -> fold_left f l a = fold_left g l a.
Proof.
  revert a. induction l as [|x l IH]; intros a Hfg; cbn; [done|].
  rewrite Hfg by left. apply IH. intros a' x' Hin. apply Hfg. by right.
Qed.

Lemma list_getitem_nth {A} (l : list A) i (dflt : A) :
  i < length l -> list_getitem l i = Ok (nth i l dflt).
Proof.
  intros Hi. unfold list_getitem.
  destruct (lookup_lt_is_Some_2 l i Hi) as [x Hx].
  by rewrite Hx, nth_lookup_default, Hx.
Qed.

(** With a list at least as long as the header no index is out of range:
    [header_dict] returns the dictionary of its assignments. *)
Lemma header_dict_ok header padded :
  length header <= length padded ->
  header_dict header padded =
  Ok (fold_left (fun d i => PyDict.set d (nth i header "") (nth i padded ""))
                (seq 0 (length header)) []).
Proof.
  intros Hlen. unfold header_dict. apply foldM_ok.
  intros d i Hi%elem_of_seq.
  rewrite (list_getitem_nth header i "") by lia. cbn [mbind result_bind].
  by rewrite (list_getitem_nth padded i "") by lia.
Qed.

(** With a shorter list the first missing index raises [IndexError]. *)
Lemma header_dict_short header padded :
  length padded < length header ->
  header_dict header padded = Err (IndexError "list index out of range").
Proof.
  intros Hlen. unfold header_dict.
  assert (Hsplit : seq 0 (length header) =
                   seq 0 (length padded) ++ length padded
                     :: seq (S (length padded)) (length header - S (length padded))).
  { replace (length header)
      with (length padded + S (length header - S (length padded))) at 1 by lia.
    rewrite seq_app. cbn [seq Nat.add]. done. }
  rewrite Hsplit.
  assert (Hgen : forall l d,
    (forall i, i ∈ l -> i < length padded) ->
    foldM (fun d i => k ← list_getitem header i;
                      v ← list_getitem padded i;
                      mret (PyDict.set d k v))
          (l ++ length padded
             :: seq (S (length padded)) (length header - S (length padded))) d
    = Err (IndexError "list index out of range")).
  { induction l as [|i l IH]; intros d Hl.
    - cbn [app foldM]. rewrite (list_getitem_nth header _ "") by lia.
      cbn [mbind result_bind]. unfold list_getitem.
      by rewrite lookup_ge_None_2 by lia.
    - cbn [app foldM].
      assert (Hi : i < length padded) by (apply Hl; left).
      rewrite (list_getitem_nth header i "") by lia. cbn [mbind result_bind].
      rewrite (list_getitem_nth padded i "") by lia.
      cbn [mbind result_bind mret result_ret]. apply IH.
      intros j Hj. apply Hl. by right. }
  apply Hgen. intros i Hi%elem_of_seq. lia.
Qed.

Lemma header_dict_zip header padded :
  length padded = length header ->
  header_dict header padded = Ok (set_all (zip header padded) []).
Proof.
  intros Hlen. rewrite header_dict_ok by lia. f_equal. unfold set_all.
  assert (Hzip : zip header padded =
                 map (fun i => (nth i header "", nth i padded "")) (seq 0 (length header))).
  { clear -Hlen. revert padded Hlen.
    induction header as [|h header IH]; intros [|p padded] Hlen; try done.
    cbn in Hlen. cbn [zip zip_with length seq map nth]. f_equal.
    rewrite <- seq_shift, map_map. apply IH. lia. }
  rewrite Hzip. by rewrite fold_left_fmap.
Qed.

Lemma set_all_zip_get (header padded : list string) i name :
  length padded = length header ->
  header !! i = Some name ->
  (forall j, i < j -> header !! j <> Some name) ->
  PyDict.get (set_all (zip header padded) []) name = Some (default "" (padded !! i)).
Proof.
  intros Hlen Hi Hlast.
  assert (Hip : is_Some (padded !! i)).
  { apply lookup_lt_is_Some. rewrite Hlen. by eapply lookup_lt_Some. }
  destruct Hip as [p Hp]. rewrite Hp. cbn.
  assert (Hz : zip header padded !! i = Some (name, p)).
  { rewrite lookup_zip_with, Hi. cbn. by rewrite Hp. }
  apply list_elem_of_split_length in Hz as (kvs1 & kvs2 & Heq & Hlen1).
  rewrite Heq. apply set_all_get_last.
  intros Hin. apply list_elem_of_fmap in Hin as ([k' v'] & Hk & Hin). cbn in Hk. subst k'.
  apply list_elem_of_lookup in Hin as [j Hj].
  assert (Hzj : zip header padded !! (S (i + j)) = Some (name, v')).
  { rewrite Heq, Hlen1. rewrite lookup_app_r by lia.
    replace (S (length kvs1 + j) - length kvs1) with (S j) by lia. done. }
  rewrite lookup_zip_with in Hzj.
  destruct (header !! S (i + j)) as [h|] eqn:Hh; [|done]. cbn in Hzj.
  destruct (padded !! S (i + j)); [|done]. cbn in Hzj.
  injection Hzj as -> _. apply (Hlast (S (i + j))); [lia|done].
Qed.

Lemma header_dict_get header padded d i name :
  length padded = length header ->
  header_dict header padded = Ok d ->
  header !! i = Some name ->
  (forall j, i < j -> header !! j <> Some name) ->
  PyDict.get d name = Some (default "" (padded !! i)).
Proof.
  intros Hlen Hd Hi Hlast. rewrite header_dict_zip in Hd by done.
  injection Hd as <-. by apply set_all_zip_get.
Qed.

Lemma header_dict_unique header padded :
  length padded = length header -> NoDup header ->
  header_dict header padded = Ok (zip header padded).
Proof.
  intros Hlen Hnd. rewrite header_dict_zip by done. f_equal.
  rewrite set_all_fresh; [done|]. cbn. rewrite fst_zip by lia. done.
Qed.

Lemma header_dict_keys header padded d :
  length padded = length header ->
  header_dict header padded = Ok d ->
  PyDict.keys d ⊆ header.
Proof.
  intros Hlen Hd. rewrite header_dict_zip in Hd by done. injection Hd as <-.
  etrans; [apply set_all_keys_subseteq|]. cbn. by rewrite fst_zip by lia.
Qed.

(** What [read_csv] returns under a header: the dictionary of every
    record after it has been padded or truncated. *)
Lemma read_csv_header_ok text delimiter quote_char header rest :
  _parse_csv text delimiter quote_char = Ok (header :: rest) ->
  read_csv text delimiter quote_char true =
  Ok (DictRows (map (fun r => set_all (zip header (pad_or_truncate header r)) [])
                    rest)).
Proof.
  intros Hparse. unfold read_csv. rewrite Hparse. cbn [mbind result_bind negb].
  rewrite (mapM_result_ok _
             (fun r => set_all (zip header (pad_or_truncate header r)) [])).
  - done.
  - intros r _. apply header_dict_zip, pad_or_truncate_length.
Qed.

(** C9: with a header, the first record gives the column names and each
    later record becomes a dictionary keyed by them: the name at position
    [i] of the header is bound to field [i] of the record, or to the empty
    string when the record has no field [i]; fields beyond the header are
    not bound to any name; no exception is raised for either.  The padding
    is what keeps a short record from raising: the dictionary of the record
    as it is would raise IndexError. *)
Theorem header_rows_padded_and_truncated
    (text delimiter quote_char : string) (header : list string)
    (rest : list (list string)) :
  _parse_csv text delimiter quote_char = Ok (header :: rest) ->
  exists dict_rows,
    read_csv text delimiter quote_char true = Ok (DictRows dict_rows)
    /\ length dict_rows = length rest
    /\ forall k r, rest !! k = Some r ->
       exists d,
         dict_rows !! k = Some d
         /\ header_dict header (pad_or_truncate header r) = Ok d
         /\ length (pad_or_truncate header r) = length header
         /\ (length r < length header ->
             pad_or_truncate header r = r ++ replicate (length header - length r) ""
             /\ header_dict header r = Err (IndexError "list index out of range"))
         /\ (length header <= length r ->
             pad_or_truncate header r = take (length header) r)
         /\ PyDict.keys d ⊆ header
         /\ (NoDup header -> d = zip header (pad_or_truncate header r))
         /\ forall i name,
              header !! i = Some name ->
              (forall j, i < j -> header !! j <> Some name) ->
              PyDict.get d name = Some (default "" (r !! i)).
Proof.
  intros Hparse.
  exists (map (fun r => set_all (zip header (pad_or_truncate header r)) []) rest).
  split; [|split].
  - by apply read_csv_header_ok.
  - by rewrite length_map.
  - intros k r Hk. exists (set_all (zip header (pad_or_truncate header r)) []).
    pose proof (pad_or_truncate_length header r) as Hlen.
    pose proof (header_dict_zip header _ Hlen) as Hd.
    repeat apply conj.
    + change (map ?f ?l) with (f <$> l). by rewrite list_lookup_fmap, Hk.
    + exact Hd.
    + exact Hlen.
    + intros Hlt. split; [|by apply header_dict_short].
      unfold pad_or_truncate. by rewrite (proj2 (Nat.ltb_lt _ _) Hlt).
    + intros Hge. unfold pad_or_truncate.
      by rewrite (proj2 (Nat.ltb_ge _ _) Hge).
    + by apply (header_dict_keys header (pad_or_truncate header r)).
    + intros Hnd. rewrite header_dict_unique in Hd by done. congruence.
    + intros i name Hi Hlast.
      rewrite (header_dict_get header _ _ i name Hlen Hd Hi Hlast).
      rewrite pad_or_truncate_lookup; [done|]. by eapply lookup_lt_Some.
Qed.

Lemma header_rows_padded_and_truncated_witness :
  exists dict_rows,
    read_csv blank_lines_example "," dq true = Ok (DictRows dict_rows)
    /\ length dict_rows = 3
    /\ (exists d, dict_rows !! 1 = Some d /\ PyDict.get d "b" = Some "")
    /\ (exists d, dict_rows !! 2 = Some d /\ d = [("a", "c"); ("b", "d")])
    /\ header_dict ["a"; "b"] ["x"] = Err (IndexError "list index out of range").
Proof.
  destruct (header_rows_padded_and_truncated blank_lines_example "," dq
              ["a"; "b"] [[""; ""]; ["x"]; ["c"; "d"; "e"]])
    as (dict_rows & Hread & Hlen & Hrows).
  { vm_compute. reflexivity. }
  exists dict_rows. split; [exact Hread|]. split; [exact Hlen|].
  destruct (Hrows 1 ["x"] eq_refl)
    as (d1 & Hd1 & _ & _ & Hshort & _ & _ & _ & Hget).
  destruct (Hrows 2 ["c"; "d"; "e"] eq_refl)
    as (d2 & Hd2 & _ & _ & _ & Htrunc & _ & Hzip & _).
  split; [|split].
  - exists d1. split; [exact Hd1|].
    apply (Hget 1 "b" eq_refl).
    intros j Hj. destruct j as [|[|j]]; [lia|lia|discriminate].
  - exists d2. split; [exact Hd2|].
    rewrite Hzip.
    + rewrite Htrunc; [reflexivity|cbn; lia].
    + repeat constructor; set_solver.
  - apply Hshort. cbn. lia.
Defined.

(** ** [defaultdict(list)] *)

Section DefaultDictFacts.
Context {K A : Type} `{EqDecision K}.
Implicit Types (d : list (K * list A)) (k : K) (x : A).

Lemma get_list_append d k k' x :
  PyDict.get_list (PyDict.append d k x) k' =
  if decide (k = k') then PyDict.get_list d k ++ [x] else PyDict.get_list d k'.
Proof.
  unfold PyDict.get_list. induction d as [|[k0 xs] d IH]; cbn.
  - destruct (decide (k = k')); done.
  - destruct (decide (k0 = k)) as [->|Hne]; cbn.
    + destruct (decide (k = k')); done.
    + destruct (decide (k0 = k')) as [->|Hne'].
      * by rewrite decide_False by done.
      * exact IH.
Qed.

Lemma append_fresh d k x :
  k ∉ PyDict.keys d -> PyDict.append d k x = d ++ [(k, [x])].
Proof.
  induction d as [|[k' xs] d IH]; cbn; [done|].
  intros Hnotin. apply not_elem_of_cons in Hnotin as [Hne Hnotin].
  rewrite decide_False by done. by rewrite IH.
Qed.

Lemma append_present d1 d2 k xs x :
  k ∉ PyDict.keys d1 ->
  PyDict.append (d1 ++ (k, xs) :: d2) k x = d1 ++ (k, xs ++ [x]) :: d2.
Proof.
  induction d1 as [|[k' xs'] d1 IH]; cbn.
  - intros _. by rewrite decide_True.
  - intros Hnotin. apply not_elem_of_cons in Hnotin as [Hne Hnotin].
    rewrite decide_False by done. by rewrite IH.
Qed.

(** The index built by appending each element of [l] under its key:
    the elements of a key, in the order of [l]. *)
Lemma get_list_index {B} (f : B -> K) (g : B -> A) (l : list B) d k :
  PyDict.get_list (fold_left (fun d i => PyDict.append d (f i) (g i)) l d) k =
  PyDict.get_list d k ++ map g (List.filter (fun i => bool_decide (f i = k)) l).
Proof.
  revert d. induction l as [|i l IH]; intros d; cbn [fold_left List.filter].
  - cbn. by rewrite app_nil_r.
  - rewrite IH, get_list_append.
    destruct (decide (f i = k)) as [Heq|Hne].
    + rewrite bool_decide_eq_true_2 by done. cbn [map]. subst k.
      by rewrite <- app_assoc.
    + rewrite bool_decide_eq_false_2 by done. reflexivity.
Qed.
End DefaultDictFacts.

(** ** The constructor *)

Lemma lengths_set (n m : nat) :
  (list_to_set (replicate (S m) n) : gset nat) = {[ n ]}.
Proof.
  induction m as [|m IH]; cbn in *.
  - set_solver.
  - rewrite IH. set_solver.
Qed.

Lemma new_ok (data : list (string * list value)) (n : nat) :
  data <> [] ->
  Forall (fun c => length c.2 = n) data ->
  DataFrame.new data = Ok (DataFrame.mk data n).
Proof.
  intros Hne Hall. destruct data as [|c data]; [done|].
  unfold DataFrame.new.
  assert (Hl : forall l : list (string * list value),
             Forall (fun c => length c.2 = n) l ->
             map (fun c : string * list value => length c.2) l =
             replicate (length l) n).
  { intros l Hl. induction Hl as [|c' l' Hc _ IH]; [done|].
    cbn. by rewrite Hc, IH. }
  rewrite (Hl _ Hall). cbn [length].
  rewrite lengths_set, size_singleton. reflexivity.
Qed.

Lemma new_empty : DataFrame.new [] = Ok (DataFrame.mk [] 0).
Proof. reflexivity. Qed.

(** What the constructor returns satisfies the class invariant. *)
Lemma new_wf data df :
  NoDup (PyDict.keys data) -> DataFrame.new data = Ok df -> wf df.
Proof.
  intros Hnd. unfold DataFrame.new. destruct data as [|c data].
  - intros [= <-]. repeat split; cbn; [constructor|constructor].
  - set (lengths := map _ _).
    destruct (1 <? size (list_to_set lengths : gset nat)) eqn:E; [discriminate|].
    intros [= <-]. apply Nat.ltb_ge in E. repeat split; cbn.
    + exact Hnd.
    + apply Forall_forall. intros c' Hin.
      assert (Hin' : length c'.2 ∈ (list_to_set lengths : gset nat)).
      { apply elem_of_list_to_set. subst lengths.
        apply list_elem_of_fmap. eauto. }
      assert (Hhd : length c.2 ∈ (list_to_set lengths : gset nat)).
      { apply elem_of_list_to_set. subst lengths. cbn. left. }
      destruct (decide (length c'.2 = length c.2)) as [Heq|Hne]; [done|].
      exfalso.
      assert (Hsub : ({[ length c'.2; length c.2 ]} : gset nat) ⊆ list_to_set lengths)
        by set_solver.
      apply subseteq_size in Hsub.
      rewrite size_union in Hsub by set_solver.
      rewrite !size_singleton in Hsub. lia.
    + discriminate.
Qed.

(** ** Rows appended to a [defaultdict(list)] *)

Lemma fmap_map {A B} (f : A -> B) (l : list A) : f <$> l = map f l.
Proof. reflexivity. Qed.

Lemma get_elem_of {K V} `{EqDecision K} (d : list (K * V)) k v :
  NoDup (PyDict.keys d) -> (k, v) ∈ d -> PyDict.get d k = Some v.
Proof.
  unfold PyDict.keys. induction d as [|[k' v'] d IH]; cbn; intros Hnd Hin.
  - by apply elem_of_nil in Hin.
  - apply NoDup_cons in Hnd as [Hnotin Hnd].
    apply elem_of_cons in Hin as [[= -> ->]|Hin].
    + by rewrite decide_True.
    + rewrite decide_False; [by apply IH|].
      intros ->. apply Hnotin. rewrite <- fmap_map.
      apply list_elem_of_fmap. by exists (k, v).
Qed.

Lemma get_keyed {K V} `{EqDecision K} (f : K -> V) (ks : list K) k :
  k ∈ ks -> PyDict.get (map (fun k => (k, f k)) ks) k = Some (f k).
Proof.
  induction ks as [|k' ks IH]; cbn; intros Hin.
  - by apply elem_of_nil in Hin.
  - destruct (decide (k' = k)) as [->|Hne]; [done|].
    apply elem_of_cons in Hin as [->|Hin]; [done|]. by apply IH.
Qed.

Lemma keys_keyed {K V} (f : K -> V) (ks : list K) :
  PyDict.keys (map (fun k => (k, f k)) ks) = ks.
Proof. unfold PyDict.keys. rewrite map_map. cbn. apply map_id. Qed.

Lemma row_eta (row : list (string * value)) :
  NoDup (PyDict.keys row) ->
  map (fun k => (k, field row k)) (PyDict.keys row) = row.
Proof.
  intros Hnd. unfold PyDict.keys. rewrite map_map.
  rewrite <- (map_id row) at 2. apply map_ext_in.
  intros [k v] Hin. cbn. unfold field.
  rewrite (get_elem_of row k v); [done|done|]. by apply list_elem_of_In.
Qed.

Lemma append_cells_fresh d (row : list (string * value)) :
  NoDup (PyDict.keys d ++ PyDict.keys row) ->
  append_cells d row = d ++ map (fun kv => (kv.1, [kv.2])) row.
Proof.
  unfold PyDict.keys.
  revert d. induction row as [|[k v] row IH]; intros d Hnd; cbn.
  - by rewrite app_nil_r.
  - cbn in Hnd. unfold append_cells in *. cbn.
    rewrite append_fresh.
    + rewrite IH; [by rewrite <- app_assoc|].
      rewrite map_app. cbn. by rewrite <- app_assoc.
    + apply NoDup_app in Hnd as (_ & Hdisj & _).
      intros Hin. apply (Hdisj k Hin). constructor.
Qed.

Lemma append_cells_present pre d (row : list (string * value)) :
  NoDup (PyDict.keys pre ++ PyDict.keys d) ->
  PyDict.keys d = PyDict.keys row ->
  append_cells (pre ++ d) row =
  pre ++ zip_with (fun c kv => (c.1, c.2 ++ [kv.2])) d row.
Proof.
  unfold PyDict.keys.
  revert pre row. induction d as [|[k xs] d IH]; intros pre [|[k' v] row] Hnd Hkeys;
    try done.
  cbn in Hkeys. injection Hkeys as <- Hkeys.
  unfold append_cells in *. cbn [fold_left fst snd zip_with].
  rewrite append_present.
  - rewrite (cons_middle _ pre d), app_assoc. rewrite IH.
    + by rewrite <- app_assoc.
    + rewrite map_app. cbn. rewrite <- app_assoc. exact Hnd.
    + exact Hkeys.
  - apply NoDup_app in Hnd as (_ & Hdisj & _).
    intros Hin. apply (Hdisj k Hin). cbn. left.
Qed.

Section TableOf.
Variable names : list string.
Hypothesis names_nodup : NoDup names.

Lemma table_of_first row :
  PyDict.keys row = names -> append_cells [] row = table_of names [row].
Proof.
  intros Hkeys. rewrite append_cells_fresh by (cbn; by rewrite Hkeys).
  cbn. rewrite <- Hkeys. unfold PyDict.keys. rewrite map_map.
  apply map_ext_in.
  intros [k v] Hin. cbn. unfold field.
  rewrite (get_elem_of row k v); [done| |by apply list_elem_of_In].
  by rewrite Hkeys.
Qed.

Lemma table_of_next rows row :
  rows <> [] -> PyDict.keys row = names ->
  append_cells (table_of names rows) row = table_of names (rows ++ [row]).
Proof.
  intros Hne Hkeys. destruct rows as [|r0 rows]; [done|].
  cbn [table_of app].
  rewrite <- (app_nil_l (map _ names)).
  rewrite append_cells_present.
  - cbn [app]. apply list_eq. intros i.
    rewrite lookup_zip_with. rewrite <- !fmap_map, !list_lookup_fmap.
    destruct (names !! i) as [name|] eqn:Hname; cbn; [|done].
    assert (Hrow : exists v, row !! i = Some (name, v)).
    { assert (Hi : PyDict.keys row !! i = Some name) by (by rewrite Hkeys).
      unfold PyDict.keys in Hi. rewrite <- fmap_map, list_lookup_fmap in Hi.
      destruct (row !! i) as [[k v]|]; cbn in Hi; [|done].
      injection Hi as ->. eauto. }
    destruct Hrow as [v Hrow]. rewrite Hrow. cbn.
    do 3 f_equal. rewrite map_app. cbn. f_equal. f_equal.
    unfold field. rewrite (get_elem_of row name v); [done| |].
    + by rewrite Hkeys.
    + by eapply list_elem_of_lookup_2.
  - cbn. by rewrite keys_keyed.
  - by rewrite keys_keyed.
Qed.

Lemma append_rows_table_next rows0 rows :
  rows0 <> [] -> Forall (fun row => PyDict.keys row = names) rows ->
  append_rows (table_of names rows0) rows = table_of names (rows0 ++ rows).
Proof.
  intros Hne Hall. revert rows0 Hne.
  induction Hall as [|row rows Hrow _ IH]; intros rows0 Hne.
  - by rewrite app_nil_r.
  - unfold append_rows in *. cbn [fold_left].
    rewrite table_of_next by done. rewrite IH.
    + by rewrite <- app_assoc.
    + by destruct rows0.
Qed.

(** Rows appended one after the other to an empty [defaultdict(list)]
    leave the table of these rows. *)
Lemma append_rows_table rows :
  Forall (fun row => PyDict.keys row = names) rows ->
  append_rows [] rows = table_of names rows.
Proof.
  intros Hall. destruct Hall as [|row rows Hrow Hall]; [done|].
  unfold append_rows. cbn [fold_left]. rewrite table_of_first by done.
  by apply (append_rows_table_next [row] rows).
Qed.

Lemma table_of_lengths rows :
  Forall (fun c => length c.2 = length rows) (table_of names rows).
Proof.
  destruct rows as [|row rows]; [constructor|].
  cbn [table_of]. apply Forall_forall. intros c Hin.
  rewrite <- fmap_map in Hin.
  apply list_elem_of_fmap in Hin as (name & -> & _). cbn [snd].
  by rewrite length_map.
Qed.

Lemma table_of_keys rows :
  rows <> [] -> PyDict.keys (table_of names rows) = names.
Proof. destruct rows; [done|]. intros _. cbn [table_of]. apply keys_keyed. Qed.

Lemma row_at_keyed (df : DataFrame.t) i :
  NoDup (DataFrame.columns df) ->
  DataFrame.row_at df i =
  map (fun col => (col, DataFrame.cell df col i)) (DataFrame.columns df).
Proof.
  intros Hnd. unfold DataFrame.row_at.
  rewrite <- (fold_left_fmap (fun d kv => PyDict.set d kv.1 kv.2)
               (fun col => (col, DataFrame.cell df col i)) (DataFrame.columns df) []).
  fold (set_all (map (fun col => (col, DataFrame.cell df col i))
                     (DataFrame.columns df)) []).
  rewrite set_all_fresh; [done|].
  cbn [PyDict.keys map app]. rewrite fmap_map, map_map. cbn. by rewrite map_id.
Qed.

(** The table of some rows, once constructed, has these rows. *)
Lemma new_table_of rows :
  (rows <> [] -> names <> []) ->
  Forall (fun row => PyDict.keys row = names) rows ->
  exists df,
    DataFrame.new (table_of names rows) = Ok df
    /\ wf df
    /\ DataFrame.len df = length rows
    /\ DataFrame.columns df = (if bool_decide (rows = []) then [] else names)
    /\ rows_of df = rows.
Proof.
  intros Hnames Hall. destruct rows as [|row rows].
  { exists (DataFrame.mk [] 0). repeat split; cbn; constructor. }
  set (rs := row :: rows) in *.
  assert (Hne : rs <> []) by done.
  exists (DataFrame.mk (table_of names rs) (length rs)).
  assert (Hnew : DataFrame.new (table_of names rs) =
                 Ok (DataFrame.mk (table_of names rs) (length rs))).
  { apply new_ok; [|apply table_of_lengths].
    specialize (Hnames Hne). subst rs. cbn [table_of].
    destruct names; [done|discriminate]. }
  split; [exact Hnew|]. split; [|split; [|split]].
  - eapply new_wf; [|exact Hnew]. by rewrite table_of_keys.
  - reflexivity.
  - unfold DataFrame.columns. cbn [DataFrame._data].
    by rewrite table_of_keys, bool_decide_eq_false_2.
  - unfold rows_of, DataFrame.len. cbn [DataFrame._length].
    apply list_eq. intros i. rewrite <- fmap_map, list_lookup_fmap.
    destruct (rs !! i) as [r|] eqn:Hr.
    + rewrite (lookup_seq_lt 0 (length rs) i) by (by eapply lookup_lt_Some).
      cbn [fmap option_fmap option_map Nat.add].
      f_equal. rewrite row_at_keyed.
      * unfold DataFrame.columns. cbn [DataFrame._data].
        rewrite table_of_keys by done.
        assert (Hrk : PyDict.keys r = names).
        { eapply Forall_forall in Hall; [exact Hall|]. by eapply list_elem_of_lookup_2. }
        rewrite <- (row_eta r) by (by rewrite Hrk). rewrite Hrk.
        apply map_ext_in. intros name Hin. f_equal.
        unfold DataFrame.cell, PyDict.get_list. cbn [DataFrame._data].
        subst rs. cbn [table_of]. rewrite get_keyed by (by apply list_elem_of_In).
        unfold default at 1, id.
        rewrite nth_lookup_default, <- fmap_map, list_lookup_fmap, Hr. done.
      * unfold DataFrame.columns. cbn [DataFrame._data].
        by rewrite table_of_keys.
    + rewrite lookup_seq_ge; [done|]. by apply lookup_ge_None.
Qed.
End TableOf.

(** ** [filter] *)

Lemma append_row_cells (self : DataFrame.t) i fd :
  NoDup (DataFrame.columns self) ->
  DataFrame.append_row self i fd = append_cells fd (DataFrame.row_at self i).
Proof.
  intros Hnd. rewrite row_at_keyed by done.
  unfold DataFrame.append_row, append_cells. by rewrite fold_left_fmap.
Qed.

Lemma row_at_keys (self : DataFrame.t) i :
  NoDup (DataFrame.columns self) ->
  PyDict.keys (DataFrame.row_at self i) = DataFrame.columns self.
Proof. intros Hnd. rewrite row_at_keyed by done. apply keys_keyed. Qed.

Lemma fold_left_filter {A B} (c : B -> bool) (f : A -> B -> A) (l : list B) (a : A) :
  fold_left (fun a x => if c x then f a x else a) l a =
  fold_left f (List.filter c l) a.
Proof.
  revert a. induction l as [|x l IH]; intros a; cbn; [done|].
  destruct (c x); cbn; apply IH.
Qed.

Lemma wf_rows_names (self : DataFrame.t) :
  wf self -> rows_of self <> [] -> DataFrame.columns self <> [].
Proof.
  intros (_ & _ & Hempty) Hrows Hcols. apply Hrows.
  unfold rows_of, DataFrame.len. rewrite Hempty; [done|].
  unfold DataFrame.columns, PyDict.keys in Hcols.
  by destruct (DataFrame._data self).
Qed.

(** What [filter] returns: the rows that satisfy the condition, in their
    order; the columns of the table when a row is kept, and no column at all
    when none is. *)
Lemma filter_rows (self : DataFrame.t) (condition : list (string * value) -> bool) :
  wf self ->
  exists df,
    DataFrame.filter self condition = Ok df
    /\ wf df
    /\ rows_of df = List.filter condition (rows_of self)
    /\ DataFrame.len df = length (List.filter condition (rows_of self))
    /\ DataFrame.columns df =
       (if bool_decide (List.filter condition (rows_of self) = [])
        then [] else DataFrame.columns self).
Proof.
  intros Hwf. pose proof Hwf as (Hnd & _ & _).
  set (kept := List.filter condition (rows_of self)).
  assert (Hkeys : Forall (fun row => PyDict.keys row = DataFrame.columns self) kept).
  { apply Forall_forall. intros row Hin. subst kept.
    apply list_elem_of_In, filter_In in Hin as [Hin _].
    unfold rows_of in Hin. apply in_map_iff in Hin as (i & <- & _).
    by apply row_at_keys. }
  destruct (new_table_of (DataFrame.columns self) Hnd kept) as (df & Hnew & Hdf).
  { intros Hne. apply wf_rows_names; [done|]. intros Hrows. apply Hne.
    subst kept. by rewrite Hrows. }
  { exact Hkeys. }
  exists df. split.
  - unfold DataFrame.filter. rewrite <- Hnew. f_equal.
    rewrite <- append_rows_table by done.
    unfold append_rows, kept, rows_of, DataFrame.len.
    rewrite <- fold_left_filter, fold_left_fmap.
    apply fold_left_ext. intros fd i _.
    destruct (condition (DataFrame.row_at self i)); [|done].
    by apply append_row_cells.
  - destruct Hdf as (Hwf' & Hlen & Hcols & Hrows). done.
Qed.

(** C1, at the inputs on which the code departs from it: when no row
    satisfies the condition, [filter] returns a table without any column,
    so the columns of a table that has some are not kept. *)
Theorem filter_without_match_drops_columns
    (self : DataFrame.t) (condition : list (string * value) -> bool) :
  wf self ->
  DataFrame.columns self <> [] ->
  (forall row, row ∈ rows_of self -> condition row = false) ->
  DataFrame.filter self condition = Ok (DataFrame.mk [] 0)
  /\ DataFrame.columns (DataFrame.mk [] 0) <> DataFrame.columns self.
Proof.
  intros Hwf Hcols Hnone.
  destruct (filter_rows self condition Hwf) as (df & Hfilter & _ & _ & Hlen & Hdf).
  assert (Hkept : List.filter condition (rows_of self) = []).
  { clear -Hnone. induction (rows_of self) as [|row rows IH]; [done|].
    cbn. rewrite Hnone by left. apply IH. intros r Hr. apply Hnone. by right. }
  rewrite Hkept in *. cbn in *. split; [|done].
  rewrite Hfilter. f_equal. destruct df as [data n]. cbn in *. subst n.
  f_equal. unfold DataFrame.columns, PyDict.keys in Hdf. cbn in Hdf.
  by destruct data.
Qed.

Lemma filter_without_match_drops_columns_witness :
  DataFrame.filter medals (column_is "NOC" (VStr "C")) = Ok (DataFrame.mk [] 0)
  /\ DataFrame.columns (DataFrame.mk [] 0) <> DataFrame.columns medals.
Proof.
  apply filter_without_match_drops_columns.
  - compute_done.
  - discriminate.
  - intros row Hin. vm_compute in Hin.
    repeat (apply elem_of_cons in Hin as [->|Hin]; [reflexivity|]).
    by apply elem_of_nil in Hin.
Defined.

(** ** [join] *)

Lemma validate_on_ok self other on :
  valid_on self other on -> DataFrame.validate_on self other on = Ok tt.
Proof.
  intros Hvalid. unfold DataFrame.validate_on.
  assert (H : forall u : unit,
             foldM (fun (_ : unit) col =>
               if negb (DataFrame.has_column self col)
               then Err (KeyError "Column not found in left DataFrame")
               else if negb (DataFrame.has_column other col)
               then Err (KeyError "Column not found in right DataFrame")
               else Ok tt) on u = Ok tt); [|apply H].
  induction Hvalid as [|col on' [Hl Hr] _ IH]; intros []; cbn; [done|].
  rewrite Hl, Hr. cbn. apply IH.
Qed.

Lemma fold_left_concat {A B C} (f : A -> B -> A) (g : A -> C -> A)
    (h : B -> list C) (l : list B) (a : A) :
  (forall a x, x ∈ l -> f a x = fold_left g (h x) a) ->
  fold_left f l a = fold_left g (concat (map h l)) a.
Proof.
  revert a. induction l as [|x l IH]; intros a Hf; cbn; [done|].
  rewrite fold_left_app, Hf by left. apply IH.
  intros a' x' Hin. apply Hf. by right.
Qed.

Lemma elem_of_concat {A} (x : A) (ls : list (list A)) :
  x ∈ concat ls <-> exists l, x ∈ l /\ l ∈ ls.
Proof.
  rewrite list_elem_of_In, in_concat. split.
  - intros (l & Hl & Hx). exists l. by rewrite !list_elem_of_In.
  - intros (l & Hx & Hl). exists l. by rewrite <- !list_elem_of_In.
Qed.

Section JoinFacts.
Variables (self other : DataFrame.t) (on : list string)
          (suffixes : string * string)
    (left_order right_order : list string).

Lemma emit_cells key_cell left_cell right_cell rd :
  DataFrame.emit on left_order right_order
                 (DataFrame.overlap self other on) suffixes
                 key_cell left_cell right_cell rd =
  append_cells rd (out_row self other on suffixes
      left_order right_order key_cell left_cell right_cell).
Proof.
  unfold DataFrame.emit, append_cells, out_row.
  by rewrite !fold_left_app, !fold_left_fmap.
Qed.

Lemma out_row_keys key_cell left_cell right_cell :
  PyDict.keys (out_row self other on suffixes
      left_order right_order key_cell left_cell right_cell) =
  out_names self other on suffixes left_order right_order.
Proof.
  unfold PyDict.keys, out_row, out_names.
  rewrite !map_app, !map_map. cbn. by rewrite map_id.
Qed.

Lemma index_matches (df : DataFrame.t) key :
  PyDict.get_list (DataFrame.build_index df on) key =
  List.filter (fun j => bool_decide (DataFrame.row_key df on j = key))
              (seq 0 (DataFrame.len df)).
Proof.
  unfold DataFrame.build_index.
  rewrite (get_list_index (fun i => DataFrame.row_key df on i) (fun i => i)).
  cbn. by rewrite map_id.
Qed.

(** The loop of the inner and of the left join appends, for every left
    row, its pairs, or for the left join the row alone when it has no
    match. *)
Lemma join_inner_left_rows how rd :
  DataFrame.join_inner_left self other on how suffixes left_order right_order rd =
  append_rows rd
    (concat (map (fun i => match matches_of self other on i with
                           | [] => if String.eqb how "left"
                                   then [left_only_row self other on suffixes
                                       left_order right_order i]
                                   else []
                           | ms => map (paired_row self other on suffixes
                               left_order right_order i) ms
                           end)
                 (seq 0 (DataFrame.len self)))).
Proof.
  unfold DataFrame.join_inner_left, append_rows.
  apply fold_left_concat. intros a i _. cbn zeta.
  rewrite index_matches. fold (matches_of self other on i).
  destruct (matches_of self other on i) as [|j ms] eqn:E.
  - cbn [bool_decide negb]. rewrite bool_decide_eq_true_2 by done. cbn [negb].
    destruct (String.eqb how "left"); [|done].
    cbn. by rewrite emit_cells.
  - rewrite bool_decide_eq_false_2 by done. cbn [negb].
    rewrite fold_left_fmap. apply fold_left_ext. intros a' j' _.
    by rewrite emit_cells.
Qed.
End JoinFacts.

(** ** Distinct keys and sums over them *)

Section Counting.
Context {K : Type} `{EqDecision K}.
Implicit Types (k : K) (l ks : list K).

Lemma elem_of_filter_bool (P : K -> bool) l k :
  k ∈ List.filter P l <-> P k = true /\ k ∈ l.
Proof. rewrite !list_elem_of_In, filter_In. tauto. Qed.

Lemma NoDup_filter_bool (P : K -> bool) l : NoDup l -> NoDup (List.filter P l).
Proof.
  induction 1 as [|x l Hx Hnd IH]; cbn; [constructor|].
  destruct (P x); [|done]. constructor; [|done].
  rewrite elem_of_filter_bool. tauto.
Qed.

Lemma elem_of_first_seen l k : k ∈ first_seen l <-> k ∈ l.
Proof.
  induction l as [|x l IH]; cbn; [done|].
  rewrite !elem_of_cons, elem_of_filter_bool, IH.
  rewrite bool_decide_eq_true. destruct (decide (k = x)); tauto.
Qed.

Lemma NoDup_first_seen l : NoDup (first_seen l).
Proof.
  induction l as [|x l IH]; cbn; constructor.
  - rewrite elem_of_filter_bool, bool_decide_eq_true. tauto.
  - by apply NoDup_filter_bool.
Qed.

Lemma occurrences_cons k x l :
  occurrences k (x :: l) = (if decide (x = k) then 1 else 0) + occurrences k l.
Proof.
  unfold occurrences. cbn. destruct (decide (x = k)).
  - by rewrite bool_decide_eq_true_2.
  - by rewrite bool_decide_eq_false_2.
Qed.

Lemma occurrences_zero k l : k ∉ l -> occurrences k l = 0.
Proof.
  induction l as [|x l IH]; [done|]. intros Hnotin.
  apply not_elem_of_cons in Hnotin as [Hne Hnotin].
  rewrite occurrences_cons, decide_False by done. by apply IH.
Qed.

Lemma sum_list_with_ext (f g : K -> nat) ks :
  (forall k, k ∈ ks -> f k = g k) -> sum_list_with f ks = sum_list_with g ks.
Proof.
  induction ks as [|k ks IH]; intros Hfg; cbn; [done|].
  rewrite Hfg by left. rewrite IH; [done|]. intros k' Hk'. apply Hfg. by right.
Qed.

(** Taking one key out of a duplicate-free list of keys. *)
Lemma sum_split_key (h : K -> nat) ks x :
  NoDup ks ->
  sum_list_with h ks =
  (if decide (x ∈ ks) then h x else 0)
  + sum_list_with h (List.filter (fun k => bool_decide (k <> x)) ks).
Proof.
  induction 1 as [|k ks Hk Hnd IH]; cbn; [by rewrite decide_False by set_solver|].
  destruct (decide (k = x)) as [->|Hne].
  - rewrite bool_decide_eq_false_2 by tauto.
    rewrite decide_True by left. rewrite IH.
    rewrite decide_False by done. lia.
  - rewrite bool_decide_eq_true_2 by done. cbn. rewrite IH.
    destruct (decide (x ∈ ks)) as [Hin|Hnotin].
    + rewrite decide_True by (by right). lia.
    + rewrite decide_False; [lia|]. intros [?|?]%elem_of_cons; congruence.
Qed.

(** A sum over a list, regrouped by distinct element. *)
Lemma sum_by_key (g : K -> nat) l :
  sum_list_with g l =
  sum_list_with (fun k => occurrences k l * g k) (first_seen l).
Proof.
  induction l as [|x l IH]; cbn [first_seen sum_list_with]; [done|].
  rewrite IH.
  rewrite (sum_split_key (fun k => occurrences k l * g k) (first_seen l) x)
    by apply NoDup_first_seen.
  rewrite occurrences_cons. destruct (decide (x = x)) as [_|]; [|done].
  assert (Hx : (if decide (x ∈ first_seen l) then occurrences x l * g x else 0)
               = occurrences x l * g x).
  { destruct (decide (x ∈ first_seen l)) as [|Hnotin]; [done|].
    rewrite elem_of_first_seen in Hnotin. by rewrite occurrences_zero. }
  rewrite Hx.
  assert (Hrest : sum_list_with (fun k => occurrences k (x :: l) * g k)
                    (List.filter (fun k => bool_decide (k <> x)) (first_seen l)) =
                  sum_list_with (fun k => occurrences k l * g k)
                    (List.filter (fun k => bool_decide (k <> x)) (first_seen l))).
  { apply sum_list_with_ext. intros k Hk.
    apply elem_of_filter_bool in Hk as [Hk _].
    apply bool_decide_eq_true in Hk.
    rewrite occurrences_cons. destruct (decide (x = k)) as [->|_]; [done|]. lia. }
  rewrite Hrest. lia.
Qed.


Lemma length_concat_sum {A B} (f : A -> list B) (l : list A) :
  length (concat (map f l)) = sum_list_with (fun x => length (f x)) l.
Proof.
  induction l as [|x l IH]; cbn; [done|]. by rewrite length_app, IH.
Qed.

Lemma occurrences_map {A} (f : A -> K) (l : list A) k :
  occurrences k (map f l) =
  length (List.filter (fun x => bool_decide (f x = k)) l).
Proof.
  unfold occurrences. induction l as [|x l IH]; cbn; [done|].
  destruct (bool_decide (f x = k)); cbn; by rewrite IH.
Qed.

Lemma sum_list_with_map {A} (f : A -> K) (g : K -> nat) (l : list A) :
  sum_list_with g (map f l) = sum_list_with (fun x => g (f x)) l.
Proof. induction l as [|x l IH]; cbn; [done|]. by rewrite IH. Qed.
End Counting.

Section JoinTheorems.
Variables (self other : DataFrame.t) (on : list string)
          (suffixes : string * string)
    (left_order right_order : list string).
Hypothesis wf_self : wf self.
Hypothesis wf_other : wf other.
Hypothesis on_valid : valid_on self other on.
Hypothesis left_iterates :
  DataFrame.iterates left_order (DataFrame.non_key_cols self on).
Hypothesis right_iterates :
  DataFrame.iterates right_order (DataFrame.non_key_cols other on).
Hypothesis names_distinct :
  NoDup (out_names self other on suffixes left_order right_order).

Lemma wf_has_column (df : DataFrame.t) :
  wf df -> 0 < DataFrame.len df -> exists col, col ∈ DataFrame.columns df.
Proof.
  intros (_ & _ & Hempty) Hlen. unfold DataFrame.columns, PyDict.keys.
  destruct (DataFrame._data df) as [|[col vals] data] eqn:E.
  - unfold DataFrame.len in Hlen. rewrite Hempty in Hlen by done. lia.
  - exists col. cbn. left.
Qed.

Lemma out_names_nonempty :
  0 < DataFrame.len self \/ 0 < DataFrame.len other ->
  out_names self other on suffixes left_order right_order <> [].
Proof.
  intros Hlen Hnil. unfold out_names in Hnil.
  apply app_eq_nil in Hnil as [Hon Hnil].
  apply app_eq_nil in Hnil as [Hl Hr].
  apply map_eq_nil in Hl, Hr.
  destruct Hlen as [Hlen|Hlen].
  - destruct (wf_has_column self wf_self Hlen) as [col Hcol].
    assert (Hin : col ∈ left_order).
    { destruct left_iterates as [_ Hset].
      apply (elem_of_list_to_set (C := gset string)). rewrite Hset.
      unfold DataFrame.non_key_cols. rewrite Hon. set_solver. }
    rewrite Hl in Hin. by apply elem_of_nil in Hin.
  - destruct (wf_has_column other wf_other Hlen) as [col Hcol].
    assert (Hin : col ∈ right_order).
    { destruct right_iterates as [_ Hset].
      apply (elem_of_list_to_set (C := gset string)). rewrite Hset.
      unfold DataFrame.non_key_cols. rewrite Hon. set_solver. }
    rewrite Hr in Hin. by apply elem_of_nil in Hin.
Qed.

(** The table a join leaves once its rows have been appended. *)
Lemma join_new rows :
  Forall (fun row => PyDict.keys row = out_names self other on suffixes
      left_order right_order) rows ->
  (rows <> [] -> 0 < DataFrame.len self \/ 0 < DataFrame.len other) ->
  exists df,
    DataFrame.new (append_rows [] rows) = Ok df
    /\ wf df
    /\ DataFrame.len df = length rows
    /\ DataFrame.columns df =
       (if bool_decide (rows = []) then [] else out_names self other on suffixes
           left_order right_order)
    /\ rows_of df = rows.
Proof.
  intros Hkeys Hlen.
  rewrite (append_rows_table _ names_distinct) by done.
  apply new_table_of; [done| |done].
  intros Hne. by apply out_names_nonempty, Hlen.
Qed.

Lemma seq_rows_nonempty {A} (f : nat -> list A) n :
  concat (map f (seq 0 n)) <> [] -> 0 < n.
Proof. destruct n; [done|lia]. Qed.

Lemma inner_rows_concat :
  concat (map (fun i => match matches_of self other on i with
                        | [] => []
                        | ms => map (paired_row self other on suffixes
                            left_order right_order i) ms
                        end) (seq 0 (DataFrame.len self))) =
  inner_rows self other on suffixes left_order right_order.
Proof.
  unfold inner_rows, inner_pairs.
  transitivity (concat (map (fun i => map (paired_row self other on suffixes
      left_order right_order i)
                                          (matches_of self other on i))
                            (seq 0 (DataFrame.len self)))).
  - f_equal. apply map_ext. intros i. by destruct (matches_of self other on i).
  - induction (seq 0 (DataFrame.len self)) as [|i l IH]; [done|].
    rewrite !map_cons, !concat_cons, map_app, IH, map_map. done.
Qed.

Lemma inner_rows_keys :
  Forall (fun row => PyDict.keys row = out_names self other on suffixes left_order right_order)
         (inner_rows self other on suffixes left_order right_order).
Proof.
  apply Forall_forall. intros row Hin. unfold inner_rows in Hin.
  rewrite <- fmap_map in Hin. apply list_elem_of_fmap in Hin as (p & -> & _).
  apply out_row_keys.
Qed.

(** The inner join returns the rows [inner_rows]. *)
Lemma join_inner :
  exists df,
    DataFrame.join self other on "inner" suffixes left_order right_order = Ok df
    /\ wf df
    /\ DataFrame.len df = length (inner_rows self other on suffixes left_order right_order)
    /\ DataFrame.columns df =
       (if bool_decide (inner_rows self other on suffixes left_order right_order = [])
        then [] else out_names self other on suffixes left_order right_order)
    /\ rows_of df = inner_rows self other on suffixes left_order right_order.
Proof.
  destruct (join_new (inner_rows self other on suffixes
      left_order right_order)) as (df & Hnew & Hdf).
  { apply inner_rows_keys. }
  { rewrite <- inner_rows_concat. intros H%seq_rows_nonempty. by left. }
  exists df. split; [|exact Hdf].
  change (DataFrame.join self other on "inner" suffixes left_order right_order) with
    (DataFrame.validate_on self other on ≫= fun _ =>
     DataFrame.new (DataFrame.join_inner_left self other on "inner" suffixes
         left_order right_order [])).
  rewrite validate_on_ok by done. cbn [mbind result_bind].
  rewrite join_inner_left_rows.
  rewrite <- inner_rows_concat in Hnew. exact Hnew.
Qed.

Lemma left_rows_keys :
  Forall (fun row => PyDict.keys row = out_names self other on suffixes left_order right_order)
         (left_rows self other on suffixes left_order right_order).
Proof.
  apply Forall_forall. intros row Hin. unfold left_rows in Hin.
  apply elem_of_concat in Hin as (rs & Hrow & Hrs).
  rewrite <- fmap_map in Hrs. apply list_elem_of_fmap in Hrs as (i & -> & _).
  destruct (matches_of self other on i) as [|j ms].
  - apply list_elem_of_singleton in Hrow as ->. apply out_row_keys.
  - rewrite <- fmap_map in Hrow.
    apply list_elem_of_fmap in Hrow as (j' & -> & _). apply out_row_keys.
Qed.

(** The left join returns the rows [left_rows]. *)
Lemma join_left :
  exists df,
    DataFrame.join self other on "left" suffixes left_order right_order = Ok df
    /\ wf df
    /\ DataFrame.len df = length (left_rows self other on suffixes left_order right_order)
    /\ DataFrame.columns df =
       (if bool_decide (left_rows self other on suffixes left_order right_order = [])
        then [] else out_names self other on suffixes left_order right_order)
    /\ rows_of df = left_rows self other on suffixes left_order right_order.
Proof.
  destruct (join_new (left_rows self other on suffixes
      left_order right_order)) as (df & Hnew & Hdf).
  { apply left_rows_keys. }
  { intros H%seq_rows_nonempty. by left. }
  exists df. split; [|exact Hdf].
  change (DataFrame.join self other on "left" suffixes left_order right_order) with
    (DataFrame.validate_on self other on ≫= fun _ =>
     DataFrame.new (DataFrame.join_inner_left self other on "left" suffixes
         left_order right_order [])).
  rewrite validate_on_ok by done. cbn [mbind result_bind].
  by rewrite join_inner_left_rows.
Qed.
End JoinTheorems.


Lemma matches_of_nil self other on i :
  matches_of self other on i = [] <->
  DataFrame.row_key self on i ∉ keys_of on other.
Proof.
  unfold matches_of, keys_of. split.
  - intros Hnil Hin. rewrite <- fmap_map in Hin.
    apply list_elem_of_fmap in Hin as (j & Hj & Hin).
    assert (Hj' : j ∈ List.filter
              (fun j => bool_decide (DataFrame.row_key other on j =
                                     DataFrame.row_key self on i))
              (seq 0 (DataFrame.len other))).
    { apply elem_of_filter_bool. split; [|done]. by apply bool_decide_eq_true. }
    rewrite Hnil in Hj'. by apply elem_of_nil in Hj'.
  - intros Hnotin.
    destruct (List.filter _ _) as [|j ms] eqn:E; [done|]. exfalso. apply Hnotin.
    assert (Hj : j ∈ j :: ms) by left. rewrite <- E in Hj.
    apply elem_of_filter_bool in Hj as [Hj Hin].
    apply bool_decide_eq_true in Hj. rewrite <- Hj.
    rewrite <- fmap_map. apply list_elem_of_fmap. eauto.
Qed.



Lemma out_row_right_field self other on suffixes left_order right_order
    key_cell left_cell right_cell col :
  DataFrame.iterates right_order (DataFrame.non_key_cols other on) ->
  NoDup (out_names self other on suffixes left_order right_order) ->
  col ∈ DataFrame.non_key_cols other on ->
  field (out_row self other on suffixes left_order right_order key_cell left_cell right_cell)
        (DataFrame.col_name (DataFrame.overlap self other on) suffixes.2 col)
  = right_cell col.
Proof.
  intros [_ Hset] Hnd Hcol. unfold field.
  rewrite (get_elem_of _ _ (right_cell col)); [done| |].
  - by rewrite out_row_keys.
  - unfold out_row. rewrite !elem_of_app. right. right.
    rewrite <- fmap_map. apply list_elem_of_fmap. exists col.
    split; [done|]. apply (elem_of_list_to_set (C := gset string)). by rewrite Hset.
Qed.

(** C2, as amended: the left join returns, for every left row in turn, its
    pairs with the right rows that have its key, or, when no right row has
    it, exactly one row, in which every right non-key column holds [None];
    [None] is neither ["NA"] nor the empty string.  On the example of the
    specification the three rows are (1, None), (2, x), (3, y).  [left_order] and
    [right_order] are the orders in which the call iterates its two sets
    of non-key columns, whatever they are. *)
Theorem left_join_unmatched_row_holds_None
    (self other : DataFrame.t) (on : list string) (suffixes : string * string)
    (left_order right_order : list string) :
  wf self -> wf other -> valid_on self other on ->
  DataFrame.iterates left_order (DataFrame.non_key_cols self on) ->
  DataFrame.iterates right_order (DataFrame.non_key_cols other on) ->
  NoDup (out_names self other on suffixes left_order right_order) ->
  (exists df,
    DataFrame.join self other on "left" suffixes left_order right_order = Ok df
    /\ rows_of df =
       concat (map (fun i =>
                 if bool_decide (DataFrame.row_key self on i ∈ keys_of on other)
                 then map (paired_row self other on suffixes left_order right_order i)
                          (matches_of self other on i)
                 else [left_only_row self other on suffixes left_order right_order i])
               (seq 0 (DataFrame.len self))))
  /\ (forall i col,
        col ∈ DataFrame.non_key_cols other on ->
        field (left_only_row self other on suffixes left_order right_order i)
              (DataFrame.col_name (DataFrame.overlap self other on) suffixes.2 col)
        = VNone)
  /\ ~ missing_sentinel VNone
  /\ DataFrame.join join_left_example join_right_example ["id"] "left" ("_x", "_y") [] ["v"]
     = Ok (DataFrame.mk [("id", [VInt 1; VInt 2; VInt 3]);
                         ("v", [VNone; VStr "x"; VStr "y"])] 3).
Proof.
  intros Hself Hother Hon Hlo Hro Hnames. repeat apply conj.
  - destruct (join_left self other on suffixes
      left_order right_order Hself Hother Hon Hlo Hro Hnames)
      as (df & Hjoin & _ & _ & _ & Hrows).
    exists df. split; [exact Hjoin|]. rewrite Hrows. unfold left_rows.
    f_equal. apply map_ext. intros i.
    destruct (matches_of self other on i) as [|j ms] eqn:E.
    + apply matches_of_nil in E. by rewrite bool_decide_eq_false_2.
    + rewrite bool_decide_eq_true_2; [done|].
      destruct (decide (DataFrame.row_key self on i ∈ keys_of on other)) as [|Hn];
        [done|].
      apply matches_of_nil in Hn. congruence.
  - intros i col Hcol. unfold left_only_row.
    by rewrite out_row_right_field.
  - intros [H|H]; discriminate.
  - vm_compute. reflexivity.
Qed.

Lemma left_join_unmatched_row_holds_None_witness :
  (exists df,
    DataFrame.join many_left_example many_right_example ["id"] "left" ("_x", "_y") ["a"] ["b"]
    = Ok df
    /\ length (rows_of df) = 5)
  /\ field (left_only_row many_left_example many_right_example ["id"] ("_x", "_y") ["a"] ["b"] 2)
           "b" = VNone.
Proof.
  destruct (left_join_unmatched_row_holds_None
              many_left_example many_right_example ["id"] ("_x", "_y") ["a"] ["b"])
    as ((df & Hjoin & Hrows) & Hnone & _ & _);
    [compute_done|compute_done|compute_done|compute_done|compute_done|compute_done|].
  split.
  - exists df. split; [exact Hjoin|]. rewrite Hrows. vm_compute. reflexivity.
  - apply (Hnone 2 "b"). compute_done.
Defined.

(** C2 as stated fails on the example of the specification: the row of
    id 1, which has no match, holds [None] under v, and [None] is not the
    missing sentinel of the data model. *)
Lemma left_join_unmatched_cell_is_not_the_sentinel :
  exists df,
    DataFrame.join join_left_example join_right_example ["id"] "left" ("_x", "_y") [] ["v"]
    = Ok df
    /\ matches_of join_left_example join_right_example ["id"] 0 = []
    /\ field (DataFrame.row_at df 0) "id" = VInt 1
    /\ ~ missing_sentinel (field (DataFrame.row_at df 0) "v").
Proof.
  exists (DataFrame.mk [("id", [VInt 1; VInt 2; VInt 3]);
                        ("v", [VNone; VStr "x"; VStr "y"])] 3).
  repeat apply conj.
  - vm_compute. reflexivity.
  - vm_compute. reflexivity.
  - vm_compute. reflexivity.
  - vm_compute. intros [H|H]; discriminate.
Qed.

(** C10: with key columns that both tables have, a [how] that is none of
    the four join types raises nothing and returns the table without
    columns and without rows. *)
Theorem join_unknown_how_returns_empty
    (self other : DataFrame.t) (on : list string) (how : string)
    (suffixes : string * string)
    (left_order right_order : list string) :
  valid_on self other on ->
  how <> "inner" -> how <> "left" -> how <> "right" -> how <> "outer" ->
  DataFrame.join self other on how suffixes left_order right_order = Ok (DataFrame.mk [] 0)
  /\ DataFrame.shape (DataFrame.mk [] 0) = (0, 0)
  /\ DataFrame.columns (DataFrame.mk [] 0) = [].
Proof.
  intros Hon Hi Hl Hr Ho. repeat apply conj; [|done|done].
  unfold DataFrame.join. rewrite validate_on_ok by done.
  cbn [mbind result_bind].
  apply String.eqb_neq in Hi, Hl, Hr, Ho.
  by rewrite Hi, Hl, Hr, Ho.
Qed.

Lemma join_unknown_how_returns_empty_witness :
  DataFrame.join join_left_example join_right_example ["id"] "cross" ("_x", "_y") [] ["v"]
  = Ok (DataFrame.mk [] 0)
  /\ DataFrame.shape (DataFrame.mk [] 0) = (0, 0)
  /\ DataFrame.columns (DataFrame.mk [] 0) = [].
Proof.
  apply join_unknown_how_returns_empty; [compute_done|discriminate..].
Defined.

(** ** The outer join *)

Lemma filter_bool_ext {A} (P Q : A -> bool) (l : list A) :
  (forall x, x ∈ l -> P x = Q x) -> List.filter P l = List.filter Q l.
Proof.
  induction l as [|x l IH]; intros HPQ; cbn; [done|].
  rewrite (HPQ x) by left. rewrite IH; [done|].
  intros y Hy. apply HPQ. by right.
Qed.

Lemma append_rows_app rd rows1 rows2 :
  append_rows (append_rows rd rows1) rows2 = append_rows rd (rows1 ++ rows2).
Proof. unfold append_rows. by rewrite fold_left_app. Qed.


Section OuterJoin.
Variables (self other : DataFrame.t) (on : list string)
          (suffixes : string * string)
    (left_order right_order : list string).

Lemma elem_of_matches_of i j :
  j ∈ matches_of self other on i <->
  j < DataFrame.len other
  /\ DataFrame.row_key other on j = DataFrame.row_key self on i.
Proof.
  unfold matches_of. rewrite elem_of_filter_bool, bool_decide_eq_true.
  rewrite elem_of_seq. split; intros [? ?]; split; try done; lia.
Qed.

Lemma elem_of_keys_of (df : DataFrame.t) key :
  key ∈ keys_of on df <->
  exists i, i < DataFrame.len df /\ DataFrame.row_key df on i = key.
Proof.
  unfold keys_of. rewrite <- fmap_map, list_elem_of_fmap. split.
  - intros (i & -> & Hi). apply elem_of_seq in Hi. exists i. split; [lia|done].
  - intros (i & Hi & <-). exists i. split; [done|]. apply elem_of_seq. lia.
Qed.

Lemma elem_of_inner_pairs i j :
  (i, j) ∈ inner_pairs self other on <->
  i < DataFrame.len self /\ j ∈ matches_of self other on i.
Proof.
  unfold inner_pairs. rewrite elem_of_concat. split.
  - intros (ps & Hp & Hps). rewrite <- fmap_map in Hps.
    apply list_elem_of_fmap in Hps as (i' & -> & Hi').
    rewrite <- fmap_map in Hp. apply list_elem_of_fmap in Hp as (j' & [= -> ->] & Hj).
    apply elem_of_seq in Hi'. split; [lia|done].
  - intros [Hi Hj].
    exists (map (fun j => (i, j)) (matches_of self other on i)). split.
    + rewrite <- fmap_map. apply list_elem_of_fmap. eauto.
    + rewrite <- fmap_map.
      apply (list_elem_of_fmap_2 (fun i => map (fun j => (i, j))
                                            (matches_of self other on i))).
      apply elem_of_seq. lia.
Qed.

(** The inner part: the rows of the inner join, the left rows that have a
    match, and the right rows that are a match. *)
Lemma outer_inner_part_spec rd :
  exists matched_left matched_right,
    DataFrame.outer_inner_part self other on suffixes left_order right_order rd =
    (append_rows rd (inner_rows self other on suffixes
        left_order right_order), matched_left, matched_right)
    /\ (forall i, i ∈ matched_left <->
                  i < DataFrame.len self /\ matches_of self other on i <> [])
    /\ (forall j, j ∈ matched_right <->
                  exists i, (i, j) ∈ inner_pairs self other on).
Proof.
  unfold DataFrame.outer_inner_part, inner_rows.
  match goal with |- context [fold_left ?f _ _] => set (step := f) end.
  assert (Hstep : forall rd (ml mr : gset nat) i,
    step (rd, ml, mr) i =
    match matches_of self other on i with
    | [] => (rd, ml, mr)
    | ms => (append_rows rd (map (paired_row self other on suffixes
        left_order right_order i) ms),
             {[ i ]} ∪ ml, list_to_set ms ∪ mr)
    end).
  { intros rd0 ml mr i. subst step. cbv beta iota zeta.
    rewrite index_matches. fold (matches_of self other on i).
    destruct (matches_of self other on i) as [|j ms] eqn:E.
    - by rewrite bool_decide_eq_true_2.
    - rewrite bool_decide_eq_false_2 by done. cbn [negb].
      generalize (j :: ms). clear E j ms. intros ms.
      assert (Hin : forall rd1 (mr1 : gset nat),
        fold_left (fun '(rd, matched_right) right_idx =>
            (DataFrame.emit on left_order right_order
               (DataFrame.overlap self other on) suffixes
               (fun col => DataFrame.cell self col i)
               (fun col => DataFrame.cell self col i)
               (fun col => DataFrame.cell other col right_idx) rd,
             {[ right_idx ]} ∪ matched_right)) ms (rd1, mr1) =
        (append_rows rd1 (map (paired_row self other on suffixes left_order right_order i) ms),
         list_to_set ms ∪ mr1)).
      { induction ms as [|j ms IHms]; intros rd1 mr1; cbn [fold_left].
        - cbn. f_equal. set_solver.
        - rewrite IHms, emit_cells. cbn [map]. unfold append_rows at 2.
          cbn [fold_left]. f_equal. set_solver. }
      by rewrite Hin. }
  clearbody step.
  assert (Hgen : forall (l : list nat) rd (ml mr : gset nat),
    exists ml' mr',
      fold_left step l (rd, ml, mr) =
      (append_rows rd
         (map (fun p => paired_row self other on suffixes left_order right_order p.1 p.2)
              (concat (map (fun i => map (fun j => (i, j))
                                         (matches_of self other on i)) l))),
       ml', mr')
      /\ (forall i, i ∈ ml' <->
                    i ∈ ml \/ (i ∈ l /\ matches_of self other on i <> []))
      /\ (forall j, j ∈ mr' <->
                    j ∈ mr \/ exists i, i ∈ l /\ j ∈ matches_of self other on i)).
  { induction l as [|i l IH]; intros rd0 ml mr.
    - exists ml, mr. cbn. repeat split; try tauto.
      + intros [?|[Hin _]]; [done|]. by apply elem_of_nil in Hin.
      + intros [?|(i & Hin & _)]; [done|]. by apply elem_of_nil in Hin.
    - cbn [fold_left]. rewrite Hstep.
      destruct (matches_of self other on i) as [|j ms] eqn:E; cbv zeta.
      + destruct (IH rd0 ml mr) as (ml' & mr' & Hfold & Hml & Hmr).
        exists ml', mr'. split; [|split].
        * rewrite Hfold. cbn [map concat app]. by rewrite E.
        * intros i'. rewrite Hml, elem_of_cons. split.
          -- intros [?|[? ?]]; [by left|]. right. split; [by right|done].
          -- intros [?|[[->|?] ?]]; [by left|congruence|by right].
        * intros j'. rewrite Hmr. split.
          -- intros [?|(i' & ? & ?)]; [by left|]. right. exists i'.
             split; [by right|done].
          -- intros [?|(i' & [->|?]%elem_of_cons & Hj)]; [by left| |right; eauto].
             rewrite E in Hj. by apply elem_of_nil in Hj.
      + destruct (IH (append_rows rd0 (map (paired_row self other on suffixes
          left_order right_order i) (j :: ms)))
                     ({[ i ]} ∪ ml) (list_to_set (j :: ms) ∪ mr))
          as (ml' & mr' & Hfold & Hml & Hmr).
        exists ml', mr'. split; [|split].
        * rewrite Hfold. f_equal. f_equal.
          rewrite append_rows_app. f_equal.
          cbn [map concat]. rewrite E, map_app, map_map. done.
        * intros i'. rewrite Hml, elem_of_union, elem_of_singleton, elem_of_cons.
          split.
          -- intros [[->|?]|[? ?]]; [|by left|].
             ++ right. split; [by left|]. by rewrite E.
             ++ right. split; [by right|done].
          -- intros [?|[[->|?] ?]]; [left; by right|left; by left|by right].
        * intros j'. rewrite Hmr, elem_of_union, elem_of_list_to_set. split.
          -- intros [[Hj|?]|(i' & ? & ?)]; [|by left|].
             ++ right. exists i. split; [left|]. by rewrite E.
             ++ right. exists i'. split; [by right|done].
          -- intros [?|(i' & [->|?]%elem_of_cons & Hj)].
             ++ left. by right.
             ++ left. left. by rewrite E in Hj.
             ++ right. eauto. }
  destruct (Hgen (seq 0 (DataFrame.len self)) rd ∅ ∅) as (ml & mr & Hfold & Hml & Hmr).
  exists ml, mr. split; [exact Hfold|]. split.
  - intros i. rewrite Hml, elem_of_seq. split.
    + intros [Hin|[? ?]]; [by apply not_elem_of_empty in Hin|]. split; [lia|done].
    + intros [? ?]. right. split; [lia|done].
  - intros j. rewrite Hmr. split.
    + intros [Hin|(i & Hi & Hj)]; [by apply not_elem_of_empty in Hin|].
      exists i. apply elem_of_inner_pairs. apply elem_of_seq in Hi. split; [lia|done].
    + intros (i & Hij). apply elem_of_inner_pairs in Hij as [Hi Hj].
      right. exists i. split; [|done]. apply elem_of_seq. lia.
Qed.

Lemma outer_left_part_rows (matched_left : gset nat) rd :
  (forall i, i ∈ matched_left <->
             i < DataFrame.len self /\ matches_of self other on i <> []) ->
  DataFrame.outer_left_part self other on suffixes left_order right_order matched_left rd =
  append_rows rd (map (left_only_row self other on suffixes left_order right_order)
                      (unmatched_left self other on)).
Proof.
  intros Hml. unfold DataFrame.outer_left_part, append_rows, unmatched_left.
  rewrite fold_left_fmap.
  rewrite <- (fold_left_filter
                (fun i => bool_decide (DataFrame.row_key self on i ∉ keys_of on other))
                (fun rd i => append_cells rd (left_only_row self other on suffixes
                    left_order right_order i))).
  apply fold_left_ext. intros a i Hi. apply elem_of_seq in Hi.
  assert (Heq : negb (bool_decide (i ∈ matched_left)) =
                bool_decide (DataFrame.row_key self on i ∉ keys_of on other)).
  { destruct (decide (i ∈ matched_left)) as [Hin|Hnotin].
    - rewrite bool_decide_eq_true_2 by done. apply Hml in Hin as [_ Hne].
      rewrite bool_decide_eq_false_2; [done|].
      intros Hkey. by apply matches_of_nil in Hkey.
    - rewrite bool_decide_eq_false_2 by done. cbn.
      rewrite bool_decide_eq_true_2; [done|]. apply matches_of_nil.
      destruct (matches_of self other on i) eqn:E; [done|].
      exfalso. apply Hnotin, Hml. split; [lia|]. by rewrite E. }
  rewrite Heq.
  destruct (bool_decide (DataFrame.row_key self on i ∉ keys_of on other));
    [|done].
  by rewrite emit_cells.
Qed.

Lemma outer_right_part_rows (matched_right : gset nat) rd :
  (forall j, j ∈ matched_right <-> exists i, (i, j) ∈ inner_pairs self other on) ->
  DataFrame.outer_right_part self other on suffixes left_order right_order matched_right rd =
  append_rows rd (map (right_only_row self other on suffixes left_order right_order)
                      (unmatched_right self other on)).
Proof.
  intros Hmr. unfold DataFrame.outer_right_part, append_rows, unmatched_right.
  rewrite fold_left_fmap.
  rewrite <- (fold_left_filter
                (fun j => bool_decide (DataFrame.row_key other on j ∉ keys_of on self))
                (fun rd j => append_cells rd (right_only_row self other on suffixes
                    left_order right_order j))).
  apply fold_left_ext. intros a j Hj. apply elem_of_seq in Hj.
  assert (Heq : negb (bool_decide (j ∈ matched_right)) =
                bool_decide (DataFrame.row_key other on j ∉ keys_of on self)).
  { destruct (decide (j ∈ matched_right)) as [Hin|Hnotin].
    - rewrite bool_decide_eq_true_2 by done. cbn.
      apply Hmr in Hin as (i & Hij).
      apply elem_of_inner_pairs in Hij as [Hi Hm].
      apply elem_of_matches_of in Hm as [_ Hkey].
      rewrite bool_decide_eq_false_2; [done|]. intros Hnotin. apply Hnotin.
      apply elem_of_keys_of. eauto.
    - rewrite bool_decide_eq_false_2 by done. cbn.
      rewrite bool_decide_eq_true_2; [done|]. intros Hkey. apply Hnotin, Hmr.
      apply elem_of_keys_of in Hkey as (i & Hi & Hkey). exists i.
      apply elem_of_inner_pairs. split; [done|].
      apply elem_of_matches_of. split; [lia|done]. }
  rewrite Heq.
  destruct (bool_decide (DataFrame.row_key other on j ∉ keys_of on self));
    [|done].
  by rewrite emit_cells.
Qed.

(** The three loops of the outer join append the rows [outer_rows]. *)
Lemma join_outer_rows rd :
  DataFrame.join_outer self other on suffixes left_order right_order rd =
  append_rows rd (outer_rows self other on suffixes left_order right_order).
Proof.
  unfold DataFrame.join_outer.
  destruct (outer_inner_part_spec rd) as (ml & mr & -> & Hml & Hmr).
  rewrite outer_left_part_rows, outer_right_part_rows by done.
  unfold outer_rows. by rewrite !append_rows_app.
Qed.

Lemma outer_rows_keys :
  Forall (fun row => PyDict.keys row = out_names self other on suffixes left_order right_order)
         (outer_rows self other on suffixes left_order right_order).
Proof.
  unfold outer_rows, inner_rows. rewrite !Forall_app. repeat split;
    apply Forall_forall; intros row Hin; rewrite <- fmap_map in Hin;
    apply list_elem_of_fmap in Hin as (x & -> & _); apply out_row_keys.
Qed.

Hypothesis wf_self : wf self.
Hypothesis wf_other : wf other.
Hypothesis on_valid : valid_on self other on.
Hypothesis left_iterates :
  DataFrame.iterates left_order (DataFrame.non_key_cols self on).
Hypothesis right_iterates :
  DataFrame.iterates right_order (DataFrame.non_key_cols other on).
Hypothesis names_distinct :
  NoDup (out_names self other on suffixes left_order right_order).

(** The outer join returns the rows [outer_rows]. *)
Lemma join_outer :
  exists df,
    DataFrame.join self other on "outer" suffixes left_order right_order = Ok df
    /\ wf df
    /\ DataFrame.len df = length (outer_rows self other on suffixes left_order right_order)
    /\ DataFrame.columns df =
       (if bool_decide (outer_rows self other on suffixes left_order right_order = [])
        then [] else out_names self other on suffixes left_order right_order)
    /\ rows_of df = outer_rows self other on suffixes left_order right_order.
Proof.
  destruct (join_new self other on suffixes left_order right_order wf_self wf_other on_valid
              left_iterates right_iterates names_distinct
              (outer_rows self other on suffixes left_order right_order)) as (df & Hnew & Hdf).
  { apply outer_rows_keys. }
  { intros Hne.
    destruct (DataFrame.len self) as [|n] eqn:El; [|left; lia].
    destruct (DataFrame.len other) as [|m] eqn:Er; [|right; lia].
    exfalso. apply Hne.
    unfold outer_rows, inner_rows, inner_pairs, unmatched_left, unmatched_right.
    by rewrite El, Er. }
  exists df. split; [|exact Hdf].
  change (DataFrame.join self other on "outer" suffixes left_order right_order) with
    (DataFrame.validate_on self other on ≫= fun _ =>
     DataFrame.new (DataFrame.join_outer self other on suffixes left_order right_order [])).
  rewrite validate_on_ok by done. cbn [mbind result_bind].
  by rewrite join_outer_rows.
Qed.
End OuterJoin.



(** ** Grouping *)

Section FirstSeen.
Context {K : Type} `{EqDecision K}.

(** Scanning one more element: it is added at the end when it is new. *)
Lemma first_seen_snoc (l : list K) (x : K) :
  first_seen (l ++ [x]) = first_seen l ++ (if decide (x ∈ l) then [] else [x]).
Proof.
  induction l as [|y l IH]; cbn [app first_seen].
  - rewrite decide_False by apply not_elem_of_nil. done.
  - rewrite IH. rewrite List.filter_app. cbn [app]. f_equal. f_equal.
    destruct (decide (x ∈ l)) as [Hin|Hnotin],
             (decide (x ∈ y :: l)) as [Hin'|Hnotin']; cbn.
    + done.
    + exfalso. apply Hnotin'. by right.
    + apply elem_of_cons in Hin' as [->|?]; [|done].
      by rewrite bool_decide_eq_false_2 by tauto.
    + rewrite bool_decide_eq_true_2; [done|].
      intros ->. apply Hnotin'. left.
Qed.

Lemma keys_append {A} (d : list (K * list A)) k x :
  PyDict.keys (PyDict.append d k x) =
  if decide (k ∈ PyDict.keys d) then PyDict.keys d else PyDict.keys d ++ [k].
Proof.
  unfold PyDict.keys. induction d as [|[k' xs] d IH]; cbn.
  - rewrite decide_False by apply not_elem_of_nil. done.
  - destruct (decide (k' = k)) as [->|Hne]; cbn.
    + by rewrite decide_True by left.
    + rewrite IH. destruct (decide (k ∈ map fst d)) as [Hin|Hnotin].
      * by rewrite decide_True by (by right).
      * rewrite decide_False; [done|]. intros [?|?]%elem_of_cons; congruence.
Qed.

(** The keys of an index are the keys in first-seen order. *)
Lemma keys_index {A B} (f : B -> K) (g : B -> A) (l : list B) :
  PyDict.keys (fold_left (fun d i => PyDict.append d (f i) (g i)) l []) =
  first_seen (map f l).
Proof.
  induction l as [|x l IH] using rev_ind; [done|].
  rewrite fold_left_app. cbn [fold_left]. rewrite keys_append, IH.
  rewrite map_app. cbn [map]. rewrite first_seen_snoc.
  destruct (decide (f x ∈ first_seen (map f l))) as [Hin|Hnotin].
  - rewrite decide_True; [by rewrite app_nil_r|]. by apply elem_of_first_seen.
  - rewrite decide_False; [done|]. by rewrite <- elem_of_first_seen.
Qed.

Lemma dict_eta {V} (d : list (K * V)) (dflt : V) :
  NoDup (PyDict.keys d) ->
  map (fun k => (k, default dflt (PyDict.get d k))) (PyDict.keys d) = d.
Proof.
  intros Hnd. unfold PyDict.keys. rewrite map_map.
  transitivity (map (fun kv : K * V => kv) d); [|apply map_id].
  apply map_ext_in. intros [k v] Hin. cbn.
  rewrite (get_elem_of d k v); [done|done|]. by apply list_elem_of_In.
Qed.

(** An index, entry by entry: every key in first-seen order with the
    elements that have it, in their order. *)
Lemma index_groups {B} (f : B -> K) (l : list B) :
  fold_left (fun d i => PyDict.append d (f i) i) l [] =
  map (fun k => (k, List.filter (fun i => bool_decide (f i = k)) l))
      (first_seen (map f l)).
Proof.
  set (d := fold_left _ l []).
  assert (Hkeys : PyDict.keys d = first_seen (map f l))
    by apply (keys_index f (fun i => i)).
  rewrite <- (dict_eta d []) by (rewrite Hkeys; apply NoDup_first_seen).
  rewrite Hkeys. apply map_ext. intros k. f_equal.
  pose proof (get_list_index f (fun i => i) l [] k) as Hget.
  cbn beta in Hget. fold d in Hget. rewrite map_id in Hget.
  exact Hget.
Qed.
End FirstSeen.

Lemma group_key_ok (df : DataFrame.t) cols i :
  Forall (fun col => DataFrame.has_column df col = true) cols ->
  GroupedDataFrame.group_key df cols i = Ok (DataFrame.row_key df cols i).
Proof.
  intros Hcols. unfold GroupedDataFrame.group_key, DataFrame.row_key.
  apply mapM_result_ok. intros col Hin.
  rewrite Forall_forall in Hcols. by rewrite (Hcols col Hin).
Qed.

(** The groups: the keys in first-seen order, each with the indices of the
    rows that have it. *)
Lemma build_groups_spec (df : DataFrame.t) cols :
  Forall (fun col => DataFrame.has_column df col = true) cols ->
  GroupedDataFrame._build_groups df cols =
  Ok (map (fun k => (k, List.filter
                          (fun i => bool_decide (DataFrame.row_key df cols i = k))
                          (seq 0 (DataFrame.len df))))
          (first_seen (keys_of cols df))).
Proof.
  intros Hcols. unfold GroupedDataFrame._build_groups.
  rewrite (foldM_ok _ (fun groups i =>
             PyDict.append groups (DataFrame.row_key df cols i) i)).
  - f_equal. apply (index_groups (DataFrame.row_key df cols)).
  - intros groups i _. by rewrite group_key_ok.
Qed.

Lemma zip_keyed {A B} (f : A -> B) (l : list A) :
  zip l (map f l) = map (fun x => (x, f x)) l.
Proof. induction l as [|x l IH]; cbn; [done|]. by rewrite IH. Qed.

Lemma imap_nth_keyed {A B} (f : A -> B) (l : list A) (dflt : B) :
  map (fun p : nat * A => (p.2, nth p.1 (map f l) dflt)) (imap (fun i x => (i, x)) l)
  = map (fun x => (x, f x)) l.
Proof.
  apply list_eq. intros i.
  rewrite <- !fmap_map, !list_lookup_fmap, list_lookup_imap.
  destruct (l !! i) as [x|] eqn:E; cbn; [|done].
  do 2 f_equal. rewrite nth_lookup_default, <- fmap_map, list_lookup_fmap, E. done.
Qed.

Section GroupCount.
Variables np_std np_var : list QArith_base.Q -> QArith_base.Q.
Variables (df : DataFrame.t) (cols : list string) (x : string).
Hypothesis wf_df : wf df.
Hypothesis cols_valid : Forall (fun col => DataFrame.has_column df col = true) cols.
Hypothesis x_valid : DataFrame.has_column df x = true.
Hypothesis names_distinct : NoDup (cols ++ [x]).

Let keys := keys_of cols df.

Lemma agg_group_count g rd key :
  GroupedDataFrame._df g = df ->
  GroupedDataFrame._group_cols g = cols ->
  key ∈ keys ->
  GroupedDataFrame.agg_group np_std np_var g (count_of x) rd
    (key, List.filter (fun i => bool_decide (DataFrame.row_key df cols i = key))
                      (seq 0 (DataFrame.len df)))
  = Ok (append_cells rd (count_row cols x keys key)).
Proof.
  intros Hdf Hcols Hkey. unfold GroupedDataFrame.agg_group, count_of.
  rewrite Hdf, Hcols. cbn [foldM]. rewrite x_valid. cbn [negb].
  unfold DataFrame.apply_funcs. cbn [DataFrame.funcs_of foldM].
  unfold DataFrame._apply_aggregation. cbn [String.eqb Ascii.eqb Bool.eqb].
  cbn [mbind result_bind mret result_ret].
  unfold DataFrame.result_key. cbn [length Nat.ltb Nat.leb].
  f_equal. unfold count_row, append_cells. rewrite fold_left_app. cbn [fold_left fst snd].
  rewrite length_map. f_equal.
  - apply elem_of_keys_of in Hkey as (j & _ & <-).
    unfold DataFrame.row_key at 2. rewrite zip_keyed.
    rewrite <- (imap_nth_keyed (fun col => DataFrame.cell df col j) cols VNone).
    rewrite fold_left_fmap. apply fold_left_ext. by intros a [i col] _.
  - do 2 f_equal. subst keys. unfold keys_of. by rewrite occurrences_map.
Qed.

Lemma count_row_keys key :
  key ∈ keys -> PyDict.keys (count_row cols x keys key) = cols ++ [x].
Proof.
  intros Hkey. apply elem_of_keys_of in Hkey as (j & _ & <-).
  unfold count_row, PyDict.keys, DataFrame.row_key.
  rewrite map_app, zip_keyed, map_map. cbn. by rewrite map_id.
Qed.

(** Grouping and counting returns one row for every key, in first-seen
    order: the key, then the number of rows that have it. *)
Lemma group_count_rows :
  exists g out,
    group_by df cols = Ok g
    /\ GroupedDataFrame.agg np_std np_var g (count_of x) = Ok out
    /\ wf out
    /\ DataFrame.len out = length (first_seen keys)
    /\ rows_of out = map (count_row cols x keys) (first_seen keys).
Proof.
  set (groups := map (fun k => (k, List.filter
                          (fun i => bool_decide (DataFrame.row_key df cols i = k))
                          (seq 0 (DataFrame.len df))))
                     (first_seen keys)).
  exists (GroupedDataFrame.mk df cols groups).
  set (rows := map (count_row cols x keys) (first_seen keys)).
  assert (Hrows : Forall (fun row => PyDict.keys row = cols ++ [x]) rows).
  { apply Forall_forall. intros row Hin. subst rows. rewrite <- fmap_map in Hin.
    apply list_elem_of_fmap in Hin as (k & -> & Hk).
    apply count_row_keys. by apply elem_of_first_seen. }
  destruct (new_table_of (cols ++ [x]) names_distinct rows) as (out & Hnew & Hout).
  { intros _. by destruct cols. }
  { exact Hrows. }
  exists out. split; [|split].
  - unfold group_by, GroupedDataFrame.new. by rewrite build_groups_spec.
  - unfold GroupedDataFrame.agg. cbn [GroupedDataFrame._groups].
    rewrite (foldM_ok _ (fun rd (group : list value * list nat) =>
               append_cells rd (count_row cols x keys group.1))).
    + cbn [mbind result_bind]. rewrite <- Hnew. f_equal.
      rewrite <- (append_rows_table _ names_distinct) by done.
      unfold append_rows, rows, groups. by rewrite !fold_left_fmap.
    + intros rd [key idxs] Hin. subst groups. rewrite <- fmap_map in Hin.
      apply list_elem_of_fmap in Hin as (k & [= -> ->] & Hk).
      apply agg_group_count; [done|done|]. by apply elem_of_first_seen.
  - destruct Hout as (Hwf & Hlen & _ & Hrows_of).
    split; [exact Hwf|]. split; [|exact Hrows_of].
    rewrite Hlen. subst rows. by rewrite length_map.
Qed.
End GroupCount.

(** When the names of the output columns are distinct ([cols] without
    repetition, [x] not among them), grouping by [cols] and counting a
    column [x] returns one row for every distinct tuple of values of
    [cols], in the order in which the tuples are first seen when the rows
    are scanned in their order, each row holding the tuple and the number
    of rows that have it; the counts add up to the number of rows of the
    table.  The table is an instance as the constructor builds it, [cols]
    and [x] are columns of it. *)
Theorem group_count_one_row_per_key
    (np_std np_var : list QArith_base.Q -> QArith_base.Q)
    (df : DataFrame.t) (cols : list string) (x : string) :
  wf df ->
  Forall (fun col => DataFrame.has_column df col = true) cols ->
  DataFrame.has_column df x = true ->
  NoDup (cols ++ [x]) ->
  (exists g out,
      group_by df cols = Ok g
      /\ GroupedDataFrame.agg np_std np_var g (count_of x) = Ok out
      /\ rows_of out = map (count_row cols x (keys_of cols df))
                           (first_seen (keys_of cols df))
      /\ DataFrame.len out = length (first_seen (keys_of cols df)))
  /\ NoDup (first_seen (keys_of cols df))
  /\ (forall k, k ∈ first_seen (keys_of cols df) <-> k ∈ keys_of cols df)
  /\ (forall (l : list (list value)) k,
         first_seen (l ++ [k]) =
         first_seen l ++ (if decide (k ∈ l) then [] else [k]))
  /\ sum_list_with (fun k => occurrences k (keys_of cols df))
                   (first_seen (keys_of cols df)) = DataFrame.len df
  /\ (g ← group_by medals ["NOC"];
      GroupedDataFrame.agg np_std np_var g (count_of "Medal"))
     = Ok (DataFrame.mk [("NOC", [VStr "A"; VStr "B"]);
                         ("Medal", [VInt 2; VInt 1])] 2).
Proof.
  intros Hwf Hcols Hx Hnames. repeat apply conj.
  - destruct (group_count_rows np_std np_var df cols x Hcols Hx Hnames)
      as (g & out & Hg & Hagg & _ & Hlen & Hrows).
    exists g, out. done.
  - apply NoDup_first_seen.
  - intros k. apply elem_of_first_seen.
  - intros l k. apply first_seen_snoc.
  - transitivity (sum_list_with (fun _ : list value => 1) (keys_of cols df)).
    + rewrite (sum_by_key (fun _ => 1)). apply sum_list_with_ext.
      intros k _. lia.
    + assert (Hones : forall l : list (list value),
                 sum_list_with (fun _ => 1) l = length l).
      { induction l as [|k l IH]; cbn; [done|]. by rewrite IH. }
      rewrite Hones. unfold keys_of, DataFrame.len.
      by rewrite length_map, length_seq.
  - vm_compute. reflexivity.
Qed.

Lemma group_count_one_row_per_key_witness :
  exists g out,
    group_by medals ["NOC"] = Ok g
    /\ GroupedDataFrame.agg (fun _ => QArith_base.inject_Z 0)
                            (fun _ => QArith_base.inject_Z 0) g (count_of "Medal")
       = Ok out
    /\ DataFrame.len out = 2.
Proof.
  destruct (group_count_one_row_per_key
              (fun _ => QArith_base.inject_Z 0) (fun _ => QArith_base.inject_Z 0)
              medals ["NOC"] "Medal")
    as ((g & out & Hg & Hagg & _ & Hlen) & _);
    [compute_done|compute_done|reflexivity|compute_done|].
  exists g, out. split; [exact Hg|]. split; [exact Hagg|].
  rewrite Hlen. vm_compute. reflexivity.
Defined.

(** *** Counting a group column *)

(** The cells appended for the groups when the counted column is the group
    column: every key is followed by its count, in the one list. *)
Lemma append_key_and_count (x : string) (keys ks : list (list value))
    (l : list value) :
  Forall (fun k => length k = 1) ks ->
  fold_left (fun rd k => append_cells rd (count_row [x] x keys k)) ks [(x, l)]
  = [(x, l ++ concat (map (fun k => k ++ [VInt (Z.of_nat (occurrences k keys))]) ks))].
Proof.
  revert l. induction ks as [|k ks IH]; intros l Hks.
  - cbn. by rewrite app_nil_r.
  - apply Forall_cons in Hks as [Hk Hks].
    destruct k as [|v [|? ?]]; try done.
    cbn [fold_left]. unfold append_cells at 2, count_row at 2.
    cbn [zip zip_with app fold_left PyDict.append fst snd].
    destruct (decide (x = x)); [|done]. cbn [PyDict.append].
    destruct (decide (x = x)); [|done]. rewrite IH by done.
    cbn [map concat app]. by rewrite <- !app_assoc.
Qed.

(** C8 fails when the counted column is a group column.  Grouping a table
    with at least one row by a column [x] of it and counting [x] itself
    returns one column, in which every key is followed by its count: two
    rows for every distinct value of [x], not one.  With a second group
    column the lists appended to differ in length, and the constructor
    raises.  The table is an instance as the constructor builds it. *)
Theorem group_count_of_group_column_doubles_rows
    (np_std np_var : list QArith_base.Q -> QArith_base.Q)
    (df : DataFrame.t) (x : string) :
  wf df ->
  DataFrame.has_column df x = true ->
  0 < DataFrame.len df ->
  (exists g out,
      group_by df [x] = Ok g
      /\ GroupedDataFrame.agg np_std np_var g (count_of x) = Ok out
      /\ DataFrame._data out =
         [(x, concat (map (fun k => k ++ [VInt (Z.of_nat (occurrences k (keys_of [x] df)))])
                          (first_seen (keys_of [x] df))))]
      /\ DataFrame.len out = 2 * length (first_seen (keys_of [x] df))
      /\ DataFrame.len out <> length (first_seen (keys_of [x] df)))
  /\ (g ← group_by medals ["NOC"];
      GroupedDataFrame.agg np_std np_var g (count_of "NOC"))
     = Ok (DataFrame.mk [("NOC", [VStr "A"; VInt 2; VStr "B"; VInt 1])] 4)
  /\ (g ← group_by medals ["NOC"; "Medal"];
      GroupedDataFrame.agg np_std np_var g (count_of "NOC"))
     = Err (ValueError "All columns must have the same length").
Proof.
  intros Hwf Hx Hlen. split; [|split; vm_compute; reflexivity].
  set (keys := keys_of [x] df).
  set (groups := map (fun k => (k, List.filter
                          (fun i => bool_decide (DataFrame.row_key df [x] i = k))
                          (seq 0 (DataFrame.len df))))
                     (first_seen keys)).
  set (cells := concat (map (fun k => k ++ [VInt (Z.of_nat (occurrences k keys))])
                            (first_seen keys))).
  assert (Hcols : Forall (fun col => DataFrame.has_column df col = true) [x])
    by by constructor.
  assert (Hone : Forall (fun k : list value => length k = 1) (first_seen keys)).
  { apply Forall_forall. intros k Hk.
    apply (proj1 (elem_of_first_seen _ _)) in Hk.
    by apply elem_of_keys_of in Hk as (i & _ & <-). }
  assert (Hne : first_seen keys <> []).
  { intros Hnil.
    assert (Hin : DataFrame.row_key df [x] 0 ∈ first_seen keys).
    { apply elem_of_first_seen. apply elem_of_keys_of. exists 0. by split. }
    rewrite Hnil in Hin. by apply elem_of_nil in Hin. }
  assert (Hcells : length cells = 2 * length (first_seen keys)).
  { subst cells. clear Hne. induction Hone as [|k ks Hk _ IH]; [done|].
    cbn [map concat length]. rewrite !length_app, IH, Hk. cbn. lia. }
  exists (GroupedDataFrame.mk df [x] groups), (DataFrame.mk [(x, cells)] (length cells)).
  split; [|split; [|split; [done|split]]].
  - unfold group_by, GroupedDataFrame.new. by rewrite build_groups_spec.
  - unfold GroupedDataFrame.agg. cbn [GroupedDataFrame._groups].
    rewrite (foldM_ok _ (fun rd (group : list value * list nat) =>
               append_cells rd (count_row [x] x keys group.1))).
    + cbn [mbind result_bind]. subst groups. rewrite fold_left_fmap.
      cbn [fst].
      destruct (first_seen keys) as [|k ks] eqn:Hks; [done|].
      apply Forall_cons in Hone as [Hk Hone].
      destruct k as [|v [|? ?]]; try done.
      cbn [fold_left]. unfold append_cells at 2, count_row at 2.
      cbn [zip zip_with app fold_left PyDict.append fst snd].
      destruct (decide (x = x)); [|done]. rewrite append_key_and_count by done.
      subst cells. cbn [map concat app].
      unfold DataFrame.new. cbn [map snd length hd].
      assert (Hsize : forall n : nat, size (list_to_set [n] : gset nat) = 1).
      { intros n. cbn [list_to_set]. rewrite union_empty_r_L. apply size_singleton. }
      by rewrite Hsize.
    + intros rd [key idxs] Hin. subst groups. rewrite <- fmap_map in Hin.
      apply list_elem_of_fmap in Hin as (k & [= -> ->] & Hk).
      cbn [fst]. subst keys.
      apply (agg_group_count np_std np_var df [x] x Hx); [done|done|].
      by apply elem_of_first_seen.
  - exact Hcells.
  - unfold DataFrame.len. cbn [DataFrame._length]. rewrite Hcells.
    destruct (first_seen keys); [done|cbn; lia].
Qed.

Lemma group_count_of_group_column_doubles_rows_witness :
  exists g out,
    group_by medals ["NOC"] = Ok g
    /\ GroupedDataFrame.agg np_zero np_zero g (count_of "NOC") = Ok out
    /\ DataFrame._data out = [("NOC", [VStr "A"; VInt 2; VStr "B"; VInt 1])]
    /\ DataFrame.len out = 4.
Proof.
  destruct (group_count_of_group_column_doubles_rows np_zero np_zero medals "NOC")
    as ((g & out & Hg & Hagg & Hdata & Hlen & _) & _);
    [compute_done|reflexivity|vm_compute; lia|].
  exists g, out. split; [exact Hg|]. split; [exact Hagg|]. split.
  - rewrite Hdata. vm_compute. reflexivity.
  - rewrite Hlen. vm_compute. reflexivity.
Defined.

(** ** Aggregators *)

Lemma py_sum_type_error (values : list value) (acc : QArith_base.Q) :
  Exists (fun v => is_numeric v = false) values ->
  is_type_error (foldM py_add values (VNum acc)).
Proof.
  intros Hex. revert acc. induction Hex as [v values Hv|v values _ IH]; intros acc.
  - destruct v; [|done|]; cbn; by eexists.
  - destruct v; cbn; [by eexists|apply IH|by eexists].
Qed.

Lemma py_sum_ok_or_type_error (values : list value) (acc : QArith_base.Q) :
  (exists q, foldM py_add values (VNum acc) = Ok (VNum q))
  \/ is_type_error (foldM py_add values (VNum acc)).
Proof.
  revert acc. induction values as [|v values IH]; intros acc; cbn.
  - left. by eexists.
  - destruct v; cbn; [right; by eexists|apply IH|right; by eexists].
Qed.

Lemma numbers_of_non_numeric (values : list value) :
  Exists (fun v => is_numeric v = false) values ->
  DataFrame.numbers_of values = None.
Proof.
  intros Hex. unfold DataFrame.numbers_of. apply mapM_None_2.
  eapply Exists_impl; [exact Hex|]. intros v Hv. by destruct v.
Qed.

Section Aggregators.
Variables np_std np_var : list QArith_base.Q -> QArith_base.Q.

Lemma summing_cases name :
  name ∈ summing -> name = "sum" \/ name = "mean" \/ name = "std" \/ name = "var".
Proof.
  unfold summing. rewrite !elem_of_cons, elem_of_nil. tauto.
Qed.

(** [sum], [mean], [std] and [var] raise a [TypeError] on values that are
    not all numbers. *)
Lemma summing_type_error values name :
  name ∈ summing ->
  Exists (fun v => is_numeric v = false) values ->
  is_type_error (DataFrame._apply_aggregation np_std np_var values
                   (DataFrame.Named name)).
Proof.
  intros Hname Hex.
  assert (Hlen : (0 <? length values) = true).
  { apply Nat.ltb_lt. destruct Hex; cbn; lia. }
  apply summing_cases in Hname as [-> | [-> | [-> | ->]]];
    unfold DataFrame._apply_aggregation; cbn [String.eqb Ascii.eqb Bool.eqb].
  - by apply py_sum_type_error.
  - rewrite Hlen. unfold py_sum, VInt.
    destruct (py_sum_type_error values (QArith_base.inject_Z 0) Hex) as [msg ->].
    cbn. by eexists.
  - rewrite Hlen. unfold DataFrame.numpy_reduce.
    rewrite numbers_of_non_numeric by done. by eexists.
  - rewrite Hlen. unfold DataFrame.numpy_reduce.
    rewrite numbers_of_non_numeric by done. by eexists.
Qed.


(** Through [agg] on the whole table. *)
Lemma agg_type_error (df : DataFrame.t) col name :
  name ∈ summing ->
  DataFrame.has_column df col = true ->
  Exists (fun v => is_numeric v = false) (PyDict.get_list (DataFrame._data df) col) ->
  is_type_error (DataFrame.agg np_std np_var df (one_agg col name)).
Proof.
  intros Hname Hcol Hex. unfold DataFrame.agg, one_agg. cbn [foldM].
  rewrite Hcol. cbn [negb]. unfold DataFrame.apply_funcs.
  cbn [DataFrame.funcs_of foldM].
  destruct (summing_type_error _ name Hname Hex) as [msg ->].
  by eexists.
Qed.
End Aggregators.


Lemma mem_get {K V} `{EqDecision K} (d : list (K * V)) k :
  PyDict.mem d k = true -> exists v, PyDict.get d k = Some v /\ (k, v) ∈ d.
Proof.
  induction d as [|[k' v'] d IH]; cbn; [done|].
  destruct (decide (k' = k)) as [->|Hne].
  - intros _. exists v'. split; [done|left].
  - intros Hmem. destruct (IH Hmem) as (v & Hget & Hin).
    exists v. split; [done|by right].
Qed.

Section GroupedAggregators.
Variables np_std np_var : list QArith_base.Q -> QArith_base.Q.
Variables (df : DataFrame.t) (cols : list string) (col name : string).
Hypothesis wf_df : wf df.
Hypothesis cols_valid : Forall (fun c => DataFrame.has_column df c = true) cols.
Hypothesis col_valid : DataFrame.has_column df col = true.
Hypothesis name_summing : name ∈ summing.


End GroupedAggregators.

(** *** [min] and [max] *)






Section MinMax.
(** The step of the loop of [min] ([swap] false) and of [max] ([swap]
    true). *)
Let step (swap : bool) := fun (best item : value) =>
  lt ← (if swap then py_lt best item else py_lt item best);
  mret (if lt : bool then item else best).










End MinMax.

Section Comparing.
Variables np_std np_var : list QArith_base.Q -> QArith_base.Q.






End Comparing.

(** *** [min] and [max] of strings through [agg] *)

Lemma wf_get_list (self : DataFrame.t) col :
  wf self -> DataFrame.has_column self col = true ->
  length (PyDict.get_list (DataFrame._data self) col) = DataFrame._length self.
Proof.
  intros (_ & Hlen & _) Hcol. apply mem_get in Hcol as (cells & Hget & Hin).
  unfold PyDict.get_list. rewrite Hget. cbn [default from_option id].
  rewrite Forall_forall in Hlen. exact (Hlen _ Hin).
Qed.

Section GroupedAgg.
Variables np_std np_var : list QArith_base.Q -> QArith_base.Q.
Variables (df : DataFrame.t) (cols : list string).
Hypothesis cols_valid : Forall (fun col => DataFrame.has_column df col = true) cols.

(** The group columns of one group. *)
Lemma group_cells (rd : list (string * list value)) key :
  key ∈ keys_of cols df ->
  fold_left (fun rd '(i, col) => PyDict.append rd col (nth i key VNone))
            (imap (fun i col => (i, col)) cols) rd
  = append_cells rd (zip cols key).
Proof.
  intros Hkey. apply elem_of_keys_of in Hkey as (j & _ & <-).
  unfold DataFrame.row_key, append_cells. rewrite zip_keyed.
  rewrite <- (imap_nth_keyed (fun col => DataFrame.cell df col j) cols VNone).
  rewrite fold_left_fmap. apply fold_left_ext. by intros a [i col] _.
Qed.

(** One group under one aggregator of one column. *)
Lemma agg_group_single g rd key x func :
  GroupedDataFrame._df g = df ->
  GroupedDataFrame._group_cols g = cols ->
  DataFrame.has_column df x = true ->
  key ∈ keys_of cols df ->
  GroupedDataFrame.agg_group np_std np_var g [(x, DataFrame.Single func)] rd
    (key, List.filter (fun i => bool_decide (DataFrame.row_key df cols i = key))
                      (seq 0 (DataFrame.len df)))
  = (v ← DataFrame._apply_aggregation np_std np_var (group_values df cols x key) func;
     mret (append_cells rd (agg_row cols x key v))).
Proof.
  intros Hdf Hcols Hx Hkey. unfold GroupedDataFrame.agg_group.
  rewrite Hdf, Hcols, group_cells by done. cbn [foldM]. rewrite Hx. cbn [negb].
  unfold DataFrame.apply_funcs. cbn [DataFrame.funcs_of foldM].
  fold (group_values df cols x key).
  destruct (DataFrame._apply_aggregation np_std np_var (group_values df cols x key) func)
    as [v|e]; [|done].
  cbn [mbind result_bind mret result_ret].
  unfold DataFrame.result_key. cbn [length Nat.ltb Nat.leb].
  f_equal. unfold agg_row, append_cells. by rewrite fold_left_app.
Qed.

(** No aggregation at all: the group columns alone. *)
Lemma agg_group_none g rd key indices :
  GroupedDataFrame._df g = df ->
  GroupedDataFrame._group_cols g = cols ->
  key ∈ keys_of cols df ->
  GroupedDataFrame.agg_group np_std np_var g [] rd (key, indices)
  = Ok (append_cells rd (zip cols key)).
Proof.
  intros Hdf Hcols Hkey. unfold GroupedDataFrame.agg_group.
  by rewrite Hcols, group_cells.
Qed.

Lemma zip_key_keys key :
  key ∈ keys_of cols df -> PyDict.keys (zip cols key) = cols.
Proof.
  intros (j & _ & <-)%elem_of_keys_of.
  unfold PyDict.keys, DataFrame.row_key. rewrite zip_keyed, map_map. cbn.
  by rewrite map_id.
Qed.
End GroupedAgg.




Section ComparingStrings.
Variables np_std np_var : list QArith_base.Q -> QArith_base.Q.



End ComparingStrings.




(** * More properties *)

(** ** The tokenizer on written records *)

Lemma is_char_single (c a : ascii) : is_char c (String a EmptyString) = Ascii.eqb c a.
Proof. unfold is_char. cbn. by destruct (Ascii.eqb c a). Qed.

Lemma string_app_cons (c : ascii) (s1 s2 : string) :
  String c s1 +:+ s2 = String c (s1 +:+ s2).
Proof. reflexivity. Qed.

Lemma string_app_nil (s : string) : EmptyString +:+ s = s.
Proof. reflexivity. Qed.

Lemma string_app_assoc (s1 s2 s3 : string) : (s1 +:+ s2) +:+ s3 = s1 +:+ (s2 +:+ s3).
Proof.
  induction s1 as [|c s1 IH]; [done|].
  by rewrite !string_app_cons, IH.
Qed.

Lemma string_app_nil_r (s : string) : s +:+ EmptyString = s.
Proof. induction s as [|c s IH]; [done|]. by rewrite string_app_cons, IH. Qed.

Section WrittenRecords.
Variables d q : ascii.
Hypothesis d_not_q : d <> q.
Hypothesis d_no_terminator : is_terminator d = false.
Hypothesis q_no_terminator : is_terminator q = false.

Lemma scan_plain s rest rows row fc :
  plain d q s = true ->
  scan (String d EmptyString) (String q EmptyString) (s +:+ rest) rows row fc false =
  scan (String d EmptyString) (String q EmptyString) rest rows row (fc ++ list_ascii_of_string s) false.
Proof.
  revert fc. induction s as [|c s IH]; intros fc Hplain.
  - rewrite string_app_nil. cbn. by rewrite app_nil_r.
  - cbn in Hplain. apply andb_prop in Hplain as [Hc Hs].
    unfold plain_char in Hc.
    apply andb_prop in Hc as [Hc Hlf]. apply andb_prop in Hc as [Hc Hcr].
    apply andb_prop in Hc as [Hq Hd].
    apply negb_true_iff in Hq, Hd, Hcr, Hlf.
    rewrite string_app_cons. cbn [scan]. rewrite !is_char_single, Hq, Hd, Hcr, Hlf.
    cbn [orb]. rewrite IH by done. cbn [list_ascii_of_string].
    by rewrite <- app_assoc.
Qed.

Lemma scan_quoted s rest rows row fc :
  no_quote_ahead q rest ->
  scan (String d EmptyString) (String q EmptyString) (escape q s +:+ String q rest) rows row fc true =
  scan (String d EmptyString) (String q EmptyString) rest rows row (fc ++ list_ascii_of_string s) false.
Proof.
  intros Hrest. revert fc. induction s as [|c s IH]; intros fc; cbn [escape].
  - rewrite string_app_nil. cbn [scan]. rewrite is_char_single, Ascii.eqb_refl.
    cbn [list_ascii_of_string]. rewrite app_nil_r.
    destruct rest as [|nxt rest']; [done|].
    rewrite is_char_single. cbn in Hrest.
    by rewrite (proj2 (Ascii.eqb_neq nxt q) Hrest).
  - destruct (Ascii.eqb c q) eqn:E.
    + apply Ascii.eqb_eq in E as ->. rewrite !string_app_cons. cbn [scan].
      rewrite !is_char_single, Ascii.eqb_refl.
      rewrite IH. cbn [list_ascii_of_string].
      by rewrite <- app_assoc.
    + rewrite string_app_cons. cbn [scan]. rewrite is_char_single, E.
      rewrite IH. cbn [list_ascii_of_string].
      by rewrite <- app_assoc.
Qed.

(** A written field is read into the field buffer. *)
Lemma scan_field f rest rows row :
  writable d q f = true ->
  no_quote_ahead q rest ->
  scan (String d EmptyString) (String q EmptyString) (write_field q f +:+ rest) rows row [] false =
  scan (String d EmptyString) (String q EmptyString) rest rows row (list_ascii_of_string f.2) false.
Proof.
  destruct f as [[|] s]; unfold writable, write_field; cbn [fst snd orb].
  - intros _ Hrest. rewrite string_app_cons. cbn [scan].
    rewrite is_char_single, Ascii.eqb_refl. cbn [bool_decide negb].
    rewrite bool_decide_eq_true_2 by done. cbn [negb].
    rewrite string_app_assoc, string_app_cons, string_app_nil.
    by rewrite scan_quoted.
  - intros Hplain _. by rewrite scan_plain.
Qed.

Lemma d_is_not_quote : is_char d (String q EmptyString) = false.
Proof. rewrite is_char_single. by apply Ascii.eqb_neq. Qed.

Lemma terminator_is_not_quote ch :
  is_terminator ch = true -> is_char ch (String q EmptyString) = false.
Proof.
  intros Hch. rewrite is_char_single. apply Ascii.eqb_neq. intros ->. congruence.
Qed.

Lemma terminator_is_not_delimiter ch :
  is_terminator ch = true -> is_char ch (String d EmptyString) = false.
Proof.
  intros Hch. rewrite is_char_single. apply Ascii.eqb_neq. intros ->. congruence.
Qed.

(** The fields of a record are read one by one; the last one is left in
    the field buffer. *)
Lemma scan_fields f fields rest rows row :
  forallb (writable d q) (f :: fields) = true ->
  no_quote_ahead q rest ->
  scan (String d EmptyString) (String q EmptyString)
       (write_fields d q (f :: fields) +:+ rest) rows row [] false =
  scan (String d EmptyString) (String q EmptyString) rest rows
       (row ++ removelast (map snd (f :: fields)))
       (list_ascii_of_string (List.last (map snd (f :: fields)) EmptyString)) false.
Proof.
  revert f row. induction fields as [|g fields IH]; intros f row Hw Hrest.
  - cbn in Hw. rewrite andb_true_r in Hw.
    cbn [write_fields map removelast List.last]. rewrite app_nil_r.
    by apply scan_field.
  - cbn [forallb] in Hw. apply andb_prop in Hw as [Hf Hw].
    change (write_fields d q (f :: g :: fields))
      with (write_field q f +:+ String d (write_fields d q (g :: fields))).
    rewrite string_app_assoc, string_app_cons.
    rewrite scan_field by (done || (cbn; congruence)).
    cbn [scan]. rewrite d_is_not_quote, is_char_single, Ascii.eqb_refl.
    rewrite IH by done.
    unfold join_chars. rewrite string_of_list_ascii_of_string.
    change (map snd (f :: g :: fields)) with (f.2 :: map snd (g :: fields)).
    change (removelast (f.2 :: map snd (g :: fields)))
      with (f.2 :: removelast (map snd (g :: fields))).
    change (List.last (f.2 :: map snd (g :: fields)) EmptyString)
      with (List.last (map snd (g :: fields)) EmptyString).
    by rewrite <- app_assoc.
Qed.

Lemma removelast_last_snd (row : list written_field) :
  row <> [] ->
  removelast (map snd row) ++ [List.last (map snd row) EmptyString] = map snd row.
Proof.
  intros Hne. symmetry. apply app_removelast_last. by destruct row.
Qed.

(** A written record begins neither with a line feed nor, being kept, with
    nothing. *)
Lemma written_row_head row rest :
  written_row_ok d q row = true ->
  exists c s, write_fields d q row +:+ rest = String c s /\ c <> LF.
Proof.
  unfold written_row_ok. intros [Hw Hk]%andb_prop.
  assert (d <> LF) as HdLF.
  { intros ->. by cbv in d_no_terminator. }
  assert (q <> LF) as HqLF.
  { intros ->. by cbv in q_no_terminator. }
  destruct row as [|[b s] fields]; [by cbv in Hk|].
  destruct b.
  - destruct fields as [|g fields]; cbn [write_fields write_field fst snd];
      rewrite ?string_app_cons; eauto.
  - cbn [forallb] in Hw. apply andb_prop in Hw as [Hs _].
    unfold writable in Hs. cbn [fst snd orb] in Hs.
    destruct s as [|c s].
    + destruct fields as [|g fields].
      * by cbv in Hk.
      * change (write_fields d q ((false, EmptyString) :: g :: fields))
          with (EmptyString +:+ String d (write_fields d q (g :: fields))).
        rewrite string_app_nil, string_app_cons. eauto.
    + cbn [plain] in Hs. apply andb_prop in Hs as [Hc _].
      unfold plain_char in Hc. apply andb_prop in Hc as [_ Hlf].
      apply negb_true_iff, Ascii.eqb_neq in Hlf.
      destruct fields as [|g fields]; cbn [write_fields write_field fst snd];
        rewrite ?string_app_cons; eauto.
Qed.

(** One record and its terminator. *)
Lemma scan_row t row rest rows :
  t ∈ terminators ->
  written_row_ok d q row = true ->
  no_quote_ahead LF rest ->
  scan (String d EmptyString) (String q EmptyString)
       (write_fields d q row +:+ t +:+ rest) rows [] [] false =
  scan (String d EmptyString) (String q EmptyString) rest
       (rows ++ [map snd row]) [] [] false.
Proof.
  intros Ht Hok Hrest. pose proof Hok as [Hw Hk]%andb_prop.
  destruct row as [|f fields]; [by cbv in Hk|].
  assert (exists ch t', t = String ch t' /\ is_terminator ch = true
                        /\ after_terminator ch (t' +:+ rest) = rest)
    as (ch & t' & -> & Hch & Hafter).
  { unfold terminators in Ht. apply elem_of_cons in Ht as [-> | Ht];
      [|apply elem_of_cons in Ht as [-> | Ht]; [|apply list_elem_of_singleton in Ht as ->]].
    - exists LF, EmptyString. rewrite string_app_nil. split; [done|]. split; [done|].
      by destruct rest.
    - exists CR, (String LF EmptyString). by rewrite string_app_cons, string_app_nil.
    - exists CR, EmptyString. rewrite string_app_nil. split; [done|]. split; [done|].
      destruct rest as [|c rest']; [done|]. cbn in Hrest. unfold after_terminator.
      by rewrite (proj2 (Ascii.eqb_neq c LF) Hrest). }
  rewrite scan_fields; [|done|].
  2:{ rewrite string_app_cons. cbn. intros ->. congruence. }
  rewrite string_app_cons.
  rewrite scan_terminator
    by auto using terminator_is_not_quote, terminator_is_not_delimiter.
  unfold join_chars. rewrite string_of_list_ascii_of_string.
  rewrite app_nil_l, removelast_last_snd by done.
  by rewrite Hk, Hafter.
Qed.

(** All the records of a text. *)
Lemma scan_rows t rows0 rest rows :
  t ∈ terminators ->
  forallb (written_row_ok d q) rows0 = true ->
  no_quote_ahead LF rest ->
  scan (String d EmptyString) (String q EmptyString)
       (write_rows d q t rows0 +:+ rest) rows [] [] false =
  scan (String d EmptyString) (String q EmptyString) rest
       (rows ++ contents rows0) [] [] false.
Proof.
  intros Ht. revert rows. induction rows0 as [|row rows0 IH]; intros rows Hok Hrest.
  - cbn [write_rows contents map]. by rewrite string_app_nil, app_nil_r.
  - cbn [forallb] in Hok. apply andb_prop in Hok as [Hrow Hok].
    cbn [write_rows]. rewrite !string_app_assoc.
    rewrite scan_row; [|done|done|].
    + rewrite IH by done. unfold contents. cbn [map]. by rewrite <- app_assoc.
    + destruct rows0 as [|row' rows0']; [by rewrite string_app_nil|].
      cbn [forallb] in Hok. apply andb_prop in Hok as [Hrow' _].
      cbn [write_rows]. rewrite !string_app_assoc.
      destruct (written_row_head row' (t +:+ write_rows d q t rows0' +:+ rest) Hrow')
        as (c & s & -> & Hc).
      exact Hc.
Qed.

(** The record left at the end of the text, without terminator. *)
Lemma scan_last_row row rows :
  written_row_ok d q row = true ->
  scan (String d EmptyString) (String q EmptyString)
       (write_fields d q row) rows [] [] false = Ok (rows ++ [map snd row]).
Proof.
  intros Hok. pose proof Hok as [Hw Hk]%andb_prop.
  destruct row as [|f fields]; [by cbv in Hk|].
  rewrite <- (string_app_nil_r (write_fields d q (f :: fields))).
  rewrite scan_fields by done.
  cbn [scan]. unfold finalize, join_chars.
  rewrite string_of_list_ascii_of_string, app_nil_l, removelast_last_snd by done.
  destruct fields as [|g fields].
  - cbn [map] in Hk. rewrite keep_row_single in Hk. cbn [map List.last removelast].
    destruct f.2 as [|c s]; [by cbv in Hk|]. done.
  - change (removelast (map snd (f :: g :: fields)))
      with (f.2 :: removelast (map snd (g :: fields))).
    rewrite (bool_decide_eq_false_2 (_ :: _ = [])) by done.
    by rewrite orb_true_r.
Qed.

(** Inside quotes, a text whose quotes are all doubled never closes the
    field. *)
Lemma scan_open_quote s rows row fc :
  scan (String d EmptyString) (String q EmptyString) (escape q s) rows row fc true =
  Err (ValueError "Unterminated quoted field at end of input").
Proof.
  revert fc. induction s as [|c s IH]; intros fc; [done|].
  cbn [escape]. destruct (Ascii.eqb c q) eqn:E.
  - cbn [scan]. by rewrite !is_char_single, Ascii.eqb_refl, IH.
  - cbn [scan]. by rewrite is_char_single, E, IH.
Qed.

(** A quote met after plain characters of a field. *)
Lemma scan_stray_quote s rest rows row fc :
  plain d q s = true ->
  fc ++ list_ascii_of_string s <> [] ->
  scan (String d EmptyString) (String q EmptyString) (s +:+ String q rest)
       rows row fc false =
  Err (ValueError "Unexpected quote inside unquoted field").
Proof.
  intros Hs Hne. rewrite scan_plain by done. cbn [scan].
  rewrite is_char_single, Ascii.eqb_refl.
  by rewrite bool_decide_eq_false_2.
Qed.
End WrittenRecords.

(** X1: records written with a one-character delimiter and quote (two
    different characters, neither a carriage return nor a line feed), every
    field either plain or between quotes with its quotes doubled, each
    record followed by LF, CRLF or CR, are read back by the tokenizer as
    they were written: the same records, the same fields, in order.  This
    holds for every record the tokenizer keeps, that is every record other
    than a single empty field. *)
Theorem written_records_read_back (d q : ascii) (t : string)
    (rows : list (list written_field)) :
  d <> q ->
  is_terminator d = false ->
  is_terminator q = false ->
  t ∈ terminators ->
  forallb (written_row_ok d q) rows = true ->
  _parse_csv (write_rows d q t rows) (String d EmptyString) (String q EmptyString)
  = Ok (contents rows).
Proof.
  intros Hdq Hd Hq Ht Hrows. unfold _parse_csv.
  rewrite <- (string_app_nil_r (write_rows d q t rows)).
  by rewrite scan_rows.
Qed.

Lemma written_records_read_back_witness :
  _parse_csv (write_rows ","%char DQUOTE (String CR nl) written_example) "," dq
  = Ok [["id"; "a," +:+ dq +:+ "b" +:+ nl]; [""; "x"]; [""; "y z"]].
Proof.
  apply (written_records_read_back ","%char DQUOTE (String CR nl) written_example);
    [discriminate|reflexivity|reflexivity|compute_done|reflexivity].
Defined.

(** X2: the last record of a text needs no terminator: written records
    followed by one more record, not terminated, are read back as all of
    them. *)
Theorem last_record_needs_no_terminator (d q : ascii) (t : string)
    (rows : list (list written_field)) (last : list written_field) :
  d <> q ->
  is_terminator d = false ->
  is_terminator q = false ->
  t ∈ terminators ->
  forallb (written_row_ok d q) rows = true ->
  written_row_ok d q last = true ->
  _parse_csv (write_rows d q t rows +:+ write_fields d q last)
             (String d EmptyString) (String q EmptyString)
  = Ok (contents (rows ++ [last])).
Proof.
  intros Hdq Hd Hq Ht Hrows Hlast. unfold _parse_csv.
  rewrite scan_rows; try done.
  - rewrite scan_last_row by done. unfold contents. by rewrite map_app.
  - destruct (written_row_head d q Hdq Hd Hq last EmptyString Hlast) as (c & s & Hcs & Hc).
    rewrite string_app_nil_r in Hcs. by rewrite Hcs.
Qed.

Lemma last_record_needs_no_terminator_witness :
  _parse_csv (write_rows ","%char DQUOTE nl written_example +:+ "p,q") "," dq
  = Ok [["id"; "a," +:+ dq +:+ "b" +:+ nl]; [""; "x"]; [""; "y z"]; ["p"; "q"]].
Proof.
  apply (last_record_needs_no_terminator ","%char DQUOTE nl written_example
           [(false, "p"); (false, "q")]);
    [discriminate|reflexivity|reflexivity|compute_done|reflexivity|reflexivity].
Defined.

(** X3: a quote that opens a field and is never closed makes the tokenizer
    raise ValueError, whatever records precede it and whatever follows the
    quote, as long as every quote that follows is doubled; none of the
    records read before is returned. *)
Theorem unterminated_quote_raises (d q : ascii) (t : string)
    (rows : list (list written_field)) (s : string) :
  d <> q ->
  is_terminator d = false ->
  is_terminator q = false ->
  t ∈ terminators ->
  forallb (written_row_ok d q) rows = true ->
  _parse_csv (write_rows d q t rows +:+ String q (escape q s))
             (String d EmptyString) (String q EmptyString)
  = Err (ValueError "Unterminated quoted field at end of input").
Proof.
  intros Hdq Hd Hq Ht Hrows. unfold _parse_csv.
  rewrite scan_rows; try done.
  - cbn [scan]. rewrite is_char_single, Ascii.eqb_refl. cbn.
    by apply scan_open_quote.
  - cbn. intros ->. by cbv in Hq.
Qed.

Lemma unterminated_quote_raises_witness :
  _parse_csv (write_rows ","%char DQUOTE nl written_example +:+ dq +:+ "b,c" +:+ nl) "," dq
  = Err (ValueError "Unterminated quoted field at end of input").
Proof.
  apply (unterminated_quote_raises ","%char DQUOTE nl written_example ("b,c" +:+ nl));
    [discriminate|reflexivity|reflexivity|compute_done|reflexivity].
Defined.

(** X4: a quote met after one or more plain characters of an unquoted
    field makes the tokenizer raise ValueError, whatever records precede
    the field and whatever follows the quote. *)
Theorem quote_inside_unquoted_field_raises (d q : ascii) (t : string)
    (rows : list (list written_field)) (s rest : string) :
  d <> q ->
  is_terminator d = false ->
  is_terminator q = false ->
  t ∈ terminators ->
  forallb (written_row_ok d q) rows = true ->
  plain d q s = true ->
  s <> EmptyString ->
  _parse_csv (write_rows d q t rows +:+ s +:+ String q rest)
             (String d EmptyString) (String q EmptyString)
  = Err (ValueError "Unexpected quote inside unquoted field").
Proof.
  intros Hdq Hd Hq Ht Hrows Hs Hne. unfold _parse_csv.
  rewrite scan_rows; try done.
  - apply scan_stray_quote; [done|]. by destruct s.
  - destruct s as [|c s]; [done|]. rewrite string_app_cons. cbn.
    cbn [plain] in Hs. apply andb_prop in Hs as [Hc _].
    unfold plain_char in Hc. apply andb_prop in Hc as [_ Hlf].
    by apply negb_true_iff, Ascii.eqb_neq in Hlf.
Qed.

Lemma quote_inside_unquoted_field_raises_witness :
  _parse_csv (write_rows ","%char DQUOTE nl written_example +:+ "ab" +:+ dq +:+ "c" +:+ dq) "," dq
  = Err (ValueError "Unexpected quote inside unquoted field").
Proof.
  apply (quote_inside_unquoted_field_raises ","%char DQUOTE nl written_example "ab"
           ("c" +:+ dq));
    [discriminate|reflexivity|reflexivity|compute_done|reflexivity|reflexivity
    |discriminate].
Defined.

(** ** Dictionary comprehensions *)

Section Comprehension.
Context {K V : Type} `{EqDecision K}.

Lemma keys_set (d : list (K * V)) k v :
  PyDict.keys (PyDict.set d k v) =
  if decide (k ∈ PyDict.keys d) then PyDict.keys d else PyDict.keys d ++ [k].
Proof.
  unfold PyDict.keys. induction d as [|[k' v'] d IH]; cbn.
  - rewrite decide_False by apply not_elem_of_nil. done.
  - destruct (decide (k' = k)) as [->|Hne]; cbn.
    + by rewrite decide_True by left.
    + rewrite IH. destruct (decide (k ∈ map fst d)) as [Hin|Hnotin].
      * by rewrite decide_True by (by right).
      * rewrite decide_False; [done|]. intros [?|?]%elem_of_cons; congruence.
Qed.

Lemma set_same (d : list (K * V)) k v :
  PyDict.get d k = Some v -> PyDict.set d k v = d.
Proof.
  induction d as [|[k' v'] d IH]; cbn; [done|].
  destruct (decide (k' = k)) as [->|Hne].
  - by intros [= ->].
  - intros Hget. by rewrite IH.
Qed.

(** [{k: f(k) for k in ks}]: the distinct keys in first-seen order, each
    with its value. *)
Lemma dict_comprehension (f : K -> V) (ks : list K) :
  fold_left (fun d k => PyDict.set d k (f k)) ks [] =
  map (fun k => (k, f k)) (first_seen ks).
Proof.
  induction ks as [|x ks IH] using rev_ind; [done|].
  rewrite fold_left_app. cbn [fold_left]. rewrite IH, first_seen_snoc.
  destruct (decide (x ∈ ks)) as [Hin|Hnotin].
  - rewrite app_nil_r. apply set_same, get_keyed. by apply elem_of_first_seen.
  - rewrite set_fresh, map_app; [done|].
    rewrite keys_keyed. by rewrite elem_of_first_seen.
Qed.

(** The keys after a run of assignments to the empty dictionary. *)
Lemma keys_set_all (kvs : list (K * V)) :
  PyDict.keys (fold_left (fun d kv => PyDict.set d kv.1 kv.2) kvs []) =
  first_seen kvs.*1.
Proof.
  induction kvs as [|[k v] kvs IH] using rev_ind; [done|].
  rewrite fold_left_app. cbn [fold_left fst snd]. rewrite keys_set, IH.
  rewrite fmap_app. cbn [fmap list_fmap]. rewrite first_seen_snoc.
  destruct (decide (k ∈ first_seen kvs.*1)) as [Hin|Hnotin].
  - rewrite decide_True; [by rewrite app_nil_r|]. by apply elem_of_first_seen.
  - rewrite decide_False; [done|]. by rewrite <- elem_of_first_seen.
Qed.
End Comprehension.

(** ** Loading a file *)

Lemma set_all_zip_first_seen (header padded : list string) :
  length padded = length header ->
  PyDict.keys (set_all (zip header padded) []) = first_seen header.
Proof.
  intros Hlen. unfold set_all. rewrite keys_set_all. by rewrite fst_zip by lia.
Qed.

Lemma read_csv_with_header_spec text delimiter quote_char :
  read_csv text delimiter quote_char true =
  (dict_rows ← read_csv_with_header text delimiter quote_char;
   mret (DictRows dict_rows)).
Proof.
  unfold read_csv, read_csv_with_header.
  destruct (_parse_csv text delimiter quote_char) as [[|header rest]|e]; done.
Qed.

Lemma read_csv_with_header_ok text delimiter quote_char header rest :
  _parse_csv text delimiter quote_char = Ok (header :: rest) ->
  read_csv_with_header text delimiter quote_char =
  Ok (map (fun r => set_all (zip header (pad_or_truncate header r)) []) rest).
Proof.
  intros Hparse. unfold read_csv_with_header. rewrite Hparse.
  cbn [mbind result_bind]. apply mapM_result_ok.
  intros r _. apply header_dict_zip, pad_or_truncate_length.
Qed.

Lemma parsed_header_nonempty text delimiter quote_char header rest :
  _parse_csv text delimiter quote_char = Ok (header :: rest) -> header <> [].
Proof.
  intros Hparse. apply scan_emitted in Hparse; [|constructor].
  apply Forall_cons in Hparse as [[Hne _] _]. exact Hne.
Qed.

Lemma get_of_key {K V} `{EqDecision K} (d : list (K * V)) k :
  k ∈ PyDict.keys d -> is_Some (PyDict.get d k).
Proof.
  unfold PyDict.keys. induction d as [|[k' v'] d IH]; cbn.
  - intros Hin. by apply elem_of_nil in Hin.
  - destruct (decide (k' = k)) as [->|Hne]; [by eexists|].
    intros [?|?]%elem_of_cons; [congruence|by apply IH].
Qed.

Lemma filter_bool_all {A} (P : A -> bool) (l : list A) :
  (forall x, x ∈ l -> P x = true) -> List.filter P l = l.
Proof.
  induction l as [|x l IH]; intros HP; cbn; [done|].
  rewrite HP by left. f_equal. apply IH. intros y Hy. apply HP. by right.
Qed.

Lemma first_seen_NoDup {K} `{EqDecision K} (ks : list K) :
  NoDup ks -> first_seen ks = ks.
Proof.
  induction 1 as [|k ks Hk Hnd IH]; [done|].
  cbn [first_seen]. rewrite IH. f_equal. apply filter_bool_all.
  intros k' Hk'. apply bool_decide_eq_true_2. by intros ->.
Qed.

(** The dictionary of columns built from dictionaries that all have the
    keys [ks]. *)
Lemma load_columns (rows : list (list (string * string))) (ks : list string) :
  NoDup ks ->
  (forall row, row ∈ rows -> PyDict.keys row = ks) ->
  foldM (fun data col =>
           cells ← mapM_result (fun row => row_getitem row col) rows;
           mret (PyDict.set data col cells)) ks [] =
  Ok (map (fun col =>
             (col, map (fun row => VStr (default "" (PyDict.get row col))) rows)) ks).
Proof.
  intros Hnd Hkeys.
  rewrite (foldM_ok _ (fun data col =>
             PyDict.set data col
               (map (fun row => VStr (default "" (PyDict.get row col))) rows))).
  - f_equal. rewrite (dict_comprehension
      (fun col => map (fun row => VStr (default "" (PyDict.get row col))) rows)).
    by rewrite first_seen_NoDup.
  - intros data col Hcol.
    rewrite (mapM_result_ok _ (fun row => VStr (default "" (PyDict.get row col)))).
    + done.
    + intros row Hrow. unfold row_getitem.
      destruct (get_of_key row col) as [cell ->]; [|done].
      by rewrite (Hkeys row Hrow).
Qed.

Section LoadingFacts.
Variables file_bytes decode : string -> option string.
Variables csv_path data text : string.
Hypothesis file_read : file_bytes csv_path = Some data.
Hypothesis data_decoded : decode data = Some text.

Lemma read_source_ok : read_source file_bytes decode csv_path = Ok text.
Proof. unfold read_source. by rewrite file_read, data_decoded. Qed.

(** What [load_data_as_dataframe] returns for a header and at least one
    record. *)
Lemma load_spec header records :
  _parse_csv text "," dq = Ok (header :: records) ->
  records <> [] ->
  load_data_as_dataframe file_bytes decode csv_path =
  Ok (DataFrame.mk
        (map (fun col =>
                (col, map (fun row => VStr (default "" (PyDict.get row col)))
                          (map (fun r => set_all (zip header (pad_or_truncate header r)) [])
                               records)))
             (first_seen header))
        (length records)).
Proof.
  intros Hparse Hrecords.
  pose proof (parsed_header_nonempty _ _ _ _ _ Hparse) as Hheader.
  unfold load_data_as_dataframe. rewrite read_source_ok. cbn [mbind result_bind].
  rewrite (read_csv_with_header_ok _ _ _ _ _ Hparse). cbn [mbind result_bind].
  set (rows := map _ records).
  assert (Hkeys : forall row, row ∈ rows -> PyDict.keys row = first_seen header).
  { intros row (r & -> & _)%list_elem_of_fmap.
    apply set_all_zip_first_seen, pad_or_truncate_length. }
  destruct rows as [|first rows'] eqn:Erows.
  { destruct records; [done|discriminate]. }
  rewrite <- Erows in *.
  rewrite (Hkeys first) by (rewrite Erows; left).
  rewrite (load_columns rows (first_seen header)); [|apply NoDup_first_seen|exact Hkeys].
  cbn [mbind result_bind]. apply new_ok.
  - destruct header as [|h header]; [done|]. cbn [first_seen map]. discriminate.
  - apply Forall_forall. intros c (col & -> & _)%list_elem_of_fmap. cbn [snd].
    subst rows. by rewrite !length_map.
Qed.

Lemma load_header_only rows :
  _parse_csv text "," dq = Ok rows ->
  length rows <= 1 ->
  load_data_as_dataframe file_bytes decode csv_path = Ok (DataFrame.mk [] 0).
Proof.
  intros Hparse Hlen. unfold load_data_as_dataframe. rewrite read_source_ok.
  cbn [mbind result_bind]. unfold read_csv_with_header.
  rewrite Hparse. destruct rows as [|header [|r rest]]; [done|done|cbn in Hlen; lia].
Qed.

Lemma load_tokenizer_error e :
  _parse_csv text "," dq = Err e ->
  load_data_as_dataframe file_bytes decode csv_path = Err e.
Proof.
  intros Hparse. unfold load_data_as_dataframe. rewrite read_source_ok.
  cbn [mbind result_bind]. unfold read_csv_with_header. by rewrite Hparse.
Qed.


(** Every cell of a loaded table is a string. *)
Lemma load_cells df col :
  load_data_as_dataframe file_bytes decode csv_path = Ok df ->
  DataFrame.has_column df col = true ->
  exists cells,
    PyDict.get (DataFrame._data df) col = Some cells
    /\ length cells = DataFrame.len df
    /\ Forall (fun v => is_str v = true) cells.
Proof.
  intros Hload Hcol.
  destruct (_parse_csv text "," dq) as [rows|e'] eqn:Hparse.
  - destruct rows as [|header records].
    { rewrite (load_header_only [] Hparse) in Hload by (cbn; lia).
      injection Hload as <-. done. }
    destruct (decide (records = [])) as [->|Hrecords].
    { rewrite (load_header_only [header] Hparse) in Hload by (cbn; lia).
      injection Hload as <-. done. }
    rewrite (load_spec header records Hparse) in Hload by done.
    injection Hload as <-.
    apply mem_get in Hcol as (cells & Hget & Hin).
    exists cells. split; [exact Hget|].
    apply list_elem_of_fmap in Hin as (col' & [= -> ->] & _).
    split; [by rewrite !length_map|].
    apply Forall_forall. by intros v (row & -> & _)%list_elem_of_fmap.
  - rewrite (load_tokenizer_error e' Hparse) in Hload. discriminate.
Qed.
End LoadingFacts.

(** X5: a file whose decoded text is a header and at least one record
    loads as a table that satisfies the class invariant, with one row per
    record and one column per distinct name of the header, in the order in
    which the names first occur; the cell of a name in a row is the string
    of the record at the last position the name has in the header, and the
    empty string when the record is too short. *)
Theorem loaded_table (file_bytes decode : string -> option string)
    (csv_path data text : string) (header : list string)
    (records : list (list string)) :
  file_bytes csv_path = Some data ->
  decode data = Some text ->
  _parse_csv text "," dq = Ok (header :: records) ->
  records <> [] ->
  exists df,
    load_data_as_dataframe file_bytes decode csv_path = Ok df
    /\ wf df
    /\ DataFrame.columns df = first_seen header
    /\ DataFrame.len df = length records
    /\ forall i name k r,
         header !! i = Some name ->
         (forall j, i < j -> header !! j <> Some name) ->
         records !! k = Some r ->
         DataFrame.cell df name k = VStr (default "" (r !! i)).
Proof.
  intros Hfile Hdecode Hparse Hrecords. eexists.
  split; [by eapply load_spec|].
  split; [|split; [|split]].
  - eapply new_wf; [|apply new_ok with (n := length records)].
    + rewrite keys_keyed. apply NoDup_first_seen.
    + pose proof (parsed_header_nonempty _ _ _ _ _ Hparse) as Hheader.
      destruct header as [|h header]; [done|]. cbn [first_seen map]. discriminate.
    + apply Forall_forall. intros c (col & -> & _)%list_elem_of_fmap. cbn [snd].
      by rewrite !length_map.
  - unfold DataFrame.columns. cbn [DataFrame._data]. apply keys_keyed.
  - done.
  - intros i name k r Hi Hlast Hk.
    unfold DataFrame.cell, PyDict.get_list. cbn [DataFrame._data].
    rewrite get_keyed.
    2:{ apply elem_of_first_seen. by eapply list_elem_of_lookup_2. }
    cbn [default from_option id]. rewrite map_map, nth_lookup_default.
    rewrite <- fmap_map, list_lookup_fmap, Hk.
    cbn [fmap option_fmap option_map default from_option id].
    rewrite (set_all_zip_get header _ i name); [|apply pad_or_truncate_length|done|done].
    cbn [default from_option id].
    rewrite pad_or_truncate_lookup; [done|]. by eapply lookup_lt_Some.
Qed.

Lemma loaded_table_witness :
  exists df,
    load_data_as_dataframe (one_file "data.csv" load_example) decode_ascii "data.csv"
    = Ok df
    /\ DataFrame.columns df = ["a"; "b"]
    /\ DataFrame.len df = 3
    /\ DataFrame.cell df "a" 0 = VStr "3"
    /\ DataFrame.cell df "a" 1 = VStr "".
Proof.
  destruct (loaded_table (one_file "data.csv" load_example) decode_ascii
              "data.csv" load_example load_example ["a"; "b"; "a"]
              [["1"; "2"; "3"]; ["4"]; ["5"; "6"; "7"; "8"]])
    as (df & Hload & _ & Hcols & Hlen & Hcell).
  { reflexivity. }
  { reflexivity. }
  { vm_compute. reflexivity. }
  { discriminate. }
  exists df. split; [exact Hload|]. split; [exact Hcols|]. split; [exact Hlen|].
  assert (Hlast : forall j, 2 < j -> ["a"; "b"; "a"] !! j <> Some "a").
  { intros [|[|[|j]]] Hj; try lia. discriminate. }
  split.
  - exact (Hcell 2 "a" 0 ["1"; "2"; "3"] eq_refl Hlast eq_refl).
  - exact (Hcell 2 "a" 1 ["4"] eq_refl Hlast eq_refl).
Defined.

(** X6: a file whose decoded text holds no record after its header (or
    no record at all) loads as the empty table: no rows and no columns, the
    names of the header are not kept. *)
Theorem header_only_file_loads_without_columns
    (file_bytes decode : string -> option string)
    (csv_path data text : string) (rows : list (list string)) :
  file_bytes csv_path = Some data ->
  decode data = Some text ->
  _parse_csv text "," dq = Ok rows ->
  length rows <= 1 ->
  exists df,
    load_data_as_dataframe file_bytes decode csv_path = Ok df
    /\ DataFrame.shape df = (0, 0)
    /\ DataFrame.columns df = [].
Proof.
  intros Hfile Hdecode Hparse Hlen. exists (DataFrame.mk [] 0).
  split; [by eapply load_header_only|done].
Qed.

Lemma header_only_file_loads_without_columns_witness :
  exists df,
    load_data_as_dataframe (one_file "data.csv" ("Name,Age" +:+ nl)) decode_ascii
      "data.csv" = Ok df
    /\ DataFrame.shape df = (0, 0)
    /\ DataFrame.columns df = [].
Proof.
  apply (header_only_file_loads_without_columns
           (one_file "data.csv" ("Name,Age" +:+ nl)) decode_ascii "data.csv"
           ("Name,Age" +:+ nl) ("Name,Age" +:+ nl) [["Name"; "Age"]]).
  - reflexivity.
  - reflexivity.
  - vm_compute. reflexivity.
  - cbn. lia.
Defined.



(** X8: no column of a loaded table can be summed: on a table loaded from
    a file with at least one record, sum, mean, std and var of any column
    raise TypeError, the cells being the strings of the file. *)
Theorem loaded_columns_do_not_sum
    (np_std np_var : list QArith_base.Q -> QArith_base.Q)
    (file_bytes decode : string -> option string) (csv_path : string)
    (df : DataFrame.t) (col name : string) :
  load_data_as_dataframe file_bytes decode csv_path = Ok df ->
  0 < DataFrame.len df ->
  DataFrame.has_column df col = true ->
  name ∈ summing ->
  is_type_error (DataFrame.agg np_std np_var df (one_agg col name)).
Proof.
  intros Hload Hlen Hcol Hname.
  assert (Hread : exists data text, file_bytes csv_path = Some data
                                    /\ decode data = Some text).
  { unfold load_data_as_dataframe, read_source in Hload.
    destruct (file_bytes csv_path) as [data|]; [|discriminate].
    destruct (decode data) as [text|] eqn:Hd; [|discriminate].
    by exists data, text. }
  destruct Hread as (data & text & Hfile & Hdecode).
  destruct (load_cells file_bytes decode csv_path data text Hfile Hdecode df col
              Hload Hcol) as (cells & Hget & Hcells & Hstr).
  apply agg_type_error; [done|done|].
  unfold PyDict.get_list. rewrite Hget. cbn [default from_option id].
  destruct cells as [|v cells]; [cbn in Hcells; lia|].
  apply Exists_cons_hd. apply Forall_cons in Hstr as [Hv _]. by destruct v.
Qed.

Lemma loaded_columns_do_not_sum_witness :
  is_type_error
    (DataFrame.agg np_zero np_zero
       (DataFrame.mk [("a", [VStr "3"; VStr ""; VStr "7"]);
                      ("b", [VStr "2"; VStr ""; VStr "6"])] 3)
       (one_agg "b" "mean")).
Proof.
  apply (loaded_columns_do_not_sum np_zero np_zero
           (one_file "data.csv" load_example) decode_ascii "data.csv" _ "b" "mean").
  - vm_compute. reflexivity.
  - cbn. lia.
  - reflexivity.
  - compute_done.
Defined.

(** ** The constructor *)

Lemma new_lengths_differ (data : list (string * list value)) c1 c2 :
  c1 ∈ data -> c2 ∈ data -> length c1.2 <> length c2.2 ->
  DataFrame.new data = Err (ValueError "All columns must have the same length").
Proof.
  intros H1 H2 Hne. unfold DataFrame.new.
  destruct data as [|c data]; [by apply elem_of_nil in H1|].
  set (lengths := map _ _).
  assert (Hsub : ({[ length c1.2; length c2.2 ]} : gset nat) ⊆ list_to_set lengths).
  { assert (forall c', c' ∈ c :: data ->
                       length c'.2 ∈ (list_to_set lengths : gset nat)).
    { intros c' Hc'. apply elem_of_list_to_set. subst lengths.
      rewrite <- fmap_map. apply list_elem_of_fmap. eauto. }
    set_solver. }
  apply subseteq_size in Hsub.
  rewrite size_union, !size_singleton in Hsub by set_solver.
  by rewrite (proj2 (Nat.ltb_lt _ _)) by lia.
Qed.

(** X9: the constructor raises ValueError exactly when two columns differ
    in length; otherwise it keeps the dictionary as it is and takes the
    common length of the columns as the number of rows, 0 for the empty
    dictionary. *)
Theorem constructor_checks_lengths (data : list (string * list value)) :
  (DataFrame.new data = Err (ValueError "All columns must have the same length")
   <-> exists c1 c2, c1 ∈ data /\ c2 ∈ data /\ length c1.2 <> length c2.2)
  /\ (forall e, DataFrame.new data = Err e ->
                e = ValueError "All columns must have the same length")
  /\ (forall df, DataFrame.new data = Ok df ->
        DataFrame._data df = data
        /\ Forall (fun c => length c.2 = DataFrame.len df) data
        /\ (data = [] -> DataFrame.len df = 0)).
Proof.
  assert (Hdec : (exists n, Forall (fun c => length c.2 = n) data)
                 \/ exists c1 c2, c1 ∈ data /\ c2 ∈ data /\ length c1.2 <> length c2.2).
  { destruct data as [|c data]; [left; by exists 0|].
    destruct (decide (Forall (fun c' => length c'.2 = length c.2) (c :: data)))
      as [Hall|Hnot]; [left; eauto|right].
    apply not_Forall_Exists in Hnot; [|intros c'; apply _].
    apply Exists_exists in Hnot as (c' & Hin & Hne).
    exists c', c. split; [done|]. split; [left|done]. }
  destruct Hdec as [[n Hall]|(c1 & c2 & H1 & H2 & Hne)].
  - assert (Hnew : exists m, DataFrame.new data = Ok (DataFrame.mk data m)
                             /\ Forall (fun c => length c.2 = m) data
                             /\ (data = [] -> m = 0)).
    { destruct data as [|c data]; [exists 0; by repeat split|].
      exists n. split; [by apply new_ok|done]. }
    destruct Hnew as (m & Hnew & Hm & Hnil). rewrite Hnew.
    split; [|split].
    + split; [discriminate|]. intros (c1 & c2 & H1 & H2 & Hne).
      rewrite Forall_forall in Hm. rewrite (Hm c1 H1), (Hm c2 H2) in Hne. done.
    + discriminate.
    + intros df [= <-]. done.
  - rewrite (new_lengths_differ data c1 c2) by done.
    split; [|split].
    + split; [eauto 10|done].
    + by intros e [= <-].
    + discriminate.
Qed.

Lemma constructor_checks_lengths_witness :
  DataFrame.new [("a", [VInt 1; VInt 2]); ("b", [VStr "x"])]
  = Err (ValueError "All columns must have the same length").
Proof.
  apply (proj1 (constructor_checks_lengths
                  [("a", [VInt 1; VInt 2]); ("b", [VStr "x"])])).
  exists ("a", [VInt 1; VInt 2]), ("b", [VStr "x"]).
  split; [left|]. split; [right; left|]. cbn. lia.
Defined.

(** ** [project] *)

Lemma forallb_false_elem {A} (f : A -> bool) (l : list A) :
  forallb f l = false -> exists x, x ∈ l /\ f x = false.
Proof.
  induction l as [|x l IH]; cbn; [done|].
  destruct (f x) eqn:E.
  - intros (y & Hy & Hfy)%IH. exists y. split; [by right|done].
  - intros _. exists x. split; [left|done].
Qed.

(** What [project] returns when every name is a column. *)
Lemma project_ok (self : DataFrame.t) (cols : list string) :
  wf self ->
  Forall (fun col => DataFrame.has_column self col = true) cols ->
  DataFrame.project self cols =
  Ok (DataFrame.mk
        (map (fun col => (col, PyDict.get_list (DataFrame._data self) col))
             (first_seen cols))
        (if decide (cols = []) then 0 else DataFrame._length self)).
Proof.
  intros Hwf Hcols. unfold DataFrame.project.
  rewrite (proj2 (forallb_forall _ _)).
  2:{ intros col Hin. rewrite Forall_forall in Hcols.
      apply Hcols. by apply list_elem_of_In. }
  cbn [negb].
  rewrite (dict_comprehension (fun col => PyDict.get_list (DataFrame._data self) col)).
  destruct (decide (cols = [])) as [->|Hne]; [done|].
  apply new_ok.
  - destruct cols as [|c cols]; [done|]. cbn [first_seen map]. discriminate.
  - apply Forall_forall. intros c (col & -> & Hin)%list_elem_of_fmap. cbn [snd].
    apply wf_get_list; [done|]. rewrite Forall_forall in Hcols.
    apply Hcols. by apply elem_of_first_seen.
Qed.

(** X10: on a table that satisfies the class invariant, projecting on names
    that are all columns returns a table with these columns, each once, in
    the order in which the names first occur, with the cells and the number
    of rows of the table; projecting on no name at all returns the table
    without rows. *)
Theorem project_keeps_cells (self : DataFrame.t) (cols : list string) :
  wf self ->
  Forall (fun col => DataFrame.has_column self col = true) cols ->
  exists df,
    DataFrame.project self cols = Ok df
    /\ wf df
    /\ DataFrame.columns df = first_seen cols
    /\ DataFrame.len df = (if decide (cols = []) then 0 else DataFrame.len self)
    /\ forall col, col ∈ cols ->
         DataFrame.getitem df col = DataFrame.getitem self col.
Proof.
  intros Hwf Hcols. eexists. split; [by apply project_ok|].
  split; [|split; [|split]].
  - split; [|split]; cbn [DataFrame._data DataFrame._length].
    + unfold DataFrame.columns. cbn [DataFrame._data].
      rewrite keys_keyed. apply NoDup_first_seen.
    + apply Forall_forall. intros c (col & -> & Hin)%list_elem_of_fmap. cbn [snd].
      destruct (decide (cols = [])) as [->|_]; [by apply elem_of_nil in Hin|].
      apply wf_get_list; [done|]. rewrite Forall_forall in Hcols.
      apply Hcols. by apply elem_of_first_seen.
    + destruct cols as [|c cols]; [done|]. cbn [first_seen map]. discriminate.
  - unfold DataFrame.columns. cbn [DataFrame._data]. apply keys_keyed.
  - done.
  - intros col Hin. unfold DataFrame.getitem. cbn [DataFrame._data].
    rewrite get_keyed by (by apply elem_of_first_seen).
    rewrite Forall_forall in Hcols.
    destruct (mem_get _ _ (Hcols col Hin)) as (cells & Hget & _).
    unfold PyDict.get_list. by rewrite Hget.
Qed.

Lemma project_keeps_cells_witness :
  exists df,
    DataFrame.project medals ["Medal"; "NOC"; "Medal"] = Ok df
    /\ DataFrame.columns df = ["Medal"; "NOC"]
    /\ DataFrame.len df = 3
    /\ DataFrame.getitem df "NOC" = Ok [VStr "A"; VStr "A"; VStr "B"].
Proof.
  destruct (project_keeps_cells medals ["Medal"; "NOC"; "Medal"])
    as (df & Hproject & _ & Hcols & Hlen & Hcells).
  { compute_done. }
  { repeat constructor. }
  exists df. split; [exact Hproject|]. split; [exact Hcols|]. split; [exact Hlen|].
  rewrite Hcells; [reflexivity|]. right. left.
Defined.

(** X11: [project] raises KeyError exactly when one of the names is not a
    column of the table, and it raises nothing else on a table that
    satisfies the class invariant. *)
Theorem project_missing_column_raises (self : DataFrame.t) (cols : list string) :
  (DataFrame.project self cols = Err (KeyError "Columns not found")
   <-> exists col, col ∈ cols /\ DataFrame.has_column self col = false)
  /\ (wf self -> forall e, DataFrame.project self cols = Err e ->
                           e = KeyError "Columns not found").
Proof.
  destruct (forallb (DataFrame.has_column self) cols) eqn:Hall.
  - assert (Hcols : Forall (fun col => DataFrame.has_column self col = true) cols).
    { apply Forall_forall. intros col Hin.
      rewrite forallb_forall in Hall. apply Hall. by apply list_elem_of_In. }
    split.
    + split.
      * unfold DataFrame.project. rewrite Hall. cbn [negb]. unfold DataFrame.new.
        destruct (fold_left _ cols []); [done|].
        destruct (1 <? _); discriminate.
      * intros (col & Hin & Hcol). rewrite Forall_forall in Hcols.
        rewrite (Hcols col Hin) in Hcol. done.
    + intros Hwf e. by rewrite project_ok.
  - unfold DataFrame.project. rewrite Hall. cbn [negb]. split.
    + split; [intros _|done]. by apply forallb_false_elem.
    + intros _ e [= <-]. done.
Qed.

Lemma project_missing_column_raises_witness :
  DataFrame.project medals ["NOC"; "Year"] = Err (KeyError "Columns not found").
Proof.
  apply (proj1 (project_missing_column_raises medals ["NOC"; "Year"])).
  exists "Year". split; [right; left|reflexivity].
Defined.

Lemma mem_keys {K V} `{EqDecision K} (d : list (K * V)) k :
  PyDict.mem d k = true <-> k ∈ PyDict.keys d.
Proof.
  unfold PyDict.keys. induction d as [|[k' v'] d IH]; cbn.
  - split; [done|]. intros Hin. by apply elem_of_nil in Hin.
  - destruct (decide (k' = k)) as [->|Hne].
    + split; [intros _; left|done].
    + rewrite IH. split; [by right|]. intros [?|?]%elem_of_cons; [congruence|done].
Qed.

Lemma project_wf (self : DataFrame.t) (cols : list string) :
  wf self ->
  Forall (fun col => DataFrame.has_column self col = true) cols ->
  wf (DataFrame.mk
        (map (fun col => (col, PyDict.get_list (DataFrame._data self) col))
             (first_seen cols))
        (if decide (cols = []) then 0 else DataFrame._length self)).
Proof.
  intros Hwf Hcols.
  split; [|split]; cbn [DataFrame._data DataFrame._length].
  - unfold DataFrame.columns. cbn [DataFrame._data].
    rewrite keys_keyed. apply NoDup_first_seen.
  - apply Forall_forall. intros c (col & -> & Hin)%list_elem_of_fmap. cbn [snd].
    destruct (decide (cols = [])) as [->|_]; [by apply elem_of_nil in Hin|].
    apply wf_get_list; [done|]. rewrite Forall_forall in Hcols.
    apply Hcols. by apply elem_of_first_seen.
  - destruct cols as [|c cols]; [done|]. cbn [first_seen map]. discriminate.
Qed.

(** X12: projecting twice is projecting once: on a table that satisfies
    the class invariant, the projection on [inner] of the projection on
    [outer] is the projection on [inner], whenever the names of [outer] are
    columns and those of [inner] are among them. *)
Theorem project_twice (self : DataFrame.t) (outer inner : list string) :
  wf self ->
  Forall (fun col => DataFrame.has_column self col = true) outer ->
  inner ⊆ outer ->
  (df ← DataFrame.project self outer; DataFrame.project df inner)
  = DataFrame.project self inner.
Proof.
  intros Hwf Houter Hsub.
  assert (Hinner : Forall (fun col => DataFrame.has_column self col = true) inner).
  { apply Forall_forall. intros col Hin. rewrite Forall_forall in Houter.
    apply Houter, Hsub, Hin. }
  rewrite (project_ok self outer), (project_ok self inner) by done.
  cbn [mbind result_bind].
  rewrite project_ok.
  - cbn [DataFrame._data DataFrame._length]. f_equal. f_equal.
    + apply map_ext_in. intros col Hin. f_equal.
      unfold PyDict.get_list at 1. rewrite get_keyed; [done|].
      apply elem_of_first_seen, Hsub, elem_of_first_seen. by apply list_elem_of_In.
    + destruct (decide (inner = [])) as [->|Hne]; [done|].
      destruct (decide (outer = [])) as [->|_]; [|done].
      destruct inner as [|c inner]; [done|].
      specialize (Hsub c (list_elem_of_here _ _)). by apply elem_of_nil in Hsub.
  - by apply project_wf.
  - apply Forall_forall. intros col Hin. unfold DataFrame.has_column.
    cbn [DataFrame._data]. apply mem_keys. rewrite keys_keyed.
    by apply elem_of_first_seen, Hsub.
Qed.

Lemma project_twice_witness :
  (df ← DataFrame.project medals ["Medal"; "NOC"]; DataFrame.project df ["NOC"])
  = DataFrame.project medals ["NOC"].
Proof.
  apply (project_twice medals ["Medal"; "NOC"] ["NOC"]).
  - compute_done.
  - repeat constructor.
  - set_solver.
Defined.

(** ** [filter] *)

(** A table that satisfies the class invariant is determined by its
    columns and its rows. *)
Lemma wf_ext (df1 df2 : DataFrame.t) :
  wf df1 -> wf df2 ->
  DataFrame.columns df1 = DataFrame.columns df2 ->
  rows_of df1 = rows_of df2 ->
  df1 = df2.
Proof.
  intros Hwf1 Hwf2 Hcols Hrows.
  pose proof Hwf1 as (Hnd1 & _ & _). pose proof Hwf2 as (Hnd2 & _ & _).
  assert (Hlen : DataFrame._length df1 = DataFrame._length df2).
  { apply (f_equal length) in Hrows. unfold rows_of, DataFrame.len in Hrows.
    by rewrite !length_map, !length_seq in Hrows. }
  assert (Hcell : forall col i, col ∈ DataFrame.columns df1 ->
                    i < DataFrame._length df1 ->
                    DataFrame.cell df1 col i = DataFrame.cell df2 col i).
  { intros col i Hcol Hi.
    assert (Hrow : DataFrame.row_at df1 i = DataFrame.row_at df2 i).
    { apply (f_equal (fun l => l !! i)) in Hrows. unfold rows_of in Hrows.
      rewrite <- !fmap_map, !list_lookup_fmap in Hrows.
      unfold DataFrame.len in Hrows.
      rewrite (lookup_seq_lt 0 _ i), (lookup_seq_lt 0 _ i) in Hrows by lia.
      cbn in Hrows. congruence. }
    rewrite !row_at_keyed in Hrow by done. rewrite <- Hcols in Hrow.
    apply (f_equal (fun row => PyDict.get row col)) in Hrow.
    rewrite !get_keyed in Hrow by done. congruence. }
  destruct df1 as [d1 n1], df2 as [d2 n2]. cbn [DataFrame._length] in *. subst n2.
  f_equal. unfold DataFrame.columns in *. cbn [DataFrame._data] in *.
  rewrite <- (dict_eta d1 []), <- (dict_eta d2 []) by done.
  rewrite <- Hcols. apply map_ext_in. intros col Hin%list_elem_of_In. f_equal.
  assert (Hl1 := wf_get_list (DataFrame.mk d1 n1) col Hwf1).
  assert (Hl2 := wf_get_list (DataFrame.mk d2 n1) col Hwf2).
  unfold DataFrame.has_column in Hl1, Hl2. cbn [DataFrame._data DataFrame._length] in *.
  rewrite mem_keys in Hl1, Hl2.
  specialize (Hl1 Hin). rewrite <- Hcols in Hl2. specialize (Hl2 Hin).
  change (PyDict.get_list d1 col = PyDict.get_list d2 col).
  apply (nth_ext _ _ VNone VNone); [congruence|].
  intros i Hi. apply (Hcell col i Hin). lia.
Qed.

Lemma filter_filter {A} (P Q : A -> bool) (l : list A) :
  List.filter Q (List.filter P l) = List.filter (fun x => P x && Q x) l.
Proof.
  induction l as [|x l IH]; [done|]. cbn.
  destruct (P x); cbn; [|exact IH]. destruct (Q x); by rewrite IH.
Qed.

(** X13: on a table that satisfies the class invariant, [filter] never
    raises; it returns the rows that satisfy the condition, in their order,
    each with all its cells, under the columns of the table as soon as one
    row is kept. *)
Theorem filter_keeps_matching_rows
    (self : DataFrame.t) (condition : list (string * value) -> bool) :
  wf self ->
  exists df,
    DataFrame.filter self condition = Ok df
    /\ wf df
    /\ rows_of df = List.filter condition (rows_of self)
    /\ DataFrame.len df <= DataFrame.len self
    /\ (0 < DataFrame.len df -> DataFrame.columns df = DataFrame.columns self).
Proof.
  intros Hwf.
  destruct (filter_rows self condition Hwf) as (df & Hfilter & Hwf' & Hrows & Hlen & Hcols).
  exists df. split; [done|]. split; [done|]. split; [done|]. split.
  - rewrite Hlen. etrans; [apply filter_length_le|].
    unfold rows_of. by rewrite length_map, length_seq.
  - intros Hpos. rewrite Hcols. rewrite Hlen in Hpos.
    destruct (List.filter condition (rows_of self)); [cbn in Hpos; lia|done].
Qed.

Lemma filter_keeps_matching_rows_witness :
  exists df,
    DataFrame.filter medals (column_is "Medal" (VStr "Gold")) = Ok df
    /\ rows_of df = [[("NOC", VStr "A"); ("Medal", VStr "Gold")];
                     [("NOC", VStr "B"); ("Medal", VStr "Gold")]]
    /\ DataFrame.columns df = ["NOC"; "Medal"].
Proof.
  destruct (filter_keeps_matching_rows medals (column_is "Medal" (VStr "Gold")))
    as (df & Hfilter & _ & Hrows & _ & Hcols).
  { compute_done. }
  exists df. split; [exact Hfilter|]. split; [exact Hrows|].
  apply Hcols. apply (f_equal length) in Hrows.
  unfold rows_of in Hrows at 1. rewrite length_map, length_seq in Hrows.
  rewrite Hrows. vm_compute. lia.
Defined.

(** X14: filtering twice is filtering once by both conditions: on a table
    that satisfies the class invariant, the rows kept by [second] among
    those kept by [first] form the very table that [filter] returns for the
    conjunction of the two. *)
Theorem filter_twice (self : DataFrame.t)
    (first second : list (string * value) -> bool) :
  wf self ->
  (df ← DataFrame.filter self first; DataFrame.filter df second)
  = DataFrame.filter self (fun row => first row && second row).
Proof.
  intros Hwf.
  destruct (filter_rows self first Hwf) as (df1 & -> & Hwf1 & Hrows1 & _ & Hcols1).
  cbn [mbind result_bind].
  destruct (filter_rows df1 second Hwf1) as (df2 & -> & Hwf2 & Hrows2 & _ & Hcols2).
  destruct (filter_rows self (fun row => first row && second row) Hwf)
    as (df3 & -> & Hwf3 & Hrows3 & _ & Hcols3).
  f_equal. rewrite Hrows1, filter_filter in Hrows2, Hcols2.
  apply wf_ext; [done|done| |congruence].
  rewrite Hcols2, Hcols3, Hcols1.
  destruct (List.filter (fun x => first x && second x) (rows_of self)) eqn:E; [done|].
  rewrite !(bool_decide_eq_false_2 (_ :: _ = [])) by done.
  rewrite bool_decide_eq_false_2; [done|]. intros Hnil.
  rewrite <- filter_filter, Hnil in E. done.
Qed.

Lemma filter_twice_witness :
  (df ← DataFrame.filter medals (column_is "NOC" (VStr "A"));
   DataFrame.filter df (column_is "Medal" (VStr "Gold")))
  = DataFrame.filter medals
      (fun row => column_is "NOC" (VStr "A") row && column_is "Medal" (VStr "Gold") row).
Proof.
  apply (filter_twice medals). compute_done.
Defined.

(** ** [agg] on the whole table *)

Lemma set_all_elem_of {K V} `{EqDecision K} (kvs : list (K * V)) d kv :
  kv ∈ set_all kvs d -> kv ∈ d \/ kv ∈ kvs.
Proof.
  revert d. induction kvs as [|[k v] kvs IH]; intros d; [by left|].
  unfold set_all in *. cbn [fold_left fst snd]. intros Hin%IH.
  destruct Hin as [Hin|Hin]; [|right; by right].
  assert (Hset : forall d', kv ∈ PyDict.set d' k v -> kv ∈ d' \/ kv = (k, v)).
  { clear. induction d' as [|[k' v'] d' IH]; cbn.
    - intros ->%list_elem_of_singleton. by right.
    - destruct (decide (k' = k)) as [->|Hne].
      + intros [->|?]%elem_of_cons; [by right|left; by right].
      + intros [->|[?|?]%IH]%elem_of_cons; [left; left|left; by right|by right]. }
  destruct (Hset d Hin) as [?| ->]; [by left|right; left].
Qed.

Section WholeTableAgg.
Variables np_std np_var : list QArith_base.Q -> QArith_base.Q.

(** The loop over the aggregators of one column. *)
Lemma apply_funcs_sets (rk : DataFrame.agg_func -> string) values funcs kvs r' :
  foldM (fun r func =>
           agg_value ← DataFrame._apply_aggregation np_std np_var values func;
           mret (PyDict.set r (rk func) [agg_value]))
        funcs (set_all kvs []) = Ok r' ->
  exists new, r' = set_all (kvs ++ new) []
              /\ new.*1 = map rk funcs
              /\ Forall (fun kv => length kv.2 = 1) new.
Proof.
  revert kvs. induction funcs as [|func funcs IH]; intros kvs; cbn [foldM].
  - intros [= <-]. exists []. by rewrite app_nil_r.
  - destruct (DataFrame._apply_aggregation np_std np_var values func) as [v|e];
      [|discriminate].
    cbn [mbind result_bind mret result_ret].
    change (PyDict.set (set_all kvs []) (rk func) [v])
      with (set_all [(rk func, [v])] (set_all kvs [])).
    unfold set_all at 1 2. rewrite <- fold_left_app. fold (set_all (kvs ++ [(rk func, [v])]) []).
    intros (new & -> & Hkeys & Hlen)%IH.
    exists ((rk func, [v]) :: new). rewrite <- app_assoc. split; [done|].
    split; [cbn; by rewrite Hkeys|by constructor].
Qed.

(** The loop over the columns. *)
Lemma agg_sets (self : DataFrame.t) aggregations kvs r' :
  foldM (fun result '(col, funcs) =>
           if negb (DataFrame.has_column self col)
           then Err (KeyError "Column not found")
           else DataFrame.apply_funcs np_std np_var
                  (fun r k v => PyDict.set r k [v]) col
                  (PyDict.get_list (DataFrame._data self) col)
                  (DataFrame.funcs_of funcs) result)
        aggregations (set_all kvs []) = Ok r' ->
  exists new, r' = set_all (kvs ++ new) []
              /\ new.*1 = result_keys aggregations
              /\ Forall (fun kv => length kv.2 = 1) new.
Proof.
  revert kvs. induction aggregations as [|[col funcs] aggregations IH]; intros kvs;
    cbn [foldM].
  - intros [= <-]. exists []. by rewrite app_nil_r.
  - destruct (DataFrame.has_column self col); cbn [negb]; [|discriminate].
    unfold DataFrame.apply_funcs.
    destruct (foldM _ (DataFrame.funcs_of funcs) (set_all kvs [])) as [r|e] eqn:Hfuncs;
      [|discriminate].
    apply apply_funcs_sets in Hfuncs as (new1 & -> & Hkeys1 & Hlen1).
    cbn [mbind result_bind].
    intros (new2 & -> & Hkeys2 & Hlen2)%IH.
    exists (new1 ++ new2). rewrite app_assoc. split; [done|]. split.
    + rewrite fmap_app, Hkeys1, Hkeys2. done.
    + by apply Forall_app.
Qed.
End WholeTableAgg.

(** X15: whatever the aggregators are, names or callables, a whole-table
    [agg] that returns a table returns one with a single row, or with
    neither row nor column when nothing was asked for; its columns are the
    result names in the order in which they were first computed, a name
    computed twice being kept once. *)
Theorem agg_returns_one_row
    (np_std np_var : list QArith_base.Q -> QArith_base.Q)
    (self : DataFrame.t) (aggregations : list (string * DataFrame.agg_arg))
    (df : DataFrame.t) :
  DataFrame.agg np_std np_var self aggregations = Ok df ->
  wf df
  /\ DataFrame.columns df = first_seen (result_keys aggregations)
  /\ DataFrame.len df = (if decide (result_keys aggregations = []) then 0 else 1)
  /\ Forall (fun c => length c.2 = 1) (DataFrame._data df).
Proof.
  unfold DataFrame.agg. intros Hagg.
  destruct (foldM _ aggregations []) as [r|e] eqn:Hloop; [|discriminate].
  cbn [mbind result_bind] in Hagg.
  apply (agg_sets np_std np_var self aggregations []) in Hloop
    as (new & -> & Hkeys & Hlen).
  rewrite app_nil_l in Hagg.
  assert (Hdata : Forall (fun c : string * list value => length c.2 = 1) (set_all new [])).
  { apply Forall_forall. intros kv [Hin|Hin]%set_all_elem_of.
    - by apply elem_of_nil in Hin.
    - rewrite Forall_forall in Hlen. by apply Hlen. }
  assert (Hcols : PyDict.keys (set_all new []) = first_seen (result_keys aggregations)).
  { unfold set_all. by rewrite keys_set_all, Hkeys. }
  assert (Hdf : df = DataFrame.mk (set_all new [])
                       (if decide (result_keys aggregations = []) then 0 else 1)).
  { destruct (decide (set_all new [] = [])) as [Hnil|Hne].
    - rewrite Hnil in *. injection Hagg as <-.
      destruct (result_keys aggregations); [done|discriminate].
    - rewrite (new_ok _ 1) in Hagg by done. injection Hagg as <-.
      destruct (result_keys aggregations); [|done].
      cbn in Hcols. by destruct (set_all new []). }
  subst df. split; [|done].
  split; [|split]; cbn [DataFrame._data DataFrame._length].
  - unfold DataFrame.columns. cbn [DataFrame._data]. rewrite Hcols.
    apply NoDup_first_seen.
  - destruct (decide (result_keys aggregations = [])) as [Hnil|_]; [|done].
    rewrite Hnil in Hcols. cbn in Hcols. by destruct (set_all new []).
  - intros Hnil. rewrite Hnil in Hcols. cbn in Hcols.
    destruct (result_keys aggregations); [done|discriminate].
Qed.

Lemma agg_returns_one_row_witness :
  exists df,
    DataFrame.agg np_zero np_zero scores
      [("Age", DataFrame.Several [DataFrame.Named "min"; DataFrame.Named "max"]);
       ("Height", DataFrame.Single (DataFrame.Named "count"));
       ("Age", DataFrame.Several [DataFrame.Named "max"])] = Ok df
    /\ DataFrame.columns df = ["Age_min"; "Age_max"; "Height"; "Age"]
    /\ DataFrame.len df = 1.
Proof.
  eexists. split; [vm_compute; reflexivity|].
  match goal with
  | |- DataFrame.columns ?df = _ /\ _ =>
      destruct (agg_returns_one_row np_zero np_zero scores
        [("Age", DataFrame.Several [DataFrame.Named "min"; DataFrame.Named "max"]);
         ("Height", DataFrame.Single (DataFrame.Named "count"));
         ("Age", DataFrame.Several [DataFrame.Named "max"])] df)
        as (_ & Hcols & Hlen & _)
  end.
  { vm_compute. reflexivity. }
  split; [exact Hcols|exact Hlen].
Defined.

Lemma foldM_app {A B} (f : A -> B -> result A) (l1 l2 : list B) (a : A) :
  foldM f (l1 ++ l2) a = (a' ← foldM f l1 a; foldM f l2 a').
Proof.
  revert a. induction l1 as [|x l1 IH]; intros a; cbn; [done|].
  destruct (f a x) as [a'|e]; cbn; [apply IH|done].
Qed.

(** An exception of a loop is an exception of its body. *)
Lemma foldM_err {A B} (f : A -> B -> result A) (l : list B) (a : A) e :
  foldM f l a = Err e -> exists a' x, x ∈ l /\ f a' x = Err e.
Proof.
  revert a. induction l as [|x l IH]; intros a; cbn; [done|].
  destruct (f a x) as [a'|e'] eqn:E; cbn.
  - intros (a'' & y & Hy & Hf)%IH. exists a'', y. split; [by right|done].
  - intros [= ->]. exists a, x. split; [left|done].
Qed.

(** X16: a whole-table [agg] that names a column the table does not have
    never returns a table; it raises KeyError as soon as the entries before
    that one have been computed without exception, whatever the entries
    after it are. *)
Theorem agg_missing_column_raises
    (np_std np_var : list QArith_base.Q -> QArith_base.Q)
    (self : DataFrame.t) (col : string) (funcs : DataFrame.agg_arg)
    (before after : list (string * DataFrame.agg_arg)) :
  DataFrame.has_column self col = false ->
  (exists e, DataFrame.agg np_std np_var self (before ++ (col, funcs) :: after) = Err e)
  /\ (forall df, DataFrame.agg np_std np_var self before = Ok df ->
        DataFrame.agg np_std np_var self (before ++ (col, funcs) :: after)
        = Err (KeyError "Column not found")).
Proof.
  intros Hcol. unfold DataFrame.agg. rewrite foldM_app.
  destruct (foldM _ before []) as [r|e]; cbn [mbind result_bind foldM].
  - rewrite Hcol. cbn [negb mbind result_bind]. split; [by eexists|done].
  - split; [by eexists|discriminate].
Qed.

Lemma agg_missing_column_raises_witness :
  DataFrame.agg np_zero np_zero scores
    [("Age", DataFrame.Single (DataFrame.Named "max"));
     ("Weight", DataFrame.Single (DataFrame.Named "count"));
     ("Height", DataFrame.Single (DataFrame.Named "min"))]
  = Err (KeyError "Column not found").
Proof.
  apply (proj2 (agg_missing_column_raises np_zero np_zero scores "Weight"
                  (DataFrame.Single (DataFrame.Named "count"))
                  [("Age", DataFrame.Single (DataFrame.Named "max"))]
                  [("Height", DataFrame.Single (DataFrame.Named "min"))] eq_refl)
               (DataFrame.mk [("Age", [VInt 41])] 1)).
  vm_compute. reflexivity.
Defined.

Section AggregatorNames.
Variables np_std np_var : list QArith_base.Q -> QArith_base.Q.

Lemma py_lt_err a b e : py_lt a b = Err e -> exists msg, e = TypeError msg.
Proof. destruct a, b; cbn; intros [= <-]; by eexists. Qed.

Lemma py_min_max_err values e :
  py_min values = Err e \/ py_max values = Err e ->
  (values = [] /\ exists msg, e = ValueError msg /\ msg <> "Unknown aggregation function")
  \/ exists msg, e = TypeError msg.
Proof.
  destruct values as [|v rest].
  - intros [[= <-]|[= <-]]; left; (split; [done|]); eexists; (split; [done|]);
      discriminate.
  - cbn [py_min py_max]. intros H. right.
    destruct H as [H|H]; apply foldM_err in H as (best & item & _ & H);
      [destruct (py_lt item best) eqn:E|destruct (py_lt best item) eqn:E];
      cbn in H; try discriminate; injection H as <-; by eapply py_lt_err.
Qed.

Lemma known_name_error values name e :
  name ∈ aggregator_names ->
  DataFrame._apply_aggregation np_std np_var values (DataFrame.Named name) = Err e ->
  e <> ValueError "Unknown aggregation function".
Proof.
  unfold aggregator_names. rewrite !elem_of_cons, elem_of_nil.
  intros [-> | [-> | [-> | [-> | [-> | [-> | [-> | []]]]]]]];
    unfold DataFrame._apply_aggregation; cbn [String.eqb Ascii.eqb Bool.eqb].
  - unfold py_sum, VInt.
    destruct (py_sum_ok_or_type_error values (QArith_base.inject_Z 0))
      as [[q ->] | [msg ->]]; [discriminate|]. by intros [= <-].
  - destruct (0 <? length values); [|discriminate]. unfold py_sum, VInt.
    destruct (py_sum_ok_or_type_error values (QArith_base.inject_Z 0))
      as [[q ->] | [msg ->]]; cbn; [discriminate|]. by intros [= <-].
  - intros H. destruct (py_min_max_err values e (or_introl H))
      as [(_ & msg & -> & Hmsg) | [msg ->]]; congruence.
  - intros H. destruct (py_min_max_err values e (or_intror H))
      as [(_ & msg & -> & Hmsg) | [msg ->]]; congruence.
  - discriminate.
  - destruct (0 <? length values); [|discriminate]. unfold DataFrame.numpy_reduce.
    destruct (DataFrame.numbers_of values); [discriminate|]. by intros [= <-].
  - destruct (0 <? length values); [|discriminate]. unfold DataFrame.numpy_reduce.
    destruct (DataFrame.numbers_of values); [discriminate|]. by intros [= <-].
Qed.

Lemma unknown_name_error values name :
  name ∉ aggregator_names ->
  DataFrame._apply_aggregation np_std np_var values (DataFrame.Named name)
  = Err (ValueError "Unknown aggregation function").
Proof.
  unfold aggregator_names. rewrite !not_elem_of_cons.
  intros (H1 & H2 & H3 & H4 & H5 & H6 & H7 & _).
  unfold DataFrame._apply_aggregation.
  by rewrite !(proj2 (String.eqb_neq _ _)) by done.
Qed.
End AggregatorNames.

(** X17: an aggregator given by name raises the ValueError for an unknown
    aggregation exactly when the name is none of sum, mean, min, max,
    count, std and var, whatever the values are; this exception is never
    raised for one of the seven names. *)
Theorem unknown_aggregator_raises
    (np_std np_var : list QArith_base.Q -> QArith_base.Q)
    (values : list value) (name : string) :
  DataFrame._apply_aggregation np_std np_var values (DataFrame.Named name)
  = Err (ValueError "Unknown aggregation function")
  <-> name ∉ aggregator_names.
Proof.
  split.
  - intros Herr Hin. by apply (known_name_error np_std np_var values name _ Hin Herr).
  - apply unknown_name_error.
Qed.

Lemma unknown_aggregator_raises_witness :
  DataFrame._apply_aggregation np_zero np_zero [VInt 1; VStr "x"] (DataFrame.Named "median")
  = Err (ValueError "Unknown aggregation function").
Proof.
  apply (proj2 (unknown_aggregator_raises np_zero np_zero [VInt 1; VStr "x"] "median")).
  compute_done.
Defined.

(** X18: on a column without values, of a table that has columns and no
    row, sum, mean, count, std and var return the integer 0 in a table of
    one row, numpy not being called, while min and max raise ValueError. *)
Theorem aggregating_an_empty_column
    (np_std np_var : list QArith_base.Q -> QArith_base.Q)
    (self : DataFrame.t) (col : string) :
  DataFrame.has_column self col = true ->
  PyDict.get_list (DataFrame._data self) col = [] ->
  (forall name, name ∈ zero_on_empty ->
     DataFrame.agg np_std np_var self (one_agg col name)
     = Ok (DataFrame.mk [(col, [VInt 0])] 1))
  /\ DataFrame.agg np_std np_var self (one_agg col "min")
     = Err (ValueError "min() arg is an empty sequence")
  /\ DataFrame.agg np_std np_var self (one_agg col "max")
     = Err (ValueError "max() arg is an empty sequence").
Proof.
  intros Hcol Hempty. unfold DataFrame.agg, one_agg, DataFrame.apply_funcs.
  cbn [foldM DataFrame.funcs_of]. rewrite Hcol, Hempty. cbn [negb].
  split; [|split; reflexivity].
  intros name. unfold zero_on_empty. rewrite !elem_of_cons, elem_of_nil.
  intros [-> | [-> | [-> | [-> | [-> | []]]]]]; reflexivity.
Qed.

Lemma aggregating_an_empty_column_witness :
  DataFrame.agg np_zero np_zero no_rows (one_agg "Age" "mean")
  = Ok (DataFrame.mk [("Age", [VInt 0])] 1)
  /\ DataFrame.agg np_zero np_zero no_rows (one_agg "Age" "min")
     = Err (ValueError "min() arg is an empty sequence").
Proof.
  destruct (aggregating_an_empty_column np_zero np_zero no_rows "Age" eq_refl eq_refl)
    as (Hzero & Hmin & _).
  split; [|exact Hmin]. apply Hzero. compute_done.
Defined.

(** ** Aggregators on numbers *)

Lemma Qred_inject_Z (z : Z) :
  Qreduction.Qred (QArith_base.inject_Z z) = QArith_base.inject_Z z.
Proof.
  unfold Qreduction.Qred, QArith_base.inject_Z.
  generalize (Z.ggcd_gcd z 1) (Z.ggcd_correct_divisors z 1).
  destruct (Z.ggcd z 1) as [g [a b]]. cbn [fst snd].
  rewrite Z.gcd_1_r. intros -> [Ha Hb].
  replace a with z by lia. replace b with 1%Z by lia. reflexivity.
Qed.

Lemma py_add_ints (a b : Z) : py_add (VInt a) (VInt b) = Ok (VInt (a + b)).
Proof.
  unfold VInt, py_add. do 2 f_equal.
  rewrite <- (Qred_inject_Z (a + b)). apply Qreduction.Qred_complete.
  rewrite QArith_base.inject_Z_plus. apply QArith_base.Qeq_refl.
Qed.

Lemma py_sum_ints (zs : list Z) (acc : Z) :
  foldM py_add (map VInt zs) (VInt acc) = Ok (VInt (fold_left Z.add zs acc)).
Proof.
  revert acc. induction zs as [|z zs IH]; intros acc; [done|].
  cbn [map foldM fold_left]. rewrite py_add_ints. cbn [mbind result_bind]. apply IH.
Qed.

(** X19: the sum of a column of integers is the integer that is their
    sum, and their count is their number: [agg] returns one row holding
    it. *)
Theorem sum_of_integers
    (np_std np_var : list QArith_base.Q -> QArith_base.Q)
    (self : DataFrame.t) (col : string) (zs : list Z) :
  DataFrame.getitem self col = Ok (map VInt zs) ->
  DataFrame.agg np_std np_var self (one_agg col "sum")
  = Ok (DataFrame.mk [(col, [VInt (fold_right Z.add 0%Z zs)])] 1)
  /\ DataFrame.agg np_std np_var self (one_agg col "count")
     = Ok (DataFrame.mk [(col, [VInt (Z.of_nat (length zs))])] 1).
Proof.
  unfold DataFrame.getitem. intros Hget.
  destruct (PyDict.get (DataFrame._data self) col) as [cells|] eqn:Hcells;
    [|discriminate].
  injection Hget as ->.
  assert (Hcol : DataFrame.has_column self col = true).
  { unfold DataFrame.has_column. apply mem_keys.
    clear -Hcells. induction (DataFrame._data self) as [|[k v] d IH]; [done|].
    cbn in *. destruct (decide (k = col)) as [->|Hne]; [left|right; by apply IH]. }
  unfold DataFrame.agg, one_agg, DataFrame.apply_funcs.
  cbn [foldM DataFrame.funcs_of]. rewrite Hcol. cbn [negb].
  unfold PyDict.get_list. rewrite Hcells. cbn [default from_option id].
  unfold DataFrame._apply_aggregation. cbn [String.eqb Ascii.eqb Bool.eqb].
  split.
  - unfold py_sum. rewrite py_sum_ints. cbn [mbind result_bind mret result_ret].
    rewrite <- fold_symmetric by (intros; lia). reflexivity.
  - by rewrite length_map.
Qed.

Lemma sum_of_integers_witness :
  DataFrame.agg np_zero np_zero scores (one_agg "Age" "sum")
  = Ok (DataFrame.mk [("Age", [VInt 96])] 1)
  /\ DataFrame.agg np_zero np_zero scores (one_agg "Age" "count")
     = Ok (DataFrame.mk [("Age", [VInt 3])] 1).
Proof.
  apply (sum_of_integers np_zero np_zero scores "Age" [30; 25; 41]%Z).
  reflexivity.
Defined.

Section MinMaxNumbers.
Lemma py_lt_numbers (x y : QArith_base.Q) :
  py_lt (VNum x) (VNum y) = Ok (negb (QArith_base.Qle_bool y x)).
Proof. reflexivity. Qed.

Lemma min_numbers (qs : list QArith_base.Q) (best : QArith_base.Q) :
  exists lo,
    foldM (fun best item => lt ← py_lt item best;
                            mret (if lt : bool then item else best))
          (map VNum qs) (VNum best) = Ok (VNum lo)
    /\ lo ∈ best :: qs
    /\ forall x, x ∈ best :: qs -> QArith_base.Qle lo x.
Proof.
  revert best. induction qs as [|q qs IH]; intros best.
  - exists best. split; [done|]. split; [left|].
    intros x ->%list_elem_of_singleton. apply QArith_base.Qle_refl.
  - cbn [map foldM]. rewrite py_lt_numbers. cbn [mbind result_bind mret result_ret].
    destruct (QArith_base.Qle_bool best q) eqn:E; cbn [negb].
    + apply QArith_base.Qle_bool_iff in E.
      destruct (IH best) as (lo & -> & Hin & Hle). exists lo. split; [done|]. split.
      * apply elem_of_cons in Hin as [->|Hin]; [left|right; by right].
      * intros x [->|[->|Hx]%elem_of_cons]%elem_of_cons.
        -- apply Hle. left.
        -- eapply QArith_base.Qle_trans; [apply Hle; left|exact E].
        -- apply Hle. by right.
    + assert (Hlt : QArith_base.Qle q best).
      { destruct (QArith_base.Qlt_le_dec q best) as [H|H]; [by apply QArith_base.Qlt_le_weak|].
        apply QArith_base.Qle_bool_iff in H. congruence. }
      destruct (IH q) as (lo & -> & Hin & Hle). exists lo. split; [done|]. split.
      * by right.
      * intros x [->|Hx]%elem_of_cons.
        -- eapply QArith_base.Qle_trans; [apply Hle; left|exact Hlt].
        -- by apply Hle.
Qed.

Lemma max_numbers (qs : list QArith_base.Q) (best : QArith_base.Q) :
  exists hi,
    foldM (fun best item => gt ← py_lt best item;
                            mret (if gt : bool then item else best))
          (map VNum qs) (VNum best) = Ok (VNum hi)
    /\ hi ∈ best :: qs
    /\ forall x, x ∈ best :: qs -> QArith_base.Qle x hi.
Proof.
  revert best. induction qs as [|q qs IH]; intros best.
  - exists best. split; [done|]. split; [left|].
    intros x ->%list_elem_of_singleton. apply QArith_base.Qle_refl.
  - cbn [map foldM]. rewrite py_lt_numbers. cbn [mbind result_bind mret result_ret].
    destruct (QArith_base.Qle_bool q best) eqn:E; cbn [negb].
    + apply QArith_base.Qle_bool_iff in E.
      destruct (IH best) as (hi & -> & Hin & Hle). exists hi. split; [done|]. split.
      * apply elem_of_cons in Hin as [->|Hin]; [left|right; by right].
      * intros x [->|[->|Hx]%elem_of_cons]%elem_of_cons.
        -- apply Hle. left.
        -- eapply QArith_base.Qle_trans; [exact E|apply Hle; left].
        -- apply Hle. by right.
    + assert (Hlt : QArith_base.Qle best q).
      { destruct (QArith_base.Qlt_le_dec best q) as [H|H]; [by apply QArith_base.Qlt_le_weak|].
        apply QArith_base.Qle_bool_iff in H. congruence. }
      destruct (IH q) as (hi & -> & Hin & Hle). exists hi. split; [done|]. split.
      * by right.
      * intros x [->|Hx]%elem_of_cons.
        -- eapply QArith_base.Qle_trans; [exact Hlt|apply Hle; left].
        -- by apply Hle.
Qed.
End MinMaxNumbers.

(** X20: on a column of numbers that is not empty, min and max never
    raise: min returns a member of the column that is at most every member,
    max a member that is at least every member. *)
Theorem min_max_of_numbers
    (np_std np_var : list QArith_base.Q -> QArith_base.Q)
    (q : QArith_base.Q) (qs : list QArith_base.Q) :
  exists lo hi,
    DataFrame._apply_aggregation np_std np_var (map VNum (q :: qs))
      (DataFrame.Named "min") = Ok (VNum lo)
    /\ DataFrame._apply_aggregation np_std np_var (map VNum (q :: qs))
         (DataFrame.Named "max") = Ok (VNum hi)
    /\ lo ∈ q :: qs /\ hi ∈ q :: qs
    /\ forall x, x ∈ q :: qs -> QArith_base.Qle lo x /\ QArith_base.Qle x hi.
Proof.
  destruct (min_numbers qs q) as (lo & Hmin & Hlo & Hle).
  destruct (max_numbers qs q) as (hi & Hmax & Hhi & Hge).
  exists lo, hi. unfold DataFrame._apply_aggregation.
  cbn [String.eqb Ascii.eqb Bool.eqb map py_min py_max].
  split; [exact Hmin|]. split; [exact Hmax|]. split; [done|]. split; [done|].
  intros x Hx. split; [by apply Hle|by apply Hge].
Qed.

Lemma min_max_of_numbers_witness :
  exists lo hi,
    DataFrame._apply_aggregation np_zero np_zero [VInt 30; VInt 25; VInt 41]
      (DataFrame.Named "min") = Ok (VNum lo)
    /\ DataFrame._apply_aggregation np_zero np_zero [VInt 30; VInt 25; VInt 41]
         (DataFrame.Named "max") = Ok (VNum hi)
    /\ QArith_base.Qle lo (QArith_base.inject_Z 25)
    /\ QArith_base.Qle (QArith_base.inject_Z 41) hi.
Proof.
  destruct (min_max_of_numbers np_zero np_zero (QArith_base.inject_Z 30)
              [QArith_base.inject_Z 25; QArith_base.inject_Z 41])
    as (lo & hi & Hmin & Hmax & _ & _ & Hle).
  exists lo, hi. split; [exact Hmin|]. split; [exact Hmax|]. split.
  - apply (Hle (QArith_base.inject_Z 25)). right. left.
  - apply (Hle (QArith_base.inject_Z 41)). right. right. left.
Defined.

(** ** [join] *)

Lemma validate_on_missing self other on col :
  col ∈ on ->
  DataFrame.has_column self col = false \/ DataFrame.has_column other col = false ->
  exists msg, DataFrame.validate_on self other on = Err (KeyError msg).
Proof.
  intros Hin Hmissing. unfold DataFrame.validate_on.
  generalize tt. induction on as [|c on IH]; intros u; [by apply elem_of_nil in Hin|].
  cbn [foldM].
  destruct (DataFrame.has_column self c) eqn:Hl; cbn [negb]; [|by eexists].
  destruct (DataFrame.has_column other c) eqn:Hr; cbn [negb]; [|by eexists].
  cbn [mbind result_bind]. apply IH.
  apply elem_of_cons in Hin as [->|Hin]; [|done].
  destruct Hmissing; congruence.
Qed.

(** X21: a join on a name that is not a column of both tables raises
    KeyError before anything is computed, whatever the kind of join asked
    for, a kind the method does not know included. *)
Theorem join_missing_key_raises
    (self other : DataFrame.t) (on : list string) (how : string)
    (suffixes : string * string)
    (left_order right_order : list string) (col : string) :
  col ∈ on ->
  DataFrame.has_column self col = false \/ DataFrame.has_column other col = false ->
  exists msg, DataFrame.join self other on how suffixes
      left_order right_order = Err (KeyError msg).
Proof.
  intros Hin Hmissing. unfold DataFrame.join.
  destruct (validate_on_missing self other on col Hin Hmissing) as [msg ->].
  by exists msg.
Qed.

Lemma join_missing_key_raises_witness :
  exists msg,
    DataFrame.join join_left_example join_right_example ["id"; "v"] "cross" ("_x", "_y")
      [] []
    = Err (KeyError msg).
Proof.
  apply (join_missing_key_raises join_left_example join_right_example
           ["id"; "v"] "cross" ("_x", "_y") [] [] "v").
  - right. left.
  - left. reflexivity.
Defined.

Section RightJoin.
Variables (self other : DataFrame.t) (on : list string)
          (suffixes : string * string)
    (left_order right_order : list string).

Lemma row_key_cells (df1 df2 : DataFrame.t) i j col :
  DataFrame.row_key df1 on i = DataFrame.row_key df2 on j ->
  col ∈ on -> DataFrame.cell df1 col i = DataFrame.cell df2 col j.
Proof.
  unfold DataFrame.row_key. induction on as [|c on' IH]; cbn [map].
  - intros _ Hin. by apply elem_of_nil in Hin.
  - intros [= Hc Hrest] [->|Hin]%elem_of_cons; [done|by apply IH].
Qed.

Lemma out_row_key_ext (k1 k2 left_cell right_cell : string -> value) :
  (forall col, col ∈ on -> k1 col = k2 col) ->
  out_row self other on suffixes left_order right_order k1 left_cell right_cell =
  out_row self other on suffixes left_order right_order k2 left_cell right_cell.
Proof.
  intros Hk. unfold out_row. f_equal. apply map_ext_in.
  intros col Hin%list_elem_of_In. by rewrite Hk.
Qed.

(** The loop of the right join appends the rows [right_rows]. *)
Lemma join_right_rows rd :
  DataFrame.join_right self other on suffixes left_order right_order rd =
  append_rows rd (right_rows self other on suffixes left_order right_order).
Proof.
  unfold DataFrame.join_right, append_rows, right_rows.
  apply fold_left_concat. intros a j _. cbn zeta.
  rewrite index_matches. fold (left_matches_of self other on j).
  destruct (left_matches_of self other on j) as [|i ms] eqn:E.
  - rewrite bool_decide_eq_true_2 by done. cbn [negb].
    cbn. by rewrite emit_cells.
  - rewrite bool_decide_eq_false_2 by done. cbn [negb].
    rewrite fold_left_fmap. apply fold_left_ext. intros a' i' Hi'.
    rewrite emit_cells. f_equal. unfold paired_row.
    apply out_row_key_ext. intros col Hcol. symmetry.
    apply (row_key_cells self other i' j col); [|done].
    rewrite <- E in Hi'. unfold left_matches_of in Hi'.
    apply elem_of_filter_bool in Hi' as [Hi' _]. by apply bool_decide_eq_true in Hi'.
Qed.

Lemma right_rows_keys :
  Forall (fun row => PyDict.keys row = out_names self other on suffixes left_order right_order)
         (right_rows self other on suffixes left_order right_order).
Proof.
  apply Forall_forall. intros row Hin. unfold right_rows in Hin.
  apply elem_of_concat in Hin as (rs & Hrow & Hrs).
  rewrite <- fmap_map in Hrs. apply list_elem_of_fmap in Hrs as (j & -> & _).
  destruct (left_matches_of self other on j) as [|i ms].
  - apply list_elem_of_singleton in Hrow as ->. apply out_row_keys.
  - rewrite <- fmap_map in Hrow.
    apply list_elem_of_fmap in Hrow as (i' & -> & _). apply out_row_keys.
Qed.

Hypothesis wf_self : wf self.
Hypothesis wf_other : wf other.
Hypothesis on_valid : valid_on self other on.
Hypothesis left_iterates :
  DataFrame.iterates left_order (DataFrame.non_key_cols self on).
Hypothesis right_iterates :
  DataFrame.iterates right_order (DataFrame.non_key_cols other on).
Hypothesis names_distinct :
  NoDup (out_names self other on suffixes left_order right_order).

(** The right join returns the rows [right_rows]. *)
Lemma join_right_spec :
  exists df,
    DataFrame.join self other on "right" suffixes left_order right_order = Ok df
    /\ wf df
    /\ DataFrame.len df = length (right_rows self other on suffixes left_order right_order)
    /\ DataFrame.columns df =
       (if bool_decide (right_rows self other on suffixes left_order right_order = [])
        then [] else out_names self other on suffixes left_order right_order)
    /\ rows_of df = right_rows self other on suffixes left_order right_order.
Proof.
  destruct (join_new self other on suffixes left_order right_order wf_self wf_other on_valid
              left_iterates right_iterates names_distinct
              (right_rows self other on suffixes left_order right_order)) as (df & Hnew & Hdf).
  { apply right_rows_keys. }
  { intros H%seq_rows_nonempty. by right. }
  exists df. split; [|exact Hdf].
  change (DataFrame.join self other on "right" suffixes left_order right_order) with
    (DataFrame.validate_on self other on ≫= fun _ =>
     DataFrame.new (DataFrame.join_right self other on suffixes left_order right_order [])).
  rewrite validate_on_ok by done. cbn [mbind result_bind].
  by rewrite join_right_rows.
Qed.
End RightJoin.

(** *** Row counts *)

Lemma length_rows_or_alone {A B C} (m : A -> list B) (g : A -> B -> C)
    (alone : A -> C) (l : list A) :
  length (concat (map (fun i => match m i with
                                | [] => [alone i]
                                | ms => map (g i) ms
                                end) l)) =
  length (concat (map (fun i => map (g i) (m i)) l))
  + length (List.filter (fun i => match m i with [] => true | _ => false end) l).
Proof.
  induction l as [|i l IH]; [done|].
  rewrite !map_cons, !concat_cons, !length_app, IH. cbn [List.filter].
  destruct (m i) as [|j ms]; cbn [length map]; lia.
Qed.

Lemma length_rows_ge {A C} (f : A -> list C) (l : list A) :
  (forall i, f i <> []) -> length l <= length (concat (map f l)).
Proof.
  intros Hf. induction l as [|i l IH]; [done|].
  rewrite map_cons, concat_cons, length_app. cbn [length].
  specialize (Hf i). destruct (f i); [done|]. cbn [length]. lia.
Qed.

(** Counting the pairs that satisfy a relation, by rows or by columns. *)
Lemma double_counting {A B} (P : A -> B -> bool) (l1 : list A) (l2 : list B) :
  sum_list_with (fun i => length (List.filter (fun j => P i j) l2)) l1 =
  sum_list_with (fun j => length (List.filter (fun i => P i j) l1)) l2.
Proof.
  induction l1 as [|i l1 IH]; cbn [sum_list_with List.filter].
  - induction l2 as [|j l2 IH2]; [done|]. cbn in *. lia.
  - rewrite IH. clear IH. induction l2 as [|j l2 IH2]; [done|].
    cbn [sum_list_with List.filter] in *.
    destruct (P i j); cbn [length] in *; lia.
Qed.

Section JoinCounts.
Variables (self other : DataFrame.t) (on : list string)
          (suffixes : string * string)
    (left_order right_order : list string).

Lemma length_inner_rows :
  length (inner_rows self other on suffixes left_order right_order) =
  sum_list_with (fun i => length (matches_of self other on i))
                (seq 0 (DataFrame.len self)).
Proof.
  unfold inner_rows, inner_pairs. rewrite length_map, length_concat_sum.
  apply sum_list_with_ext. intros i _. by rewrite length_map.
Qed.

Lemma length_left_rows :
  length (left_rows self other on suffixes left_order right_order) =
  length (inner_rows self other on suffixes left_order right_order)
  + length (unmatched_left self other on).
Proof.
  unfold left_rows. rewrite length_rows_or_alone. f_equal.
  - rewrite length_inner_rows, length_concat_sum.
    apply sum_list_with_ext. intros i _. by rewrite length_map.
  - unfold unmatched_left. f_equal. apply filter_bool_ext. intros i _.
    destruct (matches_of self other on i) as [|j ms] eqn:E.
    + symmetry. apply bool_decide_eq_true_2. by apply matches_of_nil.
    + symmetry. apply bool_decide_eq_false_2. rewrite <- matches_of_nil. by rewrite E.
Qed.

Lemma left_matches_of_nil j :
  left_matches_of self other on j = [] <->
  DataFrame.row_key other on j ∉ keys_of on self.
Proof.
  unfold left_matches_of, keys_of. split.
  - intros Hnil Hin. rewrite <- fmap_map in Hin.
    apply list_elem_of_fmap in Hin as (i & Hi & Hin).
    assert (Hi' : i ∈ List.filter
              (fun i => bool_decide (DataFrame.row_key self on i =
                                     DataFrame.row_key other on j))
              (seq 0 (DataFrame.len self))).
    { apply elem_of_filter_bool. split; [|done]. by apply bool_decide_eq_true. }
    rewrite Hnil in Hi'. by apply elem_of_nil in Hi'.
  - intros Hnotin.
    destruct (List.filter _ _) as [|i ms] eqn:E; [done|]. exfalso. apply Hnotin.
    assert (Hi : i ∈ i :: ms) by left. rewrite <- E in Hi.
    apply elem_of_filter_bool in Hi as [Hi Hin].
    apply bool_decide_eq_true in Hi. rewrite <- Hi.
    rewrite <- fmap_map. apply list_elem_of_fmap. eauto.
Qed.

Lemma length_right_rows :
  length (right_rows self other on suffixes left_order right_order) =
  length (inner_rows self other on suffixes left_order right_order)
  + length (unmatched_right self other on).
Proof.
  unfold right_rows.
  rewrite (length_rows_or_alone (left_matches_of self other on)
             (fun j i => paired_row self other on suffixes left_order right_order i j)).
  f_equal.
  - rewrite length_inner_rows, length_concat_sum.
    rewrite (sum_list_with_ext _
               (fun j => length (left_matches_of self other on j)))
      by (intros j _; by rewrite length_map).
    unfold left_matches_of, matches_of. symmetry.
    rewrite (double_counting
               (fun i j => bool_decide (DataFrame.row_key other on j =
                                        DataFrame.row_key self on i))).
    apply sum_list_with_ext. intros j _. f_equal. apply filter_bool_ext.
    intros i _. apply bool_decide_ext. split; congruence.
  - unfold unmatched_right. f_equal. apply filter_bool_ext. intros j _.
    destruct (left_matches_of self other on j) as [|i ms] eqn:E.
    + symmetry. apply bool_decide_eq_true_2. by apply left_matches_of_nil.
    + symmetry. apply bool_decide_eq_false_2. rewrite <- left_matches_of_nil.
      by rewrite E.
Qed.
End JoinCounts.

(** X22: the right join returns, for every right row in turn, one row for
    each left row that has its key, in the order of the left rows, and one
    row with None in the left columns when no left row has it; so it has
    the rows of the inner join and one more for every right row without
    match, and never fewer rows than the right table.  [left_order] and
    [right_order] are the orders in which the call iterates its two sets
    of non-key columns, whatever they are. *)
Theorem right_join_rows
    (self other : DataFrame.t) (on : list string) (suffixes : string * string)
    (left_order right_order : list string) :
  wf self -> wf other -> valid_on self other on ->
  DataFrame.iterates left_order (DataFrame.non_key_cols self on) ->
  DataFrame.iterates right_order (DataFrame.non_key_cols other on) ->
  NoDup (out_names self other on suffixes left_order right_order) ->
  exists df df_inner,
    DataFrame.join self other on "right" suffixes left_order right_order = Ok df
    /\ DataFrame.join self other on "inner" suffixes left_order right_order = Ok df_inner
    /\ wf df
    /\ rows_of df = right_rows self other on suffixes left_order right_order
    /\ DataFrame.len df =
       DataFrame.len df_inner + length (unmatched_right self other on)
    /\ DataFrame.len other <= DataFrame.len df.
Proof.
  intros Hself Hother Hon Hlo Hro Hnames.
  destruct (join_right_spec self other on suffixes
      left_order right_order Hself Hother Hon Hlo Hro Hnames)
    as (df & Hjoin & Hwf & Hlen & _ & Hrows).
  destruct (join_inner self other on suffixes
      left_order right_order Hself Hother Hon Hlo Hro Hnames)
    as (df_inner & Hinner & _ & Hlen_inner & _).
  exists df, df_inner.
  split; [done|]. split; [done|]. split; [done|]. split; [done|]. split.
  - rewrite Hlen, Hlen_inner. apply length_right_rows.
  - rewrite Hlen. unfold right_rows.
    etrans; [|apply length_rows_ge].
    + by rewrite length_seq.
    + intros j. by destruct (left_matches_of self other on j).
Qed.

Lemma right_join_rows_witness :
  exists df,
    DataFrame.join many_left_example many_right_example ["id"] "right" ("_x", "_y") ["a"] ["b"]
    = Ok df
    /\ rows_of df =
       [[("id", VInt 3); ("a", VNone); ("b", VStr "x")];
        [("id", VInt 1); ("a", VStr "p"); ("b", VStr "y")];
        [("id", VInt 1); ("a", VStr "q"); ("b", VStr "y")];
        [("id", VInt 1); ("a", VStr "p"); ("b", VStr "z")];
        [("id", VInt 1); ("a", VStr "q"); ("b", VStr "z")]].
Proof.
  destruct (right_join_rows many_left_example many_right_example ["id"] ("_x", "_y")
              ["a"] ["b"])
    as (df & df_inner & Hjoin & _ & _ & Hrows & _);
    [compute_done|compute_done|compute_done|compute_done|compute_done|compute_done|].
  exists df. split; [exact Hjoin|]. rewrite Hrows. vm_compute. reflexivity.
Defined.

(** X23: the four kinds of join count their rows alike: the left join has
    the rows of the inner join and one more for every left row without
    match, so never fewer rows than the left table, and the outer and the
    inner join together have as many rows as the left and the right join
    together.  [left_order] and
    [right_order] are the orders in which the call iterates its two sets
    of non-key columns, whatever they are. *)
Theorem join_row_counts
    (self other : DataFrame.t) (on : list string) (suffixes : string * string)
    (left_order right_order : list string) :
  wf self -> wf other -> valid_on self other on ->
  DataFrame.iterates left_order (DataFrame.non_key_cols self on) ->
  DataFrame.iterates right_order (DataFrame.non_key_cols other on) ->
  NoDup (out_names self other on suffixes left_order right_order) ->
  exists df_inner df_left df_right df_outer,
    DataFrame.join self other on "inner" suffixes left_order right_order = Ok df_inner
    /\ DataFrame.join self other on "left" suffixes left_order right_order = Ok df_left
    /\ DataFrame.join self other on "right" suffixes left_order right_order = Ok df_right
    /\ DataFrame.join self other on "outer" suffixes left_order right_order = Ok df_outer
    /\ DataFrame.len df_left =
       DataFrame.len df_inner + length (unmatched_left self other on)
    /\ DataFrame.len self <= DataFrame.len df_left
    /\ DataFrame.len df_outer + DataFrame.len df_inner =
       DataFrame.len df_left + DataFrame.len df_right.
Proof.
  intros Hself Hother Hon Hlo Hro Hnames.
  destruct (join_inner self other on suffixes
      left_order right_order Hself Hother Hon Hlo Hro Hnames)
    as (df_inner & Hinner & _ & Hlen_inner & _).
  destruct (join_left self other on suffixes
      left_order right_order Hself Hother Hon Hlo Hro Hnames)
    as (df_left & Hleft & _ & Hlen_left & _).
  destruct (join_right_spec self other on suffixes
      left_order right_order Hself Hother Hon Hlo Hro Hnames)
    as (df_right & Hright & _ & Hlen_right & _).
  destruct (join_outer self other on suffixes
      left_order right_order Hself Hother Hon Hlo Hro Hnames)
    as (df_outer & Houter & _ & Hlen_outer & _).
  exists df_inner, df_left, df_right, df_outer. repeat apply conj; try done.
  - rewrite Hlen_left, Hlen_inner. apply length_left_rows.
  - rewrite Hlen_left. unfold left_rows.
    etrans; [|apply length_rows_ge].
    + by rewrite length_seq.
    + intros i. by destruct (matches_of self other on i).
  - rewrite Hlen_outer, Hlen_inner, Hlen_left, Hlen_right.
    rewrite length_left_rows, length_right_rows. unfold outer_rows.
    rewrite !length_app, !length_map. lia.
Qed.

Lemma join_row_counts_witness :
  exists df_inner df_left df_right df_outer,
    DataFrame.join many_left_example many_right_example ["id"] "inner" ("_x", "_y") ["a"] ["b"]
    = Ok df_inner
    /\ DataFrame.join many_left_example many_right_example ["id"] "left" ("_x", "_y") ["a"] ["b"]
       = Ok df_left
    /\ DataFrame.join many_left_example many_right_example ["id"] "right" ("_x", "_y") ["a"] ["b"]
       = Ok df_right
    /\ DataFrame.join many_left_example many_right_example ["id"] "outer" ("_x", "_y") ["a"] ["b"]
       = Ok df_outer
    /\ DataFrame.len df_left = DataFrame.len df_inner + 1
    /\ DataFrame.len df_outer + DataFrame.len df_inner =
       DataFrame.len df_left + DataFrame.len df_right.
Proof.
  destruct (join_row_counts many_left_example many_right_example ["id"] ("_x", "_y")
              ["a"] ["b"])
    as (df_inner & df_left & df_right & df_outer & Hi & Hl & Hr & Ho & Hlen & _ & Hsum);
    [compute_done|compute_done|compute_done|compute_done|compute_done|compute_done|].
  exists df_inner, df_left, df_right, df_outer. repeat split; try done.
Defined.

(** X24: on tables that satisfy the class invariant, with key columns that
    both have and output names that are distinct, none of the four joins
    raises, in whatever order the call iterates its two sets of non-key
    columns; a result with at least one row has the key columns first, then
    the other columns of the left table in the order in which their set is
    iterated, then those of the right table in the order of theirs, a name
    that both sides have carrying the suffix of its side; a result without
    rows has no column at all. *)
Theorem joined_columns
    (self other : DataFrame.t) (on : list string) (suffixes : string * string)
    (left_order right_order : list string)
    (how : string) :
  wf self -> wf other -> valid_on self other on ->
  DataFrame.iterates left_order (DataFrame.non_key_cols self on) ->
  DataFrame.iterates right_order (DataFrame.non_key_cols other on) ->
  NoDup (out_names self other on suffixes left_order right_order) ->
  how ∈ join_kinds ->
  exists df,
    DataFrame.join self other on how suffixes left_order right_order = Ok df
    /\ wf df
    /\ (0 < DataFrame.len df ->
        DataFrame.columns df =
        on ++ map (DataFrame.col_name (DataFrame.overlap self other on) suffixes.1)
                  left_order
           ++ map (DataFrame.col_name (DataFrame.overlap self other on) suffixes.2)
                  right_order)
    /\ (DataFrame.len df = 0 -> DataFrame.shape df = (0, 0)).
Proof.
  intros Hself Hother Hon Hlo Hro Hnames Hhow.
  assert (Hcases : exists df (rows : list (list (string * value))),
             DataFrame.join self other on how suffixes left_order right_order = Ok df
             /\ wf df
             /\ DataFrame.len df = length rows
             /\ DataFrame.columns df =
                (if bool_decide (rows = []) then []
                 else out_names self other on suffixes left_order right_order)).
  { unfold join_kinds in Hhow. rewrite !elem_of_cons, elem_of_nil in Hhow.
    destruct Hhow as [-> | [-> | [-> | [-> | []]]]].
    - destruct (join_inner self other on suffixes
        left_order right_order Hself Hother Hon Hlo Hro Hnames)
        as (df & ? & ? & ? & ? & _). eauto 10.
    - destruct (join_left self other on suffixes
        left_order right_order Hself Hother Hon Hlo Hro Hnames)
        as (df & ? & ? & ? & ? & _). eauto 10.
    - destruct (join_right_spec self other on suffixes
        left_order right_order Hself Hother Hon Hlo Hro Hnames)
        as (df & ? & ? & ? & ? & _). eauto 10.
    - destruct (join_outer self other on suffixes
        left_order right_order Hself Hother Hon Hlo Hro Hnames)
        as (df & ? & ? & ? & ? & _). eauto 10. }
  destruct Hcases as (df & rows & Hjoin & Hwf & Hlen & Hcols).
  exists df. split; [done|]. split; [done|]. split.
  - intros Hpos. rewrite Hcols. destruct rows; [cbn in Hlen; lia|done].
  - intros Hzero. rewrite Hzero in Hlen. destruct rows; [|done].
    unfold DataFrame.shape. unfold DataFrame.len in Hzero. rewrite Hzero.
    unfold DataFrame.columns, PyDict.keys in Hcols. cbn in Hcols.
    by destruct (DataFrame._data df).
Qed.

Lemma joined_columns_witness :
  exists df,
    DataFrame.join wide_left_example wide_right_example ["id"] "outer" ("_x", "_y")
      ["b"; "a"] ["d"; "c"] = Ok df
    /\ DataFrame.columns df = ["id"; "b"; "a"; "d"; "c"].
Proof.
  destruct (joined_columns wide_left_example wide_right_example ["id"] ("_x", "_y")
              ["b"; "a"] ["d"; "c"] "outer")
    as (df & Hjoin & _ & Hcols & _);
    [compute_done|compute_done|compute_done|compute_done|compute_done|compute_done
    |compute_done|].
  exists df. split; [exact Hjoin|].
  rewrite Hcols; [vm_compute; reflexivity|].
  vm_compute in Hjoin. injection Hjoin as <-. cbn. lia.
Defined.



(** ** Grouping *)

Lemma group_key_missing (df : DataFrame.t) cols col i :
  col ∈ cols -> DataFrame.has_column df col = false ->
  exists msg, GroupedDataFrame.group_key df cols i = Err (KeyError msg).
Proof.
  intros Hin Hcol. unfold GroupedDataFrame.group_key.
  induction cols as [|c cols IH]; [by apply elem_of_nil in Hin|].
  cbn [mapM_result].
  destruct (DataFrame.has_column df c) eqn:Hc; [|by eexists].
  cbn [mbind result_bind].
  apply elem_of_cons in Hin as [->|Hin]; [congruence|].
  destruct (IH Hin) as [msg ->]. by exists msg.
Qed.

(** X26: grouping a table that has rows by a name that is not one of its
    columns raises KeyError, when the groups are built and before any
    aggregation is asked for. *)
Theorem group_by_missing_column_raises
    (df : DataFrame.t) (cols : list string) (col : string) :
  0 < DataFrame.len df ->
  col ∈ cols ->
  DataFrame.has_column df col = false ->
  exists msg, group_by df cols = Err (KeyError msg).
Proof.
  intros Hlen Hin Hcol. unfold group_by, GroupedDataFrame.new.
  unfold GroupedDataFrame._build_groups.
  destruct (DataFrame.len df) as [|n]; [lia|].
  cbn [seq foldM].
  destruct (group_key_missing df cols col 0 Hin Hcol) as [msg ->].
  by exists msg.
Qed.

Lemma group_by_missing_column_raises_witness :
  exists msg, group_by medals ["NOC"; "Year"] = Err (KeyError msg).
Proof.
  apply (group_by_missing_column_raises medals ["NOC"; "Year"] "Year").
  - cbn. lia.
  - right. left.
  - reflexivity.
Defined.

(** X27: on a table without rows nothing is checked: grouping it by any
    names, columns or not, returns a grouping without groups, and any
    aggregation of it, whatever columns and aggregators it names, returns
    the table without rows and without columns. *)
Theorem grouping_an_empty_table
    (np_std np_var : list QArith_base.Q -> QArith_base.Q)
    (df : DataFrame.t) (cols : list string)
    (aggregations : list (string * DataFrame.agg_arg)) :
  DataFrame.len df = 0 ->
  group_by df cols = Ok (GroupedDataFrame.mk df cols [])
  /\ GroupedDataFrame.agg np_std np_var (GroupedDataFrame.mk df cols []) aggregations
     = Ok (DataFrame.mk [] 0).
Proof.
  intros Hlen. split; [|reflexivity].
  unfold group_by, GroupedDataFrame.new, GroupedDataFrame._build_groups.
  by rewrite Hlen.
Qed.

Lemma grouping_an_empty_table_witness :
  group_by empty_table ["Year"] = Ok (GroupedDataFrame.mk empty_table ["Year"] [])
  /\ GroupedDataFrame.agg np_zero np_zero
       (GroupedDataFrame.mk empty_table ["Year"] [])
       (one_agg "Medal" "median")
     = Ok (DataFrame.mk [] 0).
Proof.
  apply (grouping_an_empty_table np_zero np_zero empty_table ["Year"]
           (one_agg "Medal" "median")).
  reflexivity.
Defined.

(** X28: the groups of a table are a partition of its rows by key: the
    keys of the groups are the distinct key tuples in the order in which
    they are first seen, every group holds, in row order, exactly the rows
    that have its key, no group is empty, and the sizes of the groups add
    up to the number of rows. *)
Theorem groups_partition_the_rows (df : DataFrame.t) (cols : list string) :
  Forall (fun col => DataFrame.has_column df col = true) cols ->
  exists g,
    group_by df cols = Ok g
    /\ GroupedDataFrame._df g = df
    /\ PyDict.keys (GroupedDataFrame._groups g) = first_seen (keys_of cols df)
    /\ NoDup (PyDict.keys (GroupedDataFrame._groups g))
    /\ (forall key indices, (key, indices) ∈ GroupedDataFrame._groups g ->
          indices <> []
          /\ indices = List.filter
                         (fun i => bool_decide (DataFrame.row_key df cols i = key))
                         (seq 0 (DataFrame.len df)))
    /\ (forall i, i < DataFrame.len df ->
          exists indices,
            (DataFrame.row_key df cols i, indices) ∈ GroupedDataFrame._groups g
            /\ i ∈ indices)
    /\ sum_list_with (fun group => length group.2) (GroupedDataFrame._groups g)
       = DataFrame.len df.
Proof.
  intros Hcols. eexists. split.
  { unfold group_by, GroupedDataFrame.new. by rewrite build_groups_spec. }
  cbn [GroupedDataFrame._df GroupedDataFrame._groups].
  split; [done|]. split; [apply keys_keyed|]. split.
  { rewrite keys_keyed. apply NoDup_first_seen. }
  split; [|split].
  - intros key indices (k & [= -> ->] & Hk)%list_elem_of_fmap. split; [|done].
    apply elem_of_first_seen, elem_of_keys_of in Hk as (i & Hi & Hkey).
    intros Hnil.
    assert (Hin : i ∈ List.filter
              (fun i => bool_decide (DataFrame.row_key df cols i = k))
              (seq 0 (DataFrame.len df))).
    { apply elem_of_filter_bool. split; [by apply bool_decide_eq_true|].
      apply elem_of_seq. lia. }
    rewrite Hnil in Hin. by apply elem_of_nil in Hin.
  - intros i Hi. eexists. split.
    + rewrite <- fmap_map.
      apply (list_elem_of_fmap_2
               (fun k => (k, List.filter
                               (fun i => bool_decide (DataFrame.row_key df cols i = k))
                               (seq 0 (DataFrame.len df))))).
      apply elem_of_first_seen, elem_of_keys_of. eauto.
    + apply elem_of_filter_bool. split; [by apply bool_decide_eq_true|].
      apply elem_of_seq. lia.
  - rewrite sum_list_with_map.
    transitivity (sum_list_with (fun k => occurrences k (keys_of cols df) * 1)
                                (first_seen (keys_of cols df))).
    + apply sum_list_with_ext. intros k _. cbn [snd].
      unfold keys_of. rewrite occurrences_map. lia.
    + rewrite <- (sum_by_key (fun _ => 1)).
      assert (Hones : forall l : list (list value),
                 sum_list_with (fun _ => 1) l = length l).
      { induction l as [|k l IH]; cbn; [done|]. by rewrite IH. }
      rewrite Hones. unfold keys_of, DataFrame.len.
      by rewrite length_map, length_seq.
Qed.

Lemma groups_partition_the_rows_witness :
  exists g,
    group_by medals ["NOC"] = Ok g
    /\ GroupedDataFrame._groups g = [([VStr "A"], [0; 1]); ([VStr "B"], [2])].
Proof.
  destruct (groups_partition_the_rows medals ["NOC"])
    as (g & Hg & _); [repeat constructor|].
  exists g. split; [exact Hg|].
  vm_compute in Hg. injection Hg as <-. reflexivity.
Defined.

(** X29: a grouped aggregation of one column by one aggregator, a name or
    a callable, returns one row for every distinct key, in first-seen
    order, holding the key and the value of the aggregator on the cells of
    the column in the rows of the group, taken in row order, whenever the
    aggregator returns a value for every group. *)
Theorem grouped_agg_applies_per_group
    (np_std np_var : list QArith_base.Q -> QArith_base.Q)
    (df : DataFrame.t) (cols : list string) (x : string)
    (func : DataFrame.agg_func) (val : list value -> value) :
  Forall (fun col => DataFrame.has_column df col = true) cols ->
  DataFrame.has_column df x = true ->
  NoDup (cols ++ [x]) ->
  (forall key, key ∈ keys_of cols df ->
     DataFrame._apply_aggregation np_std np_var (group_values df cols x key) func
     = Ok (val key)) ->
  exists g out,
    group_by df cols = Ok g
    /\ GroupedDataFrame.agg np_std np_var g [(x, DataFrame.Single func)] = Ok out
    /\ wf out
    /\ DataFrame.len out = length (first_seen (keys_of cols df))
    /\ rows_of out = map (fun key => agg_row cols x key (val key))
                         (first_seen (keys_of cols df)).
Proof.
  intros Hcols Hx Hnames Hval.
  set (keys := keys_of cols df).
  set (groups := map (fun k => (k, List.filter
                          (fun i => bool_decide (DataFrame.row_key df cols i = k))
                          (seq 0 (DataFrame.len df))))
                     (first_seen keys)).
  exists (GroupedDataFrame.mk df cols groups).
  set (rows := map (fun key => agg_row cols x key (val key)) (first_seen keys)).
  assert (Hrows : Forall (fun row => PyDict.keys row = cols ++ [x]) rows).
  { apply Forall_forall. intros row Hin. subst rows. rewrite <- fmap_map in Hin.
    apply list_elem_of_fmap in Hin as (k & -> & Hk).
    apply (proj1 (elem_of_first_seen _ _)) in Hk.
    unfold agg_row, PyDict.keys. rewrite map_app. cbn [map fst]. f_equal.
    by apply (zip_key_keys df cols). }
  destruct (new_table_of (cols ++ [x]) Hnames rows) as (out & Hnew & Hout).
  { intros _. by destruct cols. }
  { exact Hrows. }
  exists out. split; [|split].
  - unfold group_by, GroupedDataFrame.new. by rewrite build_groups_spec.
  - unfold GroupedDataFrame.agg. cbn [GroupedDataFrame._groups].
    rewrite (foldM_ok _ (fun rd (group : list value * list nat) =>
               append_cells rd (agg_row cols x group.1 (val group.1)))).
    + cbn [mbind result_bind]. rewrite <- Hnew. f_equal.
      rewrite <- (append_rows_table _ Hnames) by done.
      unfold append_rows, rows, groups. by rewrite !fold_left_fmap.
    + intros rd [key idxs] Hin. subst groups. rewrite <- fmap_map in Hin.
      apply list_elem_of_fmap in Hin as (k & [= -> ->] & Hk).
      apply (proj1 (elem_of_first_seen _ _)) in Hk.
      rewrite (agg_group_single np_std np_var df cols) by done.
      by rewrite Hval.
  - destruct Hout as (Hwf & Hlen & _ & Hrows_of).
    split; [exact Hwf|]. split; [|exact Hrows_of].
    rewrite Hlen. subst rows. by rewrite length_map.
Qed.

Lemma grouped_agg_applies_per_group_witness :
  exists g out,
    group_by medals ["NOC"] = Ok g
    /\ GroupedDataFrame.agg np_zero np_zero g (one_agg "Medal" "max") = Ok out
    /\ rows_of out = [[("NOC", VStr "A"); ("Medal", VStr "Silver")];
                      [("NOC", VStr "B"); ("Medal", VStr "Gold")]].
Proof.
  destruct (grouped_agg_applies_per_group np_zero np_zero medals ["NOC"] "Medal"
              (DataFrame.Named "max")
              (fun key => if decide (key = [VStr "A"]) then VStr "Silver"
                          else VStr "Gold"))
    as (g & out & Hg & Hagg & _ & _ & Hrows).
  - repeat constructor.
  - reflexivity.
  - compute_done.
  - intros key Hkey. vm_compute in Hkey.
    repeat (apply elem_of_cons in Hkey as [->|Hkey]; [vm_compute; reflexivity|]).
    by apply elem_of_nil in Hkey.
  - exists g, out. split; [exact Hg|]. split; [exact Hagg|].
    rewrite Hrows. vm_compute. reflexivity.
Defined.

(** X30: a grouped aggregation that asks for nothing returns the distinct
    key tuples of the table, one row each, in the order in which they are
    first seen, under the names of the group columns.  There is at least
    one group column, every group column is a column of the table, and none
    is named twice. *)
Theorem grouped_agg_of_nothing_is_distinct
    (np_std np_var : list QArith_base.Q -> QArith_base.Q)
    (df : DataFrame.t) (cols : list string) :
  Forall (fun col => DataFrame.has_column df col = true) cols ->
  NoDup cols ->
  cols <> [] ->
  exists g out,
    group_by df cols = Ok g
    /\ GroupedDataFrame.agg np_std np_var g [] = Ok out
    /\ wf out
    /\ rows_of out = map (zip cols) (first_seen (keys_of cols df))
    /\ NoDup (rows_of out).
Proof.
  intros Hcols Hnames Hne.
  set (keys := keys_of cols df).
  set (groups := map (fun k => (k, List.filter
                          (fun i => bool_decide (DataFrame.row_key df cols i = k))
                          (seq 0 (DataFrame.len df))))
                     (first_seen keys)).
  exists (GroupedDataFrame.mk df cols groups).
  set (rows := map (zip cols) (first_seen keys)).
  assert (Hrows : Forall (fun row => PyDict.keys row = cols) rows).
  { apply Forall_forall. intros row Hin. subst rows. rewrite <- fmap_map in Hin.
    apply list_elem_of_fmap in Hin as (k & -> & Hk).
    apply (proj1 (elem_of_first_seen _ _)) in Hk. by apply (zip_key_keys df cols). }
  destruct (new_table_of cols Hnames rows) as (out & Hnew & Hout); [done|done|].
  exists out. split; [|split].
  - unfold group_by, GroupedDataFrame.new. by rewrite build_groups_spec.
  - unfold GroupedDataFrame.agg. cbn [GroupedDataFrame._groups].
    rewrite (foldM_ok _ (fun rd (group : list value * list nat) =>
               append_cells rd (zip cols group.1))).
    + cbn [mbind result_bind]. rewrite <- Hnew. f_equal.
      rewrite <- (append_rows_table _ Hnames) by done.
      unfold append_rows, rows, groups. by rewrite !fold_left_fmap.
    + intros rd [key idxs] Hin. subst groups. rewrite <- fmap_map in Hin.
      apply list_elem_of_fmap in Hin as (k & [= -> ->] & Hk).
      apply (proj1 (elem_of_first_seen _ _)) in Hk.
      by apply (agg_group_none np_std np_var df cols).
  - destruct Hout as (Hwf & _ & _ & Hrows_of).
    split; [exact Hwf|]. split; [exact Hrows_of|].
    rewrite Hrows_of. subst rows. rewrite <- fmap_map.
    apply NoDup_fmap_2_strong; [|apply NoDup_first_seen].
    intros k1 k2 Hk1 Hk2 Hzip.
    apply (proj1 (elem_of_first_seen _ _)) in Hk1, Hk2.
    apply elem_of_keys_of in Hk1 as (i1 & _ & <-).
    apply elem_of_keys_of in Hk2 as (i2 & _ & <-).
    apply (f_equal (map snd)) in Hzip.
    unfold DataFrame.row_key in *. by rewrite !zip_keyed, !map_map in Hzip.
Qed.

Lemma grouped_agg_of_nothing_is_distinct_witness :
  exists g out,
    group_by medals ["Medal"] = Ok g
    /\ GroupedDataFrame.agg np_zero np_zero g [] = Ok out
    /\ rows_of out = [[("Medal", VStr "Gold")]; [("Medal", VStr "Silver")]].
Proof.
  destruct (grouped_agg_of_nothing_is_distinct np_zero np_zero medals ["Medal"])
    as (g & out & Hg & Hagg & _ & Hrows & _).
  - repeat constructor.
  - compute_done.
  - discriminate.
  - exists g, out. split; [exact Hg|]. split; [exact Hagg|].
    rewrite Hrows. vm_compute. reflexivity.
Defined.
